(** * Pixelar backend: generation, spritesheet and asset services

    A shallow embedding of [services/generation.service.js],
    [services/spritesheet.service.js], [services/asset.service.js] and of the
    parameter handling of the generation routes, with the properties
    of the generation orchestration engine stated over it.

    Conventions of the embedding:
    - a JavaScript value that may be [undefined] is an [option]; a string is a
      [string] of code units, and [toLowerCase] acts on the letters A-Z (the
      nine markers and every string constant of the services are ASCII);
    - a number that the services only pass around, compare or count with is a
      [Z];
    - an [async] function is a computation over a [World]: the responses the
      network will deliver, in order, and the requests sent so far.  An
      exception is the [Thrown] outcome, and a request that is never answered
      is the [Pending] outcome;
    - [console.log] and the one-second timer between two polls do not affect
      any request or result and are left out, except for the one [console.log]
      whose argument can raise (the first statement of
      [generateAnimationFrames]). *)

From Stdlib Require Import ZArith String Ascii List Lia DecimalString.
From stdpp Require Import base strings list gmap.

Local Open Scope string_scope.
Local Open Scope Z_scope.

(** ** JavaScript strings, property lookup and completions *)
Module Js.

(** Outcome of evaluating synchronous code: a value, or a thrown [Error]
    carrying its [message]. *)
Inductive Completion (A : Type) : Type :=
| Normal (a : A)
| Abrupt (message : string).
Arguments Normal {A} a.
Arguments Abrupt {A} message.

Definition andThen {A B} (c : Completion A) (k : A -> Completion B) : Completion B :=
  match c with
  | Normal a => k a
  | Abrupt m => Abrupt m
  end.

(** Truthiness of a value that is a string or [undefined]. *)
Definition truthy (v : option string) : bool :=
  match v with
  | Some s => negb (String.eqb s "")
  | None => false
  end.

(** [a || b] on such values. *)
Definition orElse (v : option string) (dflt : string) : string :=
  match v with
  | Some s => if String.eqb s "" then dflt else s
  | None => dflt
  end.

(** [`${v}`]: interpolation of a string-or-undefined value. *)
Definition interpolate (v : option string) : string :=
  match v with
  | Some s => s
  | None => "undefined"
  end.

(** [`${n}`] for an integer-valued number, or [undefined]. *)
Definition showNumber (n : option Z) : string :=
  match n with
  | Some z => NilZero.string_of_int (Z.to_int z)
  | None => "undefined"
  end.

Definition lower_ascii (c : ascii) : ascii :=
  let n := nat_of_ascii c in
  if ((65 <=? n) && (n <=? 90))%nat then ascii_of_nat (n + 32) else c.

(** [s.toLowerCase()] *)
Fixpoint toLowerCase (s : string) : string :=
  match s with
  | EmptyString => EmptyString
  | String c s' => String (lower_ascii c) (toLowerCase s')
  end.

(** [s.startsWith(p)] *)
Definition startsWith (s p : string) : bool := String.prefix p s.

(** [s.includes(sub)] *)
Fixpoint includes (s sub : string) : bool :=
  String.prefix sub s ||
  match s with
  | EmptyString => false
  | String _ s' => includes s' sub
  end.

(** [s.split(sep)] for a one-character separator. *)
Fixpoint split (sep : ascii) (s : string) : list string :=
  match s with
  | EmptyString => [""]
  | String c s' =>
      if Ascii.eqb c sep then "" :: split sep s'
      else match split sep s' with
           | [] => [String c ""]
           | piece :: pieces => String c piece :: pieces
           end
  end.

(** [xs.join(sep)] *)
Definition join (sep : string) (xs : list string) : string := String.concat sep xs.

(** The property names every object literal inherits from
    [Object.prototype]. *)
Definition objectPrototypeKeys : list string :=
  [ "constructor"; "__proto__"; "hasOwnProperty"; "isPrototypeOf";
    "propertyIsEnumerable"; "toLocaleString"; "toString"; "valueOf";
    "__defineGetter__"; "__defineSetter__"; "__lookupGetter__";
    "__lookupSetter__" ].

Definition isPrototypeKey (k : string) : bool :=
  existsb (String.eqb k) objectPrototypeKeys.

(** Result of [table[key]] on an object literal used as a lookup table: one
    of its own entries, a member inherited from [Object.prototype] (a function,
    or the prototype object itself for [__proto__]; always truthy), or
    [undefined]. *)
Inductive Property (A : Type) : Type :=
| Own (a : A)
| Inherited (key : string)
| Undefined.
Arguments Own {A} a.
Arguments Inherited {A} key.
Arguments Undefined {A}.

Definition getProperty {A} (table : gmap string A) (key : option string) : Property A :=
  let k := interpolate key in
  match table !! k with
  | Some a => Own a
  | None => if isPrototypeKey k then Inherited k else Undefined
  end.

(** [String(v)] of an inherited member, as Node prints it. *)
Definition inheritedToString (key : string) : string :=
  if String.eqb key "__proto__" then "[object Object]"
  else if String.eqb key "constructor" then "function Object() { [native code] }"
  else "function " +:+ key +:+ "() { [native code] }".

(** The message of the [TypeError] raised by [undefined.toLowerCase()]. *)
Definition undefinedToLowerCase : string :=
  "Cannot read properties of undefined (reading 'toLowerCase')".

End Js.
Export Js.

(** ** The prompt builder of [generation.service.js] *)
Module Prompt.

(** The generation parameters ([params], also passed as the refinement
    [context]).  Every field may be absent on the JavaScript object. *)
Record Params : Type := {
  prompt : option string;
  type : option string;
  style : option string;
  viewpoint : option string;
  colors : option (list string);
  dimensions : option string;
  aspectRatio : option string;
  spriteType : option string;
  sceneType : option string;
  quantity : option Z;
  referenceImage : option string;
  poseImage : option string;
  removeBg : option bool;
  tileX : option bool;
  tileY : option bool
}.

(** [v === 'literal'] *)
Definition strictEq (v : option string) (literal : string) : bool :=
  match v with
  | Some s => String.eqb s literal
  | None => false
  end.

Record Dimensions : Type := { width : Z; height : Z }.

Definition ratioMap : gmap string Dimensions :=
  list_to_map
    [ ("2:3", {| width := 688; height := 1024 |});
      ("1:1", {| width := 1024; height := 1024 |});
      ("9:16", {| width := 576; height := 1024 |});
      ("4:3", {| width := 1024; height := 768 |});
      ("3:2", {| width := 1024; height := 688 |});
      ("16:9", {| width := 1024; height := 576 |}) ].

(** [ratioMap[aspectRatio] || { width: 1024, height: 1024 }].  An inherited
    member is truthy, so it is returned as it is. *)
Definition getImageDimensions (aspectRatio : option string) : Property Dimensions :=
  match getProperty ratioMap aspectRatio with
  | Own d => Own d
  | Inherited k => Inherited k
  | Undefined => Own {| width := 1024; height := 1024 |}
  end.

(** The [width] and [height] read off the value [getImageDimensions]
    returned; an inherited member has neither. *)
Definition widthOf (d : Property Dimensions) : option Z :=
  match d with Own d => Some (width d) | _ => None end.

Definition heightOf (d : Property Dimensions) : option Z :=
  match d with Own d => Some (height d) | _ => None end.

Definition partialMarkers : list string :=
  [ "half body"; "half-body"; "upper body"; "above chest"; "portrait";
    "bust"; "headshot"; "face only"; "torso" ].

Definition wantsPartialCharacter (prompt : option string) : Completion bool :=
  match prompt with
  | None => Abrupt undefinedToLowerCase
  | Some prompt =>
      let promptLower := toLowerCase prompt in
      Normal (includes promptLower "half body" ||
              includes promptLower "half-body" ||
              includes promptLower "upper body" ||
              includes promptLower "above chest" ||
              includes promptLower "portrait" ||
              includes promptLower "bust" ||
              includes promptLower "headshot" ||
              includes promptLower "face only" ||
              includes promptLower "torso")
  end.

Definition pixelArtPrefix : string :=
  "Create a pixel art style image. Use clear pixel boundaries, limited color palette, and retro game aesthetic. ".

Definition flatPrefix : string :=
  "Create a 2D flat style image with clean lines, solid colors, and modern vector-like appearance. ".

Definition spriteIntro (entityType : string) : string :=
  "This is a game sprite " +:+ entityType +:+
  " that should be suitable for use in a 2D video game. ".

Definition spriteBackground : string :=
  "The sprite should have a transparent or solid color background that can be easily removed. ".

Definition fullBodyClause : string :=
  "IMPORTANT: Generate a FULL-BODY character showing the entire figure from head to feet. The character must be fully visible and standing, NOT cropped at the chest, waist, or knees. ".

Definition sceneIntro (envType : string) : string :=
  "This is an " +:+ envType +:+
  " game scene or background environment for a 2D video game. ".

Definition viewpointDescriptions : gmap string string :=
  list_to_map
    [ ("front", "Show from a front-facing view. ");
      ("back", "Show from behind/back view. ");
      ("side", "Show from a side profile view. ");
      ("top_down", "Show from a top-down/bird's eye view. ");
      ("isometric", "Show in isometric perspective (45-degree angle). ") ].

(** [viewpointDescriptions[viewpoint] || ''], as appended to a string. *)
Definition viewpointClause (viewpoint : option string) : string :=
  match getProperty viewpointDescriptions viewpoint with
  | Own text => text
  | Inherited k => inheritedToString k
  | Undefined => ""
  end.

Definition dimensionsClause (aspectRatio : option string) : string :=
  let d := getImageDimensions aspectRatio in
  "The image should be " +:+ showNumber (widthOf d) +:+ "x" +:+
  showNumber (heightOf d) +:+ " pixels (" +:+ interpolate aspectRatio +:+
  " aspect ratio). ".

Definition colorsClause (colors : list string) : string :=
  "Use these colors prominently in the design: " +:+ join ", " colors +:+ ". ".

Definition sizeHint (dimensions : string) : string :=
  "The sprite should be designed to look good at " +:+ dimensions +:+
  " pixel dimensions. ".

Definition qualitySuffix : string := " High quality, detailed, game-ready asset.".

(** The type context: the pieces appended by the [if (type === 'sprite')]
    statement.  [wantsPartialCharacter] is only evaluated when
    [spriteType !== 'object']. *)
Definition typeContext (params : Params) : Completion (list string) :=
  if strictEq (type params) "sprite" then
    let entityType := if strictEq (spriteType params) "object" then "object/item" else "character" in
    let intro := [spriteIntro entityType; spriteBackground] in
    if negb (strictEq (spriteType params) "object") then
      andThen (wantsPartialCharacter (prompt params)) (fun partialCharacter =>
        Normal (if negb partialCharacter then (intro ++ [fullBodyClause])%list else intro))
    else Normal intro
  else
    let envType := if strictEq (sceneType params) "indoor" then "indoor" else "outdoor" in
    Normal [sceneIntro envType].

(** The operands of the successive [fullPrompt += ...] statements of
    [buildPrompt], in order. *)
Definition buildPromptPieces (params : Params) : Completion (list string) :=
  let stylePiece := if strictEq (style params) "pixel_art" then pixelArtPrefix else flatPrefix in
  andThen (typeContext params) (fun typePieces =>
    let colorPieces :=
      match colors params with
      | Some (c :: cs) => [colorsClause (c :: cs)]
      | _ => []
      end in
    let hintPieces :=
      if truthy (dimensions params) && strictEq (type params) "sprite"
      then [sizeHint (interpolate (dimensions params))] else [] in
    Normal ([stylePiece] ++ typePieces ++
            [viewpointClause (viewpoint params); dimensionsClause (aspectRatio params)] ++
            colorPieces ++ hintPieces ++
            [interpolate (prompt params); qualitySuffix])%list).

(** [buildPrompt(params)]: the pieces, concatenated. *)
Definition buildPrompt (params : Params) : Completion string :=
  andThen (buildPromptPieces params) (fun pieces => Normal (join "" pieces)).

End Prompt.
Export Prompt.

(** ** The network: requests, responses and asynchronous computations *)
Module Net.

(** [prediction.output]: a string, an array of strings, or nothing
    ([undefined] or [null]). *)
Inductive Output : Type :=
| OutString (s : string)
| OutArray (items : list string)
| OutAbsent.

(** The JSON document of a prediction, as far as the services read it. *)
Record Prediction : Type := {
  id : option string;
  status : option string;
  urls_get : option string;
  output : Output;
  error : option string
}.

(** A JSON object with none of these fields. *)
Definition emptyPrediction : Prediction :=
  {| id := None; status := None; urls_get := None; output := OutAbsent; error := None |}.

(** One entry of [candidates[0].content.parts] in a Gemini answer. *)
Inductive Part : Type :=
| TextPart
| InlineData (mimeType : option string) (data : option string).

(** The body of a response as [json()] reads it; for a body that is not
    JSON, the message of the [SyntaxError] the parser raises. *)
Inductive Json : Type :=
| JPrediction (p : Prediction)
| JGemini (parts : option (list Part))
| JUnparsable (message : string).

(** An HTTP response: [ok], [status], the [content-type] header, the body as
    [json()] parses it, the text [JSON.stringify] gives for that parsed body,
    and the base64 text of the body bytes. *)
Record Response : Type := {
  ok : bool;
  statusCode : Z;
  contentType : option string;
  json : Json;
  jsonText : string;
  base64 : string
}.

(** The [input] objects handed to provider models.  Constant fields are
    named in the comments of the functions that build them. *)
Inductive Input : Type :=
| RefineInput (prompt system_instruction : string)
| QwenInput (prompt : option string) (image : string)
| RdPlusInput (prompt : option string) (width height : option Z)
    (num_images : option Z) (style : string) (remove_bg tile_x tile_y : bool)
    (input_image : option string)
| RdAnimationInput (prompt : option string) (style : string) (width height : Z)
    (return_spritesheet bypass_prompt_expansion : bool) (seed : option Z)
    (input_image : option string)
| FrameInput (prompt : string) (image : option string)
| SheetInput (prompt : string) (style : string) (width height : Z)
    (input_image : option string) (seed : Z).

(** The requests the services send.  A prediction is created by a POST with
    the header [Authorization: Token <apiToken>], optionally [Prefer: wait],
    and the body [{ version, input }] ([version] left out when undefined); it
    is polled by a GET with the same authorization.  A Gemini call is a POST
    of one text part and the [inlineData] parts (mime type and data). *)
Inductive Request : Type :=
| CreatePrediction (url apiToken : string) (preferWait : bool)
    (version : option string) (input : Input)
| PollPrediction (url apiToken : string)
| GeminiGenerate (apiKey text : string) (inlineData : list (string * string))
| Download (url : string).

(** The URL a request is addressed to. *)
Definition geminiUrl (apiKey : string) : string :=
  "https://generativelanguage.googleapis.com/v1beta/models/gemini-2.0-flash-exp-image-generation:generateContent?key=" +:+ apiKey.

Definition requestUrl (req : Request) : string :=
  match req with
  | CreatePrediction url _ _ _ _ => url
  | PollPrediction url _ => url
  | GeminiGenerate apiKey _ _ => geminiUrl apiKey
  | Download url => url
  end.

(** What happens to one call of [fetch]: a response arrives; or the request
    is sent and the promise is rejected; or [fetch] rejects the call before
    anything is sent, because its argument does not parse as a URL.  Whether
    a URL parses is decided by the URL alone: a world that answers a call
    whose URL does not parse, or rejects one whose URL parses, describes no
    run of the program. *)
Inductive Arrival : Type :=
| Arrives (r : Response)
| NetworkError (message : string)
| RejectedUrl.

(** The message of the [TypeError] of [fetch] for an argument that is not a
    URL. *)
Definition failedToParseUrlFrom (url : string) : string :=
  "Failed to parse URL from " +:+ url.

Record World : Type := {
  incoming : list Arrival;
  sent : list Request
}.

Inductive Outcome (A : Type) : Type :=
| Returned (a : A) (w : World)
| Thrown (message : string) (w : World)
| Pending (w : World).
Arguments Returned {A} a w.
Arguments Thrown {A} message w.
Arguments Pending {A} w.

Definition Async (A : Type) : Type := World -> Outcome A.

Definition ret {A} (a : A) : Async A := fun w => Returned a w.

Definition throw {A} (message : string) : Async A := fun w => Thrown message w.

Definition bind {A B} (c : Async A) (k : A -> Async B) : Async B :=
  fun w =>
    match c w with
    | Returned a w' => k a w'
    | Thrown m w' => Thrown m w'
    | Pending w' => Pending w'
    end.

(** [try { body } catch (error) { handler(error.message) }] *)
Definition tryCatch {A} (body : Async A) (handler : string -> Async A) : Async A :=
  fun w =>
    match body w with
    | Thrown m w' => handler m w'
    | o => o
    end.

Definition lift {A} (c : Completion A) : Async A :=
  match c with
  | Normal a => ret a
  | Abrupt m => throw m
  end.

(** [await fetch(...)]: the request is sent, and the next arrival answers
    it; a call that is rejected for its URL sends nothing. *)
Definition fetch (req : Request) : Async Response :=
  fun w =>
    let sent' := (sent w ++ [req])%list in
    match incoming w with
    | [] => Pending {| incoming := []; sent := sent' |}
    | Arrives r :: rest => Returned r {| incoming := rest; sent := sent' |}
    | NetworkError m :: rest => Thrown m {| incoming := rest; sent := sent' |}
    | RejectedUrl :: rest =>
        Thrown (failedToParseUrlFrom (requestUrl req)) {| incoming := rest; sent := sent w |}
    end.

Definition worldOf {A} (o : Outcome A) : World :=
  match o with
  | Returned _ w | Thrown _ w | Pending w => w
  end.

Declare Scope async_scope.
Delimit Scope async_scope with async.
Notation "x <- c ;; k" := (bind c (fun x => k))
  (at level 100, c at next level, right associativity) : async_scope.

(** [await response.json()], read as a prediction. *)
Definition jsonPrediction (r : Response) : Async Prediction :=
  match json r with
  | JPrediction p => ret p
  | JGemini _ => ret emptyPrediction
  | JUnparsable message => throw message
  end.

(** [await response.json()], read as a Gemini answer: the parts of the first
    candidate, when [data.candidates && data.candidates[0]?.content?.parts]
    holds. *)
Definition jsonGemini (r : Response) : Async (option (list Part)) :=
  match json r with
  | JGemini parts => ret parts
  | JPrediction _ => ret None
  | JUnparsable message => throw message
  end.

(** [JSON.stringify(await response.json().catch(() => ({})))] *)
Definition errorText (r : Response) : string :=
  match json r with
  | JUnparsable _ => "{}"
  | _ => jsonText r
  end.

End Net.
Export Net.

(** ** The polling provider gateway of [generation.service.js] *)
Module Gateway.

Local Open Scope async_scope.

Definition predictionsUrl : string := "https://api.replicate.com/v1/predictions".

Definition modelPredictionsUrl (model : string) : string :=
  "https://api.replicate.com/v1/models/" +:+ model +:+ "/predictions".

(** [model.split(':')[1]] *)
Definition versionAfterColon (model : string) : option string :=
  split ":" model !! 1%nat.

(** The first POST of [callReplicate], whose response is not read:
    [version: model.includes(':') ? model.split(':')[1] : undefined]. *)
Definition firstRequest (apiToken model : string) (input : Input) : Request :=
  CreatePrediction predictionsUrl apiToken false
    (if includes model ":" then versionAfterColon model else None) input.

(** The POST that starts the prediction [callReplicate] then follows: the
    [url] and [body] chosen by the [if (model.includes('/'))] cascade. *)
Definition startRequest (apiToken model : string) (input : Input) : Request :=
  if includes model "/" then
    CreatePrediction (modelPredictionsUrl model) apiToken true None input
  else if includes model ":" then
    CreatePrediction predictionsUrl apiToken true (versionAfterColon model) input
  else
    CreatePrediction predictionsUrl apiToken true (Some model) input.

(** The loop condition is [status !== 'succeeded' && status !== 'failed']. *)
Definition terminal (p : Prediction) : bool :=
  strictEq (status p) "succeeded" || strictEq (status p) "failed".

(** [prediction.urls?.get || `https://api.replicate.com/v1/predictions/${prediction.id}`] *)
Definition pollUrl (p : Prediction) : string :=
  orElse (urls_get p) (predictionsUrl +:+ "/" +:+ interpolate (id p)).

(** The [while] loop of [callReplicate], of [callReplicateAnimation] and of
    [generateAnimationWithReplicate], which differ only in the URL they poll
    ([urlOf]).  Every iteration awaits one response, so [fuel] above the
    number of responses still to arrive is never used up (see [poll]). *)
Fixpoint pollLoop (fuel : nat) (urlOf : Prediction -> string) (apiToken : string)
    (prediction : Prediction) : Async Prediction :=
  if terminal prediction then ret prediction
  else
    match fuel with
    | O => Pending
    | S fuel' =>
        pollResponse <- fetch (PollPrediction (urlOf prediction) apiToken) ;;
        prediction' <- jsonPrediction pollResponse ;;
        pollLoop fuel' urlOf apiToken prediction'
    end.

Definition poll (urlOf : Prediction -> string) (apiToken : string)
    (prediction : Prediction) : Async Prediction :=
  fun w => pollLoop (S (length (incoming w))) urlOf apiToken prediction w.

Definition replicateApiError (r : Response) : string :=
  "Replicate API error: " +:+ showNumber (Some (statusCode r)) +:+ " - " +:+ errorText r.

(** The tail shared by [callReplicate] and [callReplicateAnimation], from the
    [if (!response.ok)] test on; [failureText] is the generic message used
    when the failed prediction has no [error]. *)
Definition awaitPrediction (apiToken failureText : string) (startResponse : Response)
  : Async Output :=
  if negb (ok startResponse) then throw (replicateApiError startResponse)
  else
    prediction <- jsonPrediction startResponse ;;
    prediction <- poll pollUrl apiToken prediction ;;
    if strictEq (status prediction) "failed"
    then throw (orElse (error prediction) failureText)
    else ret (output prediction).

Definition callReplicate (apiToken model : string) (input : Input) : Async Output :=
  createResponse <- fetch (firstRequest apiToken model input) ;;
  startForRealResponse <- fetch (startRequest apiToken model input) ;;
  awaitPrediction apiToken "Replicate generation failed" startForRealResponse.

End Gateway.
Export Gateway.

(** ** Prompt refinement and image generation of [generation.service.js] *)
Module Orchestrator.

Local Open Scope async_scope.

Definition nl : string := String (ascii_of_nat 10) EmptyString.
Definition dquote : string := String (ascii_of_nat 34) EmptyString.
Definition lines (ls : list string) : string := join nl ls.

Definition styleDescription (context : Params) : string :=
  if strictEq (style context) "pixel_art"
  then "Pixel Art style with clear pixel boundaries, limited color palette, retro game aesthetic, sharp pixelated edges"
  else "2D flat vector style with clean lines, solid colors, modern appearance".

Definition fullBodyInstruction (isPartialCharacter : bool) : string :=
  if isPartialCharacter then ""
  else lines
    [ "";
      "    CRITICAL CHARACTER REQUIREMENT:";
      "    - ALWAYS generate FULL-BODY characters showing the ENTIRE figure from head to feet";
      "    - Characters must be fully standing/visible, NOT cropped at chest, waist, or knees";
      "    - Include the character's full legs and feet in the frame";
      "    - The character should be centered and complete within the image bounds";
      "    - Do NOT generate half-body, bust, portrait, or cropped character images" ].

(** [context.type === 'sprite' ? (context.spriteType || 'character')
                               : (context.sceneType || 'environment')] *)
Definition subType (context : Params) : string :=
  if strictEq (type context) "sprite" then orElse (spriteType context) "character"
  else orElse (sceneType context) "environment".

Definition systemInstruction (context : Params) (isPartialCharacter : bool) : string :=
  lines
    [ "You are an expert prompt engineer for game asset generation (sprites and scenes).";
      "Your task is to ENHANCE the user's request into a detailed, technical prompt optimized for image generation.";
      "";
      "IMPORTANT RULES:";
      "1. PRESERVE THE ORIGINAL STYLE - Do not change the core artistic style the user requested";
      "2. Keep the same art direction (" +:+ styleDescription context +:+ ")";
      "3. Only add technical details that enhance quality without changing the fundamental look";
      "4. Do not add realistic elements to pixel art or stylized requests";
      "5. Maintain the game-ready aesthetic appropriate for 2D game assets";
      fullBodyInstruction isPartialCharacter;
      "";
      "Context:";
      "- Type: " +:+ interpolate (type context);
      "- SubType: " +:+ subType context;
      "- Style: " +:+ interpolate (style context) +:+ " (DO NOT CHANGE THIS)";
      "- Viewpoint: " +:+ interpolate (viewpoint context);
      "- Aspect Ratio: " +:+ interpolate (aspectRatio context);
      "";
      "Output ONLY the enhanced prompt string. No explanations, no markdown, no commentary." ].

Definition fullBodyPromptAddition (isPartialCharacter : bool) : string :=
  if isPartialCharacter then ""
  else " The character must be FULL-BODY showing head to feet, completely visible and not cropped.".

Definition refinementPrompt (userPrompt : string) (context : Params)
    (isPartialCharacter : bool) : string :=
  lines
    [ "Enhance this prompt for game asset generation: " +:+ dquote +:+ userPrompt +:+ dquote +:+ fullBodyPromptAddition isPartialCharacter;
      "";
      "Requirements:";
      "- Keep the " +:+ (if strictEq (style context) "pixel_art" then "pixel art" else "2D flat") +:+ " style intact";
      "- Add details about lighting, texture, and composition";
      "- Ensure the output is suitable for a " +:+ interpolate (type context) +:+ " game asset";
      "- Do NOT make it realistic or change the artistic style" ].

(** The [input] of the refinement call; its [max_output_tokens: 1024],
    [temperature: 0.5] and [top_p: 0.9] are constants. *)
Definition refinementInput (userPrompt : option string) (context : Params)
    (isPartialCharacter : bool) : Input :=
  RefineInput (refinementPrompt (interpolate userPrompt) context isPartialCharacter)
              (systemInstruction context isPartialCharacter).

Definition refinementModel : string := "google/gemini-2.5-flash".

(** [Array.isArray(output) ? output.join('') : output] *)
Definition joinedOutput (output : Output) : option string :=
  match output with
  | OutArray items => Some (join "" items)
  | OutString s => Some s
  | OutAbsent => None
  end.

(** [result || userPrompt] *)
Definition resultOrPrompt (result userPrompt : option string) : option string :=
  if truthy result then result else userPrompt.

(** [refinePromptWithIntelligence(userPrompt, context, apiToken)].  The marker
    check on [userPrompt] comes before the [try]; the call to the text model
    is inside it, and the [catch] block returns [buildPrompt(context)]. *)
Definition refinePromptWithIntelligence (userPrompt : option string)
    (context : Params) (apiToken : string) : Async (option string) :=
  isPartialCharacter <- lift (wantsPartialCharacter userPrompt) ;;
  let input := refinementInput userPrompt context isPartialCharacter in
  tryCatch
    (output <- callReplicate apiToken refinementModel input ;;
     let result := joinedOutput output in
     ret (resultOrPrompt result userPrompt))
    (fun e =>
       fallback <- lift (buildPrompt context) ;;
       ret (Some fallback)).

Definition failedToParseUrl : string := failedToParseUrlFrom "undefined".

(** [`data:${mime};base64,${base64}`] *)
Definition dataUrlOf (mime base64 : string) : string :=
  "data:" +:+ mime +:+ ";base64," +:+ base64.

(** One iteration of the [for (const url of ...)] loops: fetch the image and
    build its data URL, with [fallbackMime] when the response has no content
    type. *)
Definition fetchImage (url fallbackMime : string) : Async string :=
  imageResponse <- fetch (Download url) ;;
  let mime := orElse (contentType imageResponse) fallbackMime in
  ret (dataUrlOf mime (base64 imageResponse)).

Fixpoint fetchImages (urls : list string) (fallbackMime : string)
    (images : list string) : Async (list string) :=
  match urls with
  | [] => ret images
  | url :: urls' =>
      image <- fetchImage url fallbackMime ;;
      fetchImages urls' fallbackMime (images ++ [image])%list
  end.

(** [Array.isArray(output) ? output : [output]], then the download loop.  An
    absent output gives the one-element array [[undefined]], whose download
    raises without sending anything. *)
Definition fetchOutputs (output : Output) (fallbackMime : string)
    (images : list string) : Async (list string) :=
  match output with
  | OutArray urls => fetchImages urls fallbackMime images
  | OutString url => fetchImages [url] fallbackMime images
  | OutAbsent => throw failedToParseUrl
  end.

Definition qwenModel : string := "qwen/qwen-image-edit-plus".

(** [generateWithQwen]; the input also has the constants
    [aspect_ratio: "match_input_image"], [output_format: "webp"],
    [output_quality: 95], [go_fast: true], [disable_safety_checker: true]. *)
Definition generateWithQwen (refinedPrompt : option string) (poseImage : string)
    (context : Params) (apiToken : string) : Async Output :=
  callReplicate apiToken qwenModel (QwenInput refinedPrompt poseImage).

(** [Number(s)] on the numerals this reading covers: a run of decimal digits
    (the empty string is 0), exact below 2^53.  Any other text is read as
    [NaN] ([None]); numerals written with blanks, a sign, a fraction, an
    exponent or a radix prefix are outside this reading, which is used for
    the pieces of an explicit [dimensions] string only. *)
Fixpoint digitsValue (acc : Z) (s : string) : option Z :=
  match s with
  | EmptyString => Some acc
  | String c s' =>
      let n := nat_of_ascii c in
      if ((48 <=? n) && (n <=? 57))%nat
      then digitsValue (10 * acc + Z.of_nat (n - 48)) s'
      else None
  end.

Definition Number (s : string) : option Z := digitsValue 0 s.

(** [Math.round(a / b)] for positive [b]. *)
Definition roundDiv (a b : Z) : Z := (2 * a + b) / (2 * b).

(** The [width] and [height] of the standard model's input ([None] is
    [NaN]). *)
Definition targetSize (params : Params) : option Z * option Z :=
  if truthy (dimensions params) then
    match split "x" (interpolate (dimensions params)) with
    | w :: h :: _ =>
        match Number w, Number h with
        | Some w, Some h => (Some w, Some h)
        | _, _ => (Some 128, Some 128)
        end
    | _ => (Some 128, Some 128)
    end
  else if truthy (aspectRatio params) then
    match getImageDimensions (aspectRatio params) with
    | Own dims =>
        let largest := Z.max (width dims) (height dims) in
        (Some (roundDiv (width dims * 384) largest),
         Some (roundDiv (height dims * 384) largest))
    | _ => (None, None)
    end
  else (Some 128, Some 128).

Definition orFalse (b : option bool) : bool :=
  match b with Some b => b | None => false end.

Definition standardModel : string := "retro-diffusion/rd-plus".

Definition standardInput (params : Params) (finalPrompt : option string) : Input :=
  let '(width, height) := targetSize params in
  RdPlusInput finalPrompt width height (quantity params)
    (orElse (style params) "default")
    (orFalse (removeBg params)) (orFalse (tileX params)) (orFalse (tileY params))
    (if truthy (referenceImage params) then referenceImage params else None).

(** The result object of [generateImages] and [generateDirectAnimation]. *)
Record GenerationResult : Type := {
  success : bool;
  images : list string;
  error : option string;
  provider : option string
}.

Definition failure (message provider : string) : GenerationResult :=
  {| success := false; images := []; error := Some message; provider := Some provider |}.

Definition generateWithReplicate (params : Params) (apiToken : string)
    (modelId : option string) : Async GenerationResult :=
  tryCatch
    (finalPrompt <- refinePromptWithIntelligence (prompt params) params apiToken ;;
     images <-
       (if truthy (poseImage params) then
          qwenOutputs <- generateWithQwen finalPrompt (interpolate (poseImage params)) params apiToken ;;
          fetchOutputs qwenOutputs "image/webp" []
        else
          output <- callReplicate apiToken standardModel (standardInput params finalPrompt) ;;
          fetchOutputs output "image/png" []) ;;
     match images with
     | [] => throw "No images generated"
     | _ => ret {| success := true; images := images; error := None;
                   provider := Some "replicate" |}
     end)
    (fun message => ret (failure message "replicate")).

End Orchestrator.
Export Orchestrator.

(** ** The Gemini path, the selection policy and the animation flows *)
Module Flows.

Local Open Scope async_scope.

(** The platform configuration read from [process.env]. *)
Record Env : Type := {
  REPLICATE_API_TOKEN : option string;
  REPLICATE_MODEL_ID : option string;
  GEMINI_API_KEY : option string
}.

(** The [options] argument of the exported generation functions. *)
Record Options : Type := {
  apiKey : option string;
  optProvider : option string;
  useOwnKey : bool
}.

Fixpoint takeWhile (keep : ascii -> bool) (s : string) : string :=
  match s with
  | EmptyString => EmptyString
  | String c s' => if keep c then String c (takeWhile keep s') else EmptyString
  end.

Fixpoint dropWhile (keep : ascii -> bool) (s : string) : string :=
  match s with
  | EmptyString => EmptyString
  | String c s' => if keep c then dropWhile keep s' else s
  end.

Fixpoint dropChars (n : nat) (s : string) : string :=
  match n, s with
  | S n', String _ s' => dropChars n' s'
  | _, _ => s
  end.

Definition notSemicolon (c : ascii) : bool := negb (Ascii.eqb c ";").

Definition notLineEnd (c : ascii) : bool :=
  negb (Ascii.eqb c (ascii_of_nat 10) || Ascii.eqb c (ascii_of_nat 13)).

(** A match of [/data:([^;]+);base64,(.+)/] starting at the head of [s]. *)
Definition matchDataUrlHere (s : string) : option (string * string) :=
  if String.prefix "data:" s then
    let afterScheme := dropChars 5 s in
    let mime := takeWhile notSemicolon afterScheme in
    let afterMime := dropWhile notSemicolon afterScheme in
    if negb (String.eqb mime "") && String.prefix ";base64," afterMime then
      let data := takeWhile notLineEnd (dropChars 8 afterMime) in
      if String.eqb data "" then None else Some (mime, data)
    else None
  else None.

(** [s.match(/data:([^;]+);base64,(.+)/)]: the leftmost match, as the pair of
    its two groups. *)
Fixpoint matchDataUrl (s : string) : option (string * string) :=
  match matchDataUrlHere s with
  | Some groups => Some groups
  | None =>
      match s with
      | EmptyString => None
      | String _ s' => matchDataUrl s'
      end
  end.

(** The [inlineData] part pushed for an image given as a data URL:
    [image && image.startsWith('data:')] and the pattern matches. *)
Definition inlinePart (image : option string) : list (string * string) :=
  match image with
  | Some image =>
      if negb (String.eqb image "") && startsWith image "data:" then
        match matchDataUrl image with
        | Some groups => [groups]
        | None => []
        end
      else []
  | None => []
  end.

Definition isImagePart (part : Part) : bool :=
  match part with
  | InlineData (Some mimeType) _ => startsWith mimeType "image/"
  | _ => false
  end.

(** The data URL of the first part whose [inlineData.mimeType] starts with
    [image/], if the answer has parts and one of them is an image. *)
Definition firstImage (parts : option (list Part)) : option string :=
  match parts with
  | Some parts =>
      match List.find isImagePart parts with
      | Some (InlineData mimeType data) =>
          Some ("data:" +:+ interpolate mimeType +:+ ";base64," +:+ interpolate data)
      | _ => None
      end
  | None => None
  end.

Definition variationText (i : Z) : string :=
  if 0 <? i
  then " Variation " +:+ showNumber (Some (i + 1)) +:+ ", slightly different from previous versions."
  else "".

Definition geminiApiError (r : Response) : string :=
  "Gemini API error: " +:+ showNumber (Some (statusCode r)) +:+ " - " +:+ errorText r.

(** The [for (let i = 0; i < params.quantity; i++)] loop of
    [generateWithGemini], with [remaining] iterations to go. *)
Fixpoint geminiLoop (remaining : nat) (i : Z) (params : Params) (apiKey fullPrompt : string)
    (images : list string) : Async (list string) :=
  match remaining with
  | O => ret images
  | S remaining' =>
      response <- fetch (GeminiGenerate apiKey (fullPrompt +:+ variationText i)
                           (inlinePart (referenceImage params) ++ inlinePart (poseImage params))%list) ;;
      if negb (ok response) then throw (geminiApiError response)
      else
        data <- jsonGemini response ;;
        let images' :=
          match firstImage data with
          | Some image => (images ++ [image])%list
          | None => images
          end in
        geminiLoop remaining' (i + 1) params apiKey fullPrompt images'
  end.

(** The number of iterations of [for (let i = 0; i < n; i++)]; [i < undefined]
    is false. *)
Definition iterations (n : option Z) : nat :=
  match n with
  | Some n => Z.to_nat n
  | None => O
  end.

Definition generateWithGemini (params : Params) (apiKey : string) : Async GenerationResult :=
  tryCatch
    (fullPrompt <- lift (buildPrompt params) ;;
     images <- geminiLoop (iterations (quantity params)) 0 params apiKey fullPrompt [] ;;
     match images with
     | [] => throw "No images generated"
     | _ => ret {| success := true; images := images; error := None;
                   provider := Some "gemini" |}
     end)
    (fun message => ret (failure message "gemini")).

Definition geminiPlaceholder : string := "your_gemini_api_key_here".

Definition noApiKeyConfigured : string :=
  "No API key configured. Please add your own API key in settings or contact support.".

Definition generateImages (params : Params) (options : Options) (env : Env)
  : Async GenerationResult :=
  if useOwnKey options && truthy (apiKey options) then
    if strictEq (optProvider options) "gemini"
    then generateWithGemini params (interpolate (apiKey options))
    else generateWithReplicate params (interpolate (apiKey options)) None
  else if truthy (REPLICATE_API_TOKEN env) then
    generateWithReplicate params (interpolate (REPLICATE_API_TOKEN env)) (REPLICATE_MODEL_ID env)
  else if truthy (GEMINI_API_KEY env) && negb (strictEq (GEMINI_API_KEY env) geminiPlaceholder) then
    generateWithGemini params (interpolate (GEMINI_API_KEY env))
  else
    ret {| success := false; images := []; error := Some noApiKeyConfigured;
           provider := None |}.

End Flows.
Export Flows.

(** ** Frame-by-frame and direct animation of [generation.service.js] *)
Module Animation.

Local Open Scope async_scope.

(** The [params] of the animation functions; like every other field,
    [frameDescriptions] may be absent. *)
Record AnimationParams : Type := {
  characterImage : option string;
  viewType : option string;
  direction : option string;
  animationType : option string;
  frameDescriptions : option (list string)
}.

(** The message of the [TypeError] raised by [undefined.length]. *)
Definition undefinedLength : string :=
  "Cannot read properties of undefined (reading 'length')".

(** The message of the [TypeError] raised by [undefined[i]]. *)
Definition undefinedIndex (i : nat) : string :=
  "Cannot read properties of undefined (reading '" +:+ showNumber (Some (Z.of_nat i)) +:+ "')".

(** [params.frameDescriptions.length] *)
Definition descriptionCount (params : AnimationParams) : Completion nat :=
  match frameDescriptions params with
  | Some descriptions => Normal (length descriptions)
  | None => Abrupt undefinedLength
  end.

Definition viewDescriptions : gmap string string :=
  list_to_map
    [ ("side", "Maintain the side-scrolling 2D view. ");
      ("isometric", "Maintain the isometric 45-degree angle view. ");
      ("top_down", "Maintain the top-down bird's eye view. ") ].

Definition directionDescriptions : gmap string string :=
  list_to_map
    [ ("right", "Character should be facing right. ");
      ("left", "Character should be facing left. ");
      ("up", "Character should be facing up/away. ");
      ("down", "Character should be facing down/toward viewer. ");
      ("up_right", "Character should be facing diagonally up-right. ");
      ("up_left", "Character should be facing diagonally up-left. ");
      ("down_right", "Character should be facing diagonally down-right. ");
      ("down_left", "Character should be facing diagonally down-left. ") ].

(** [table[key] || fallback], as appended to a string. *)
Definition describe (table : gmap string string) (key : option string)
    (fallback : string) : string :=
  match getProperty table key with
  | Own text => text
  | Inherited k => inheritedToString k
  | Undefined => fallback
  end.

(** The text [buildAnimationFramePrompt] builds when [frameDescriptions] is
    the array [descriptions]. *)
Definition framePromptText (params : AnimationParams) (descriptions : list string)
    (frameIndex : nat) (totalFrames : nat) : string :=
  "You are given a reference image of a game character sprite. " +:+
  "Generate a new frame showing this EXACT same character in a different pose for animation. " +:+
  "CRITICAL: The character must look IDENTICAL - same art style, same colors, same outfit, same proportions. " +:+
  "Only the pose/position changes. " +:+
  (nl +:+ nl +:+ "This is frame " +:+ showNumber (Some (Z.of_nat frameIndex + 1)) +:+
   " of " +:+ showNumber (Some (Z.of_nat totalFrames)) +:+ " for a " +:+ dquote +:+
   interpolate (animationType params) +:+ dquote +:+ " animation sequence. ") +:+
  describe viewDescriptions (viewType params) "Maintain the isometric 45-degree angle view. " +:+
  describe directionDescriptions (direction params) "Character should be facing right. " +:+
  (match descriptions !! frameIndex with
   | Some description =>
       if String.eqb description "" then ""
       else nl +:+ nl +:+ "POSE FOR THIS FRAME: " +:+ description +:+ ". "
   | None => ""
   end) +:+
  (nl +:+ nl +:+ "IMPORTANT: Keep EXACT same character design, colors, art style. Single character, centered, transparent background. ").

(** [buildAnimationFramePrompt(params, frameIndex, totalFrames)]; the only
    statement that can raise is [frameDescriptions[frameIndex]]. *)
Definition buildAnimationFramePrompt (params : AnimationParams) (frameIndex : nat)
    (totalFrames : nat) : Completion string :=
  match frameDescriptions params with
  | Some descriptions => Normal (framePromptText params descriptions frameIndex totalFrames)
  | None => Abrupt (undefinedIndex frameIndex)
  end.

(** The result object of [generateAnimationFrames]. *)
Record FramesResult : Type := {
  framesSuccess : bool;
  frames : list string;
  framesError : option string;
  framesProvider : option string
}.

Definition framesFailure (message provider : string) : FramesResult :=
  {| framesSuccess := false; frames := []; framesError := Some message;
     framesProvider := Some provider |}.

(** [model?.includes(':') ? model.split(':')[1] : model] *)
Definition frameVersion (model : option string) : option string :=
  match model with
  | Some m => if includes m ":" then versionAfterColon m else Some m
  | None => None
  end.

Definition framePollUrl (p : Prediction) : string :=
  predictionsUrl +:+ "/" +:+ interpolate (id p).

Definition frameNumber (i : nat) : string := showNumber (Some (Z.of_nat i + 1)).

(** The frame pushed for a succeeded prediction: [if (result.output)] with a
    non-empty array takes its first element and downloads it. *)
Definition frameOutputUrl (output : Output) : option string :=
  match output with
  | OutArray (url :: _) => Some url
  | OutArray [] => None
  | OutString url => if String.eqb url "" then None else Some url
  | OutAbsent => None
  end.

(** The [for (let i = 0; i < totalFrames; i++)] loop of
    [generateAnimationWithReplicate], at index [i] with [remaining] frames to
    go.  The input also has the constants [width: 512] and [height: 512]. *)
Fixpoint replicateFrames (remaining i totalFrames : nat) (params : AnimationParams)
    (apiToken : string) (model : option string) (frames : list string)
  : Async (list string) :=
  match remaining with
  | O => ret frames
  | S remaining' =>
      framePrompt <- lift (buildAnimationFramePrompt params i totalFrames) ;;
      createResponse <- fetch (CreatePrediction predictionsUrl apiToken false
                                 (frameVersion model)
                                 (FrameInput framePrompt (characterImage params))) ;;
      if negb (ok createResponse)
      then throw ("Replicate API error: " +:+ showNumber (Some (statusCode createResponse)))
      else
        result <- jsonPrediction createResponse ;;
        result <- poll framePollUrl apiToken result ;;
        if strictEq (status result) "failed"
        then throw ("Frame " +:+ frameNumber i +:+ " generation failed")
        else
          frames' <-
            match frameOutputUrl (output result) with
            | Some imageUrl =>
                imageResponse <- fetch (Download imageUrl) ;;
                ret (frames ++ ["data:image/png;base64," +:+ base64 imageResponse])%list
            | None => ret frames
            end ;;
          replicateFrames remaining' (S i) totalFrames params apiToken model frames'
  end.

(** [modelId || process.env.REPLICATE_MODEL_ID] *)
Definition frameModel (modelId : option string) (env : Env) : option string :=
  if truthy modelId then modelId
  else REPLICATE_MODEL_ID env.

Definition generateAnimationWithReplicate (params : AnimationParams) (apiToken : string)
    (modelId : option string) (env : Env) : Async FramesResult :=
  tryCatch
    (totalFrames <- lift (descriptionCount params) ;;
     let model := frameModel modelId env in
     frames <- replicateFrames totalFrames 0 totalFrames params apiToken model [] ;;
     ret {| framesSuccess := true; frames := frames; framesError := None;
            framesProvider := Some "replicate" |})
    (fun message => ret (framesFailure message "replicate")).

(** The loop of [generateAnimationWithGemini]. *)
Fixpoint geminiFrames (remaining i totalFrames : nat) (params : AnimationParams)
    (apiKey : string) (characterImageData : string * string) (frames : list string)
  : Async (list string) :=
  match remaining with
  | O => ret frames
  | S remaining' =>
      framePrompt <- lift (buildAnimationFramePrompt params i totalFrames) ;;
      response <- fetch (GeminiGenerate apiKey framePrompt [characterImageData]) ;;
      if negb (ok response)
      then throw ("Failed to generate frame " +:+ frameNumber i +:+ ": " +:+
                  showNumber (Some (statusCode response)))
      else
        data <- jsonGemini response ;;
        match firstImage data with
        | Some frameImage =>
            geminiFrames remaining' (S i) totalFrames params apiKey characterImageData
              (frames ++ [frameImage])%list
        | None => throw ("No image generated for frame " +:+ frameNumber i)
        end
  end.

Definition generateAnimationWithGemini (params : AnimationParams) (apiKey : string)
  : Async FramesResult :=
  tryCatch
    (totalFrames <- lift (descriptionCount params) ;;
     match inlinePart (characterImage params) with
     | characterImageData :: _ =>
         frames <- geminiFrames totalFrames 0 totalFrames params apiKey characterImageData [] ;;
         ret {| framesSuccess := true; frames := frames; framesError := None;
                framesProvider := Some "gemini" |}
     | [] => throw "Invalid character image format"
     end)
    (fun message => ret (framesFailure message "gemini")).

Definition noApiKeyForFrames : string :=
  "No API key configured. Please add your own API key in settings.".

(** [generateAnimationFrames(params, options)].  Its first statement logs
    [params.frameDescriptions.length], outside any [try]: it raises when the
    descriptions are absent. *)
Definition generateAnimationFrames (params : AnimationParams) (options : Options)
    (env : Env) : Async FramesResult :=
  logged <- lift (descriptionCount params) ;;
  if useOwnKey options && truthy (apiKey options) then
    if strictEq (optProvider options) "gemini"
    then generateAnimationWithGemini params (interpolate (apiKey options))
    else generateAnimationWithReplicate params (interpolate (apiKey options)) None env
  else if truthy (REPLICATE_API_TOKEN env) then
    generateAnimationWithReplicate params (interpolate (REPLICATE_API_TOKEN env))
      (REPLICATE_MODEL_ID env) env
  else if truthy (GEMINI_API_KEY env) && negb (strictEq (GEMINI_API_KEY env) geminiPlaceholder) then
    generateAnimationWithGemini params (interpolate (GEMINI_API_KEY env))
  else
    ret {| framesSuccess := false; frames := []; framesError := Some noApiKeyForFrames;
           framesProvider := None |}.

(** The [params] of [generateDirectAnimation]. *)
Record DirectParams : Type := {
  directPrompt : option string;
  directStyle : option string;
  directWidth : option Z;
  directHeight : option Z;
  directQuantity : option Z;
  seed : option Z;
  input_image : option string;
  return_spritesheet : option bool;
  bypass_prompt_expansion : option bool
}.

(** [n || dflt] on a number or [undefined]. *)
Definition numberOr (n : option Z) (dflt : Z) : Z :=
  match n with
  | Some 0 | None => dflt
  | Some n => n
  end.

Definition boolOr (b : option bool) (dflt : bool) : bool :=
  match b with Some b => b | None => dflt end.

Definition animationModel : string := "retro-diffusion/rd-animation".

(** The mock [context] handed to the refinement stage; it has no [prompt]. *)
Definition directContext (params : DirectParams) : Params :=
  {| prompt := None; type := Some "sprite";
     style := Some (orElse (directStyle params) "pixel_art");
     viewpoint := Some "isometric"; colors := None; dimensions := None;
     aspectRatio := Some "1:1"; spriteType := Some "character"; sceneType := None;
     quantity := None; referenceImage := None; poseImage := None;
     removeBg := None; tileX := None; tileY := None |}.

Definition directPayload (params : DirectParams) (finalPrompt : option string) : Input :=
  RdAnimationInput finalPrompt
    (orElse (directStyle params) "four_angle_walking")
    (numberOr (directWidth params) 48) (numberOr (directHeight params) 48)
    (boolOr (return_spritesheet params) true)
    (boolOr (bypass_prompt_expansion params) false)
    (match seed params with Some 0 | None => None | Some s => Some s end)
    (if truthy (input_image params) then input_image params else None).

(** The [for (let i = 0; i < quantity; i++)] loop of
    [generateDirectAnimation]. *)
Fixpoint directLoop (remaining : nat) (params : DirectParams) (token : string)
    (finalPrompt : option string) (images : list string) : Async (list string) :=
  match remaining with
  | O => ret images
  | S remaining' =>
      output <- callReplicate token animationModel (directPayload params finalPrompt) ;;
      images' <- fetchOutputs output "image/png" images ;;
      directLoop remaining' params token finalPrompt images'
  end.

Definition generateDirectAnimation (params : DirectParams) (options : Options)
    (env : Env) : Async GenerationResult :=
  let token :=
    if negb (useOwnKey options) || negb (truthy (apiKey options))
    then REPLICATE_API_TOKEN env else apiKey options in
  if negb (truthy token) then
    ret {| success := false; images := []; error := Some "No API key configured.";
           provider := None |}
  else
    let token := interpolate token in
    tryCatch
      (finalPrompt <-
         (if negb (boolOr (bypass_prompt_expansion params) false)
          then refinePromptWithIntelligence (directPrompt params) (directContext params) token
          else ret (directPrompt params)) ;;
       let quantity := numberOr (directQuantity params) 1 in
       images <- directLoop (Z.to_nat quantity) params token finalPrompt [] ;;
       ret {| success := true; images := images; error := None;
              provider := Some "replicate" |})
      (fun message => ret (failure message "replicate")).

End Animation.
Export Animation.

(** ** [spritesheet.service.js] *)
Module Spritesheet.

Local Open Scope async_scope.

Record AnimationPreset : Type := {
  id : string;
  name : string;
  description : string;
  style : string;
  width : Z;
  height : Z;
  frameCount : Z;
  recommended : bool
}.

Definition ANIMATION_PRESETS : list AnimationPreset :=
  [ {| id := "four_angle_walking";
       name := "4-Direction Walking";
       description := "Consistent 4-direction, 4-frame walking animation for humanoid characters";
       style := "four_angle_walking";
       width := 48; height := 48; frameCount := 16; recommended := true |};
    {| id := "walking_and_idle";
       name := "Walking & Idle";
       description := "Consistent 4-direction walking and idle animations";
       style := "walking_and_idle";
       width := 48; height := 48; frameCount := 24; recommended := true |};
    {| id := "small_sprites";
       name := "Small Sprite Actions";
       description := "4-direction 32x32 sprites with various actions (walking, arm movement, looking, surprised, laying down)";
       style := "small_sprites";
       width := 32; height := 32; frameCount := 16; recommended := false |};
    {| id := "vfx";
       name := "Visual Effects";
       description := "Visual effects animations (24x24 to 96x96)";
       style := "vfx";
       width := 64; height := 64; frameCount := 8; recommended := false |} ].

(** [ANIMATION_PRESETS.find(p => p.id === id)]; an [undefined] id equals no
    preset id. *)
Definition getAnimationPreset (presetId : option string) : option AnimationPreset :=
  List.find (fun p => strictEq presetId (id p)) ANIMATION_PRESETS.

Definition getAnimationPresets : list AnimationPreset := ANIMATION_PRESETS.

Definition animationUrl : string :=
  "https://api.replicate.com/v1/models/retro-diffusion/rd-animation/predictions".

Definition callReplicateAnimation (apiToken : string) (input : Input) : Async Output :=
  startResponse <- fetch (CreatePrediction animationUrl apiToken true None input) ;;
  awaitPrediction apiToken "Animation generation failed" startResponse.

Record SheetParams : Type := {
  animationPresetId : option string;
  customWidth : option Z;
  customHeight : option Z;
  customPrompt : option string;
  characterImageUrl : option string
}.

Record SpritesheetResult : Type := {
  success : bool;
  spritesheetUrl : option string;
  resultFrameCount : Z;
  frameWidth : Z;
  frameHeight : Z;
  layout : string;
  error : option string
}.

Definition invalidPreset (presetId : option string) : string :=
  "Invalid animation preset: " +:+ interpolate presetId.

Definition sheetFailure (message : string) : SpritesheetResult :=
  {| success := false; spritesheetUrl := None; resultFrameCount := 0;
     frameWidth := 0; frameHeight := 0; layout := "horizontal";
     error := Some message |}.

(** [generateSpritesheet(params, apiToken)]; [seed] is the value
    [Math.floor(Math.random() * 1000000)] takes in the call.  The input also
    has the constant [return_spritesheet: true]. *)
Definition generateSpritesheet (params : SheetParams) (apiToken : string) (seed : Z)
  : Async SpritesheetResult :=
  tryCatch
    (match getAnimationPreset (animationPresetId params) with
     | None => throw (invalidPreset (animationPresetId params))
     | Some preset =>
         let width := numberOr (customWidth params) (width preset) in
         let height := numberOr (customHeight params) (height preset) in
         let prompt :=
           orElse (customPrompt params)
                  ("pixel art character sprite, " +:+ toLowerCase (name preset)) in
         let input := SheetInput prompt (style preset) width height
                        (characterImageUrl params) seed in
         output <- callReplicateAnimation apiToken input ;;
         spritesheetUrl <-
           match output with
           | OutArray items => ret (head items)
           | OutString url => ret (Some url)
           | OutAbsent => throw "Unexpected output format from rd-animation"
           end ;;
         let layout := if 8 <? frameCount preset then "grid" else "horizontal" in
         ret {| success := true; spritesheetUrl := spritesheetUrl;
                resultFrameCount := frameCount preset;
                frameWidth := width; frameHeight := height;
                layout := layout; error := None |}
     end)
    (fun message => ret (sheetFailure message)).

End Spritesheet.

(** ** [asset.service.js] over the Firestore [assets] collection *)
Module Assets.

(** The fields of a stored asset document that the service reads or
    writes. *)
Record AssetData : Type := {
  project_id : option string;
  user_id : string;
  name : option string;
  asset_type : string;
  file_type : string;
  blob_url : option string;
  metadata : gmap string string;
  status : string;
  created_at : Z;
  updated_at : Z
}.

(** [{ id: doc.id, ...doc.data() }] *)
Record Asset : Type := {
  id : string;
  data : AssetData
}.

(** [AssetService.findById(id, userId)]: the ownership test is guarded by
    [userId &&]. *)
Definition findById (id : string) (userId : option string)
    (assets : gmap string AssetData) : option Asset :=
  match assets !! id with
  | None => None
  | Some data =>
      if truthy userId && negb (strictEq userId (user_id data)) then None
      else Some {| id := id; data := data |}
  end.

(** The [updates] argument of [AssetService.update]; [None] is a field that
    is [undefined]. *)
Record Updates : Type := {
  newName : option (option string);
  newProjectId : option (option string);
  newMetadata : option (gmap string string)
}.

Definition applyUpdates (asset : AssetData) (updates : Updates) (now : Z) : AssetData :=
  {| project_id := match newProjectId updates with Some p => p | None => project_id asset end;
     user_id := user_id asset;
     name := match newName updates with Some n => n | None => name asset end;
     asset_type := asset_type asset;
     file_type := file_type asset;
     blob_url := blob_url asset;
     metadata := match newMetadata updates with
                 | Some m => m ∪ metadata asset
                 | None => metadata asset
                 end;
     status := status asset;
     created_at := created_at asset;
     updated_at := now |}.

Definition assetNotFound : string := "Asset not found".

(** [AssetService.update(id, userId, updates)] with [Timestamp.now()] as
    [now]: the outcome and the collection afterwards.  The best-effort
    thumbnail update of the project collection that follows is left out; it
    does not touch the assets. *)
Definition update (id : string) (userId : option string) (updates : Updates) (now : Z)
    (assets : gmap string AssetData) : Completion (option Asset) * gmap string AssetData :=
  match findById id userId assets with
  | None => (Abrupt assetNotFound, assets)
  | Some asset =>
      let assets' := <[id := applyUpdates (data asset) updates now]> assets in
      (Normal (findById id userId assets'), assets')
  end.

Definition markDeleted (asset : AssetData) (now : Z) : AssetData :=
  {| project_id := project_id asset; user_id := user_id asset; name := name asset;
     asset_type := asset_type asset; file_type := file_type asset;
     blob_url := blob_url asset; metadata := metadata asset;
     status := "deleted"; created_at := created_at asset; updated_at := now |}.

(** [AssetService.delete(id, userId)] (soft delete). *)
Definition delete (id : string) (userId : option string) (now : Z)
    (assets : gmap string AssetData) : Completion unit * gmap string AssetData :=
  match findById id userId assets with
  | None => (Abrupt assetNotFound, assets)
  | Some asset => (Normal tt, <[id := markDeleted (data asset) now]> assets)
  end.

(** The [input] of [AssetService.create], restricted to the fields kept in
    [AssetData]; [create] also stores [blob_path], [file_size], [width],
    [height] and [mime_type], which no function of the service reads. *)
Record CreateInput : Type := {
  input_project_id : option string;
  input_user_id : string;
  input_name : option string;
  input_asset_type : string;
  input_file_type : string;
  input_blob_url : option string;
  input_metadata : option (gmap string string)
}.

(** [v || null] *)
Definition orNull (v : option string) : option string :=
  if truthy v then v else None.

Definition newAsset (input : CreateInput) (now : Z) : AssetData :=
  {| project_id := orNull (input_project_id input);
     user_id := input_user_id input;
     name := orNull (input_name input);
     asset_type := input_asset_type input;
     file_type := input_file_type input;
     blob_url := input_blob_url input;
     metadata := match input_metadata input with Some m => m | None => ∅ end;
     status := "active";
     created_at := now;
     updated_at := now |}.

(** [AssetService.create(input)]: [newId] is the id Firestore generates for
    the added document and [now] is [Timestamp.now()].  The best-effort
    thumbnail update of the project collection that follows is left out; it
    does not touch the assets and its exceptions are caught. *)
Definition create (input : CreateInput) (newId : string) (now : Z)
    (assets : gmap string AssetData) : Asset * gmap string AssetData :=
  let assets' := <[newId := newAsset input now]> assets in
  ({| id := newId; data := newAsset input now |}, assets').

(** [AssetService.createMany(inputs)]: one [create] per input, in order, each
    with its generated id. *)
Fixpoint createMany (inputs : list (CreateInput * string)) (now : Z)
    (assets : gmap string AssetData) : list Asset * gmap string AssetData :=
  match inputs with
  | [] => ([], assets)
  | (input, newId) :: inputs' =>
      let '(asset, assets') := create input newId now assets in
      let '(created, assets'') := createMany inputs' now assets' in
      (asset :: created, assets'')
  end.

(** The [filters] of [AssetService.list]. *)
Record Filters : Type := {
  filter_user_id : option string;
  filter_project_id : option string;
  filter_asset_type : option string;
  filter_status : option string;
  order_by : option string;
  order : option string;
  limit : option nat
}.

(** The [where] clauses [list] adds: an equality test for each filter that
    is set, and [status == 'active'] when no status is given. *)
Definition matches (filters : Filters) (asset : Asset) : bool :=
  (if truthy (filter_user_id filters)
   then strictEq (filter_user_id filters) (user_id (data asset)) else true) &&
  (if truthy (filter_project_id filters)
   then bool_decide (project_id (data asset) = filter_project_id filters) else true) &&
  (if truthy (filter_asset_type filters)
   then strictEq (filter_asset_type filters) (asset_type (data asset)) else true) &&
  (if truthy (filter_status filters)
   then strictEq (filter_status filters) (status (data asset))
   else String.eqb (status (data asset)) "active").

(** [filters.limit || 50] *)
Definition effectiveLimit (filters : Filters) : nat :=
  match limit filters with
  | Some (S n) => S n
  | _ => 50%nat
  end.

Section Listing.

(** The order in which Firestore returns the documents of a query for
    [orderBy(field, direction)]. *)
Variable firestoreOrder : string -> string -> list Asset -> list Asset.

(** [AssetService.list(filters)] *)
Definition list (filters : Filters) (assets : gmap string AssetData)
  : Datatypes.list Asset :=
  let documents := map (fun kv => {| id := fst kv; data := snd kv |}) (map_to_list assets) in
  let selected := List.filter (matches filters) documents in
  let orderBy := orElse (order_by filters) "created_at" in
  let direction := orElse (order filters) "desc" in
  take (effectiveLimit filters) (firestoreOrder orderBy direction selected).

(** [AssetService.getRecentByUser(userId, limit = 20)] *)
Definition getRecentByUser (userId : option string) (limit : option nat)
    (assets : gmap string AssetData) : Datatypes.list Asset :=
  list {| filter_user_id := userId; filter_project_id := None; filter_asset_type := None;
          filter_status := Some "active";
          order_by := Some "created_at"; order := Some "desc";
          limit := Some (match limit with Some n => n | None => 20%nat end) |} assets.

(** [AssetService.getByType(userId, assetType, limit = 50)] *)
Definition getByType (userId assetType : option string) (limit : option nat)
    (assets : gmap string AssetData) : Datatypes.list Asset :=
  list {| filter_user_id := userId; filter_project_id := None;
          filter_asset_type := assetType; filter_status := Some "active";
          order_by := None; order := None;
          limit := Some (match limit with Some n => n | None => 50%nat end) |} assets.

End Listing.

(** [AssetService.hardDelete(id, userId)] on the collection.  The removal of
    the file from the storage bucket that comes first is left out: it does
    not touch the collection and its exceptions are caught. *)
Definition hardDelete (id : string) (userId : option string)
    (assets : gmap string AssetData) : Completion unit * gmap string AssetData :=
  match findById id userId assets with
  | None => (Abrupt assetNotFound, assets)
  | Some asset => (Normal tt, base.delete id assets)
  end.


(** The loop of [hardDeleteByProject]: each listed asset is hard-deleted
    inside a [try]; [deletedCount] counts the calls that did not raise. *)
Fixpoint hardDeleteEach (listed : Datatypes.list Asset) (userId : option string)
    (deletedCount : nat) (assets : gmap string AssetData) : nat * gmap string AssetData :=
  match listed with
  | [] => (deletedCount, assets)
  | asset :: listed' =>
      match hardDelete (id asset) userId assets with
      | (Normal _, assets') => hardDeleteEach listed' userId (S deletedCount) assets'
      | (Abrupt _, assets') => hardDeleteEach listed' userId deletedCount assets'
      end
  end.

(** The two listings [hardDeleteByProject] concatenates: the active and the
    soft-deleted assets of the project and user, 1000 of each at most. *)
Definition projectAssets (firestoreOrder : string -> string -> Datatypes.list Asset ->
                                           Datatypes.list Asset)
    (projectId userId : option string) (assets : gmap string AssetData)
  : Datatypes.list Asset :=
  (list firestoreOrder
     {| filter_user_id := userId; filter_project_id := projectId;
        filter_asset_type := None; filter_status := Some "active";
        order_by := None; order := None; limit := Some 1000%nat |} assets ++
   list firestoreOrder
     {| filter_user_id := userId; filter_project_id := projectId;
        filter_asset_type := None; filter_status := Some "deleted";
        order_by := None; order := None; limit := Some 1000%nat |} assets)%list.

(** [AssetService.hardDeleteByProject(projectId, userId)]: the count it
    returns and the collection afterwards. *)
Definition hardDeleteByProject (firestoreOrder : string -> string -> Datatypes.list Asset ->
                                                  Datatypes.list Asset)
    (projectId userId : option string) (assets : gmap string AssetData)
  : nat * gmap string AssetData :=
  hardDeleteEach (projectAssets firestoreOrder projectId userId assets) userId 0 assets.

End Assets.

(** ** Uploads to the storage bucket *)
Module Storage.

Local Open Scope async_scope.

(** A file of the bucket: its content type and its bytes, kept as the
    base64 text that denotes them. *)
Record StoredFile : Type := {
  storedType : string;
  storedBase64 : string
}.

(** The storage bucket of [lib/db], which is not part of the sources: its
    files, the signed URL it issues for a file name, and the exceptions with
    which [getStorageBucket()], [file.save] and [file.getSignedUrl] fail, if
    they do. *)
Record Bucket : Type := {
  files : gmap string StoredFile;
  signedUrl : string -> string;
  bucketError : option string;
  saveError : option string;
  signError : option string
}.

(** [getStorageBucket()] *)
Definition getStorageBucket (bucket : Bucket) : Completion unit :=
  match bucketError bucket with
  | Some message => Abrupt message
  | None => Normal tt
  end.

(** [await file.save(buffer, { metadata: { contentType } })] *)
Definition save (filename : string) (file : StoredFile) (bucket : Bucket)
  : Completion unit * Bucket :=
  match saveError bucket with
  | Some message => (Abrupt message, bucket)
  | None =>
      (Normal tt,
       {| files := <[filename := file]> (files bucket);
          signedUrl := signedUrl bucket; bucketError := bucketError bucket;
          saveError := saveError bucket; signError := signError bucket |})
  end.

(** [const [url] = await file.getSignedUrl({ action: 'read', expires })] *)
Definition getSignedUrl (filename : string) (bucket : Bucket) : Completion string :=
  match signError bucket with
  | Some message => Abrupt message
  | None => Normal (signedUrl bucket filename)
  end.

(** A match of [/data:([^;]+);/] starting at the head of [s]. *)
Definition matchMimeHere (s : string) : option string :=
  if String.prefix "data:" s then
    let afterScheme := dropChars 5 s in
    let mime := takeWhile notSemicolon afterScheme in
    if negb (String.eqb mime "") && String.prefix ";" (dropWhile notSemicolon afterScheme)
    then Some mime else None
  else None.

(** [dataUrl.match(/data:([^;]+);/)]: the group of the leftmost match. *)
Fixpoint matchMime (s : string) : option string :=
  match matchMimeHere s with
  | Some mime => Some mime
  | None =>
      match s with
      | EmptyString => None
      | String _ s' => matchMime s'
      end
  end.

(** [mimeMatch ? mimeMatch[1] : 'image/png'] *)
Definition mimeTypeOf (dataUrl : string) : string :=
  match matchMime dataUrl with
  | Some mime => mime
  | None => "image/png"
  end.

(** [mimeType.split('/')[1] || 'png'] *)
Definition extensionOf (mimeType : string) : string :=
  orElse (split "/" mimeType !! 1%nat) "png".

(** The message of the [TypeError] of [Buffer.from(undefined, 'base64')]. *)
Definition invalidBufferArgument : string :=
  "The first argument must be of type string or an instance of Buffer, ArrayBuffer, or Array or an Array-like Object. Received undefined".

Definition imageFilename (type userId : string) (timestamp : Z) (random extension : string)
  : string :=
  type +:+ "s/" +:+ userId +:+ "/" +:+ showNumber (Some timestamp) +:+ "-" +:+ random +:+
  "." +:+ extension.

(** The tail shared by the two uploads: the file is saved, then signed.  An
    exception of the signing leaves the saved file in the bucket. *)
Definition saveAndSign (filename : string) (file : StoredFile) (bucket : Bucket)
  : Completion string * Bucket :=
  match save filename file bucket with
  | (Abrupt message, bucket') => (Abrupt message, bucket')
  | (Normal _, bucket') => (getSignedUrl filename bucket', bucket')
  end.

(** [uploadGeneratedImage(dataUrl, userId, type)] of [generation.service.js]:
    [timestamp] is [Date.now()] and [random] is
    [Math.random().toString(36).substring(7)].  The result is the signed URL
    or the exception raised, with the bucket afterwards.  The bucket is
    obtained before [Buffer.from(base64Data, 'base64')] is evaluated. *)
Definition uploadGeneratedImage (dataUrl userId type : string) (timestamp : Z)
    (random : string) (bucket : Bucket) : Completion string * Bucket :=
  let base64Data := split "," dataUrl !! 1%nat in
  let mimeType := mimeTypeOf dataUrl in
  let extension := extensionOf mimeType in
  let filename := imageFilename type userId timestamp random extension in
  match getStorageBucket bucket with
  | Abrupt message => (Abrupt message, bucket)
  | Normal _ =>
      match base64Data with
      | None => (Abrupt invalidBufferArgument, bucket)
      | Some base64Data =>
          saveAndSign filename {| storedType := mimeType; storedBase64 := base64Data |} bucket
      end
  end.

Definition sheetFilename (userId projectId : string) (timestamp : Z)
    (random animationName : string) : string :=
  "animations/" +:+ userId +:+ "/" +:+ projectId +:+ "/" +:+ showNumber (Some timestamp) +:+
  "-" +:+ random +:+ "-" +:+ animationName +:+ ".png".

(** [uploadSpritesheet(spritesheetUrl, userId, projectId, animationName)] of
    [spritesheet.service.js]; [userId], [projectId] and [animationName] are
    given as the template prints them.  The sheet is fetched, then saved and
    signed.  An exception of the download is the [Thrown] outcome, the bucket
    being untouched; an exception of the storage is returned with the bucket
    afterwards. *)
Definition uploadSpritesheet (spritesheetUrl : option string)
    (userId projectId animationName : string) (timestamp : Z) (random : string)
    (bucket : Bucket) : Async (Completion string * Bucket) :=
  match spritesheetUrl with
  | None => throw failedToParseUrl
  | Some url =>
      response <- fetch (Download url) ;;
      let filename := sheetFilename userId projectId timestamp random animationName in
      match getStorageBucket bucket with
      | Abrupt message => ret (Abrupt message, bucket)
      | Normal _ =>
          ret (saveAndSign filename
                 {| storedType := "image/png"; storedBase64 := base64 response |} bucket)
      end
  end.

End Storage.

(** ** Parameter handling of the generation routes *)
Module Routes.

(** The fields the routes destructure from [req.body]. *)
Record Body : Type := {
  bodyPrompt : option string;
  bodyStyle : option string;
  bodyAspectRatio : option string;
  bodyViewpoint : option string;
  bodyColors : option (list string);
  bodyDimensions : option string;
  bodyQuantity : option Z;
  bodyReferenceImage : option string;
  bodyPoseImage : option string;
  bodySpriteType : option string;
  bodySceneType : option string;
  bodyApiKey : option string;
  bodyProvider : option string;
  bodyRemoveBg : option bool;
  bodyTileX : option bool;
  bodyTileY : option bool;
  bodyWidth : option Z;
  bodyHeight : option Z;
  bodyReturnSpritesheet : option bool;
  bodyBypassPromptExpansion : option bool
}.

(** A destructuring default: [field = dflt]. *)
Definition withDefault {A} (v : option A) (dflt : A) : A :=
  match v with Some a => a | None => dflt end.

(** [Math.min(quantity, 4)] *)
Definition cappedQuantity (quantity : Z) : Z := Z.min quantity 4.

(** [{ apiKey: userApiKey, provider: req.body.provider || 'replicate',
       useOwnKey: !!userApiKey }] *)
Definition routeOptions (body : Body) : Options :=
  {| apiKey := bodyApiKey body;
     optProvider := Some (orElse (bodyProvider body) "replicate");
     useOwnKey := truthy (bodyApiKey body) |}.

(** The [params] that [POST /sprite] hands to [generateImages]. *)
Definition spriteParams (body : Body) : Params :=
  {| prompt := bodyPrompt body;
     type := Some "sprite";
     style := Some (withDefault (bodyStyle body) "pixel_art");
     aspectRatio := Some (withDefault (bodyAspectRatio body) "1:1");
     viewpoint := Some (withDefault (bodyViewpoint body) "front");
     colors := Some (withDefault (bodyColors body) []);
     dimensions := Some (withDefault (bodyDimensions body) "64x64");
     quantity := Some (cappedQuantity (withDefault (bodyQuantity body) 2));
     referenceImage := bodyReferenceImage body;
     poseImage := bodyPoseImage body;
     spriteType := Some (withDefault (bodySpriteType body) "character");
     sceneType := None;
     removeBg := Some (withDefault (bodyRemoveBg body) true);
     tileX := Some (withDefault (bodyTileX body) false);
     tileY := Some (withDefault (bodyTileY body) false) |}.

(** The [params] that [POST /scene] hands to [generateImages]. *)
Definition sceneParams (body : Body) : Params :=
  {| prompt := bodyPrompt body;
     type := Some "scene";
     style := Some (withDefault (bodyStyle body) "pixel_art");
     aspectRatio := Some (withDefault (bodyAspectRatio body) "16:9");
     viewpoint := Some (withDefault (bodyViewpoint body) "side");
     colors := Some (withDefault (bodyColors body) []);
     dimensions := None;
     quantity := Some (cappedQuantity (withDefault (bodyQuantity body) 2));
     referenceImage := bodyReferenceImage body;
     poseImage := None;
     spriteType := None;
     sceneType := Some (withDefault (bodySceneType body) "environment");
     removeBg := None; tileX := None; tileY := None |}.

(** The [params] that [POST /direct-animation] hands to
    [generateDirectAnimation]. *)
Definition directParams (body : Body) : DirectParams :=
  {| directPrompt := bodyPrompt body;
     directStyle := Some (withDefault (bodyStyle body) "four_angle_walking");
     directWidth := Some (withDefault (bodyWidth body) 48);
     directHeight := Some (withDefault (bodyHeight body) 48);
     directQuantity := Some (cappedQuantity (withDefault (bodyQuantity body) 1));
     seed := None;
     input_image := None;
     return_spritesheet := Some (withDefault (bodyReturnSpritesheet body) true);
     bypass_prompt_expansion := Some (withDefault (bodyBypassPromptExpansion body) false) |}.

End Routes.
Export Routes.

(** * Vocabulary of the properties *)

(** Two characters are the same up to case: they are equal, or they are the
    capital and the small form of one of the 26 letters. *)
Definition sameIgnoringCase (a b : ascii) : Prop :=
  a = b \/
  exists n, (n < 26)%nat /\
    ((a = ascii_of_nat (65 + n) /\ b = ascii_of_nat (97 + n)) \/
     (a = ascii_of_nat (97 + n) /\ b = ascii_of_nat (65 + n))).

(** Two strings are equal up to case: same length, and the same character up
    to case at every position. *)
Inductive equalIgnoringCase : string -> string -> Prop :=
| equal_empty : equalIgnoringCase "" ""
| equal_next (a b : ascii) (s t : string) :
    sameIgnoringCase a b -> equalIgnoringCase s t ->
    equalIgnoringCase (String a s) (String b t).

(** [s] contains [marker], compared case-insensitively: some substring of [s]
    equals [marker] up to case. *)
Definition containsIgnoringCase (s marker : string) : Prop :=
  exists pre mid post, s = pre +:+ mid +:+ post /\ equalIgnoringCase mid marker.

(** The prompt contains one of the nine partial-body markers. *)
Definition hasPartialMarker (p : string) : Prop :=
  exists marker, In marker partialMarkers /\ containsIgnoringCase p marker.

(** The texts of the caller that [buildPrompt] copies into the prompt: the
    prompt itself, the aspect ratio, the dimensions and the colors. *)
Definition callerTexts (params : Params) : list string :=
  ([interpolate (prompt params); interpolate (aspectRatio params);
    interpolate (dimensions params)] ++
   match colors params with
   | Some cs => cs
   | None => []
   end)%list.

(** The words by which the full-body clause is recognised. *)
Definition fullBodyWords : string := "FULL-BODY".

(** The character [c] does not occur in [s]. *)
Fixpoint freeOf (c : ascii) (s : string) : bool :=
  match s with
  | EmptyString => true
  | String d s' => negb (Ascii.eqb d c) && freeOf c s'
  end.

(** The style preamble [buildPrompt] starts with. *)
Definition stylePreamble (params : Params) : string :=
  if strictEq (style params) "pixel_art" then pixelArtPrefix else flatPrefix.

(** The type context once the marker test has answered [partialCharacter]. *)
Definition typePieces (params : Params) (partialCharacter : bool) : list string :=
  if strictEq (type params) "sprite" then
    let entityType := if strictEq (spriteType params) "object" then "object/item" else "character" in
    let intro := [spriteIntro entityType; spriteBackground] in
    if negb (strictEq (spriteType params) "object") && negb partialCharacter
    then (intro ++ [fullBodyClause])%list else intro
  else [sceneIntro (if strictEq (sceneType params) "indoor" then "indoor" else "outdoor")].

(** The pieces [buildPrompt] appends after the type context. *)
Definition laterPieces (params : Params) : list string :=
  ([viewpointClause (viewpoint params); dimensionsClause (aspectRatio params)] ++
   match colors params with
   | Some (c :: cs) => [colorsClause (c :: cs)]
   | _ => []
   end ++
   (if truthy (dimensions params) && strictEq (type params) "sprite"
    then [sizeHint (interpolate (dimensions params))] else []) ++
   [interpolate (prompt params); qualitySuffix])%list.

(** The built prompt up to the place where the full-body clause goes, and
    from there on; neither depends on the marker test. *)
Definition beforeClause (params : Params) : string :=
  stylePreamble params +:+ join "" (typePieces params true).

Definition afterClause (params : Params) : string := join "" (laterPieces params).

(** A prompt that asks for a portrait and spells the full-body clause out. *)
Definition quotingPrompt : string := "portrait of a knight. " +:+ fullBodyClause.

(** A terminal status of a prediction, in the words of the provider
    protocol. *)
Definition isTerminalStatus (s : option string) : Prop :=
  s = Some "succeeded" \/ s = Some "failed".

(** The prediction a poll response carries, when its body parses. *)
Definition parsed (r : Response) : option Prediction :=
  match json r with
  | JPrediction p => Some p
  | JGemini _ => Some emptyPrediction
  | JUnparsable _ => None
  end.

(** A poll response with a prediction whose status is not terminal. *)
Definition inProgress (r : Response) : Prop :=
  exists p, parsed r = Some p /\ ~ isTerminalStatus (status p).

(** An arrival that makes the loop raise [message] after its request was
    sent: the [fetch] promise is rejected, or the body of the response is not
    JSON and [message] is what the parser says. *)
Definition failsWith (a : Arrival) (message : string) : Prop :=
  a = NetworkError message \/
  exists r, a = Arrives r /\ json r = JUnparsable message.

(** The GET requests issued for the predictions observed before the terminal
    one: the prediction the creation call returned, then those of the earlier
    poll responses. *)
Definition pollRequests (urlOf : Prediction -> string) (apiToken : string)
    (first : Prediction) (earlier : list Response) : list Request :=
  map (fun p => PollPrediction (urlOf p) apiToken) (first :: omap parsed earlier).

(** ** Model identifiers, in the words of the provider protocol *)



(** The identifier [namespace/name:version]. *)
Definition versionedModel (namespace name version : string) : string :=
  namespace +:+ "/" +:+ name +:+ ":" +:+ version.



(** ** Example inputs *)

(** [{ prompt: ... }] with every other field left to its default. *)
Definition promptBody (text : string) : Body :=
  {| bodyPrompt := Some text; bodyStyle := None; bodyAspectRatio := None;
     bodyViewpoint := None; bodyColors := None; bodyDimensions := None;
     bodyQuantity := None; bodyReferenceImage := None; bodyPoseImage := None;
     bodySpriteType := None; bodySceneType := None; bodyApiKey := None;
     bodyProvider := None; bodyRemoveBg := None; bodyTileX := None;
     bodyTileY := None; bodyWidth := None; bodyHeight := None;
     bodyReturnSpritesheet := None; bodyBypassPromptExpansion := None |}.

(** [{ prompt: "a knight", aspectRatio: "constructor" }] *)
Definition constructorRatioBody : Body :=
  {| bodyPrompt := Some "a knight"; bodyStyle := None;
     bodyAspectRatio := Some "constructor";
     bodyViewpoint := None; bodyColors := None; bodyDimensions := None;
     bodyQuantity := None; bodyReferenceImage := None; bodyPoseImage := None;
     bodySpriteType := None; bodySceneType := None; bodyApiKey := None;
     bodyProvider := None; bodyRemoveBg := None; bodyTileX := None;
     bodyTileY := None; bodyWidth := None; bodyHeight := None;
     bodyReturnSpritesheet := None; bodyBypassPromptExpansion := None |}.

(** A 200 response carrying the prediction [p]. *)
Definition predictionResponse (p : Prediction) : Response :=
  {| ok := true; statusCode := 200; contentType := Some "application/json";
     json := JPrediction p; jsonText := "{}"; base64 := "" |}.

Definition predictionWith (state : string) (out : Output) : Prediction :=
  {| id := Some "p1"; status := Some state; urls_get := None; output := out;
     Net.error := None |}.

(** A response whose body is not JSON, with the given status. *)
Definition plainResponse (isOk : bool) (code : Z) : Response :=
  {| ok := isOk; statusCode := code; contentType := None;
     json := JUnparsable "Unexpected end of JSON input"; jsonText := ""; base64 := "" |}.

(** A platform with only the polling-provider credential configured. *)
Definition platformEnv : Env :=
  {| REPLICATE_API_TOKEN := Some "token"; REPLICATE_MODEL_ID := None;
     GEMINI_API_KEY := None |}.

(** [{ prompt: "a knight", quantity: q, bypass_prompt_expansion: true }] *)
Definition bypassBody (q : Z) : Body :=
  {| bodyPrompt := Some "a knight"; bodyStyle := None; bodyAspectRatio := None;
     bodyViewpoint := None; bodyColors := None; bodyDimensions := None;
     bodyQuantity := Some q; bodyReferenceImage := None; bodyPoseImage := None;
     bodySpriteType := None; bodySceneType := None; bodyApiKey := None;
     bodyProvider := None; bodyRemoveBg := None; bodyTileX := None;
     bodyTileY := None; bodyWidth := None; bodyHeight := None;
     bodyReturnSpritesheet := None; bodyBypassPromptExpansion := Some true |}.

Definition idleFrame : AnimationParams :=
  {| characterImage := Some "data:image/png;base64,AAAA"; viewType := Some "side";
     direction := Some "right"; animationType := Some "idle";
     frameDescriptions := Some ["idle"] |}.

Definition platformOptions : Options :=
  {| apiKey := None; optProvider := Some "replicate"; useOwnKey := false |}.

(** ** Counting the requests a computation sends *)

Fixpoint countIf (q : Request -> bool) (requests : list Request) : nat :=
  match requests with
  | [] => O
  | r :: requests' => ((if q r then 1 else 0) + countIf q requests')%nat
  end.

(** Whatever the world, [c] only appends to the log of sent requests, and at
    most [n] of the requests it appends satisfy [q]. *)
Definition sendsAtMost {A} (q : Request -> bool) (n : nat) (c : Async A) : Prop :=
  forall w, exists added,
    sent (worldOf (c w)) = (sent w ++ added)%list /\ (countIf q added <= n)%nat.

(** Every request [c] sends satisfies [p]. *)
Definition sendsOnly {A} (p : Request -> bool) (c : Async A) : Prop :=
  sendsAtMost (fun r => negb (p r)) 0 c.

(** A standard-model request whose [num_images] is not [n]. *)
Definition wrongImageCount (n : option Z) (r : Request) : bool :=
  match r with
  | CreatePrediction _ _ _ _ (RdPlusInput _ _ _ num_images _ _ _ _ _) =>
      negb (bool_decide (num_images = n))
  | _ => false
  end.

(** The [num_images] of the standard-model requests in a log. *)
Definition numImagesSent (requests : list Request) : list (option Z) :=
  omap (fun r =>
          match r with
          | CreatePrediction _ _ true _ (RdPlusInput _ _ _ num_images _ _ _ _ _) =>
              Some num_images
          | _ => None
          end) requests.

(** A per-image call to Gemini. *)
Definition isGeminiCall (r : Request) : bool :=
  match r with
  | GeminiGenerate _ _ _ => true
  | _ => false
  end.

(** The request that starts one animation sheet. *)
Definition isSheetCall (r : Request) : bool :=
  match r with
  | CreatePrediction _ _ true _ (RdAnimationInput _ _ _ _ _ _ _ _) => true
  | _ => false
  end.

(** A request to the polling provider made with the credential [token], or
    the download of an output. *)
Definition pollingWith (token : string) (r : Request) : bool :=
  match r with
  | CreatePrediction _ t _ _ _ => String.eqb t token
  | PollPrediction _ t => String.eqb t token
  | Download _ => true
  | GeminiGenerate _ _ _ => false
  end.

(** A Gemini call made with the credential [key]. *)
Definition geminiWith (key : string) (r : Request) : bool :=
  match r with
  | GeminiGenerate k _ _ => String.eqb k key
  | _ => false
  end.

(** [q] counts neither the polls made with [apiToken] nor the downloads. *)
Definition countsCreationsOnly (apiToken : string) (q : Request -> bool) : Prop :=
  (forall url, q (PollPrediction url apiToken) = false) /\
  (forall url, q (Download url) = false).

(** ** Credentials, in the words of the selection policy *)

(** The caller supplies an own credential [key]. *)
Definition ownCredential (options : Options) (key : string) : Prop :=
  useOwnKey options = true /\ apiKey options = Some key /\ key <> "".

Definition noOwnCredential (options : Options) : Prop :=
  useOwnKey options = false \/ apiKey options = None \/ apiKey options = Some "".

(** The platform variable [v] is set to [value]. *)
Definition configured (v : option string) (value : string) : Prop :=
  v = Some value /\ value <> "".

Definition notConfigured (v : option string) : Prop :=
  v = None \/ v = Some "".

Definition noCredentialResult : GenerationResult :=
  {| success := false; images := []; Orchestrator.error := Some noApiKeyConfigured;
     provider := None |}.

(** [{ prompt: "a knight", quantity: q }] *)
Definition quantityBody (q : Z) : Body :=
  {| bodyPrompt := Some "a knight"; bodyStyle := None; bodyAspectRatio := None;
     bodyViewpoint := None; bodyColors := None; bodyDimensions := None;
     bodyQuantity := Some q; bodyReferenceImage := None; bodyPoseImage := None;
     bodySpriteType := None; bodySceneType := None; bodyApiKey := None;
     bodyProvider := None; bodyRemoveBg := None; bodyTileX := None;
     bodyTileY := None; bodyWidth := None; bodyHeight := None;
     bodyReturnSpritesheet := None; bodyBypassPromptExpansion := None |}.

Definition imageResponse : Response :=
  {| ok := true; statusCode := 200; contentType := Some "image/png";
     json := JUnparsable "Unexpected token in JSON at position 0"; jsonText := "";
     base64 := "iVBORw0KGgo=" |}.

(** A run in which the refinement call is refused and the generation job
    succeeds with one image. *)
Definition oneImageWorld : World :=
  {| incoming := [Arrives (plainResponse false 500);
                  Arrives (plainResponse false 500);
                  Arrives (plainResponse true 200);
                  Arrives (predictionResponse (predictionWith "succeeded" (OutString "u")));
                  Arrives imageResponse];
     sent := [] |}.

Definition ownKeyOptions (provider : string) : Options :=
  {| apiKey := Some "user-key"; optProvider := Some provider; useOwnKey := true |}.

Definition geminiOnlyEnv : Env :=
  {| REPLICATE_API_TOKEN := None; REPLICATE_MODEL_ID := None;
     GEMINI_API_KEY := Some "gemini-key" |}.

Definition placeholderEnv : Env :=
  {| REPLICATE_API_TOKEN := None; REPLICATE_MODEL_ID := None;
     GEMINI_API_KEY := Some "your_gemini_api_key_here" |}.

(** ** Assets, in the words of the ownership rule *)

(** [userId] is not the owner of any stored asset [id]: the asset is missing
    or its [user_id] differs. *)
Definition notOwnedBy (assets : gmap string Assets.AssetData) (id userId : string) : Prop :=
  assets !! id = None \/
  exists data, assets !! id = Some data /\ Assets.user_id data <> userId.

Definition knightAsset : Assets.AssetData :=
  {| Assets.project_id := None; Assets.user_id := "u1"; Assets.name := Some "knight";
     Assets.asset_type := "sprite"; Assets.file_type := "png";
     Assets.blob_url := Some "https://storage/knight.png"; Assets.metadata := ∅;
     Assets.status := "active"; Assets.created_at := 1; Assets.updated_at := 1 |}.

Definition oneAsset : gmap string Assets.AssetData := {[ "a1" := knightAsset ]}.

Definition renameTo (text : string) : Assets.Updates :=
  {| Assets.newName := Some (Some text); Assets.newProjectId := None;
     Assets.newMetadata := None |}.

(** [{ animationPresetId: id }] *)
Definition presetRequest (id : string) : Spritesheet.SheetParams :=
  {| Spritesheet.animationPresetId := Some id; Spritesheet.customWidth := None;
     Spritesheet.customHeight := None; Spritesheet.customPrompt := None;
     Spritesheet.characterImageUrl := None |}.

(** ** Vocabulary of the further properties *)

(** [c] never raises: whatever the world, it returns or is left waiting for
    a request that is not answered. *)
Definition settles {A} (c : Async A) : Prop :=
  forall w, (exists a w', c w = Returned a w') \/ (exists w', c w = Pending w').

(** A creation request for the standard text-to-image model. *)
Definition isStandardCall (r : Request) : bool :=
  match r with
  | CreatePrediction _ _ _ _ (RdPlusInput _ _ _ _ _ _ _ _ _) => true
  | _ => false
  end.

(** A creation request for the image-edit model. *)
Definition isEditCall (r : Request) : bool :=
  match r with
  | CreatePrediction _ _ _ _ (QwenInput _ _) => true
  | _ => false
  end.


(** The Gemini calls of a frame-by-frame animation of [total] frames with the
    given descriptions, from frame [first] on, [count] of them. *)
Definition frameCalls (params : AnimationParams) (descriptions : list string)
    (apiKey : string) (image : string * string) (total first count : nat) : list Request :=
  map (fun i => GeminiGenerate apiKey (framePromptText params descriptions i total) [image])
      (seq first count).

(** A Gemini answer with a text part and one PNG part. *)
Definition geminiImageResponse : Response :=
  {| ok := true; statusCode := 200; contentType := Some "application/json";
     json := JGemini (Some [TextPart; InlineData (Some "image/png") (Some "iVBORw0KGgo=")]);
     jsonText := "{}"; base64 := "" |}.

Definition twoGeminiAnswers : World :=
  {| incoming := [Arrives geminiImageResponse; Arrives geminiImageResponse]; sent := [] |}.

(** Two frames to draw, with the character given as a data URL. *)
Definition walkFrames : AnimationParams :=
  {| characterImage := Some "data:image/png;base64,AAAA"; viewType := Some "side";
     direction := Some "right"; animationType := Some "walk";
     frameDescriptions := Some ["walk-1"; "walk-2"] |}.

(** The same request with the frame descriptions left out. *)
Definition framesWithoutDescriptions : AnimationParams :=
  {| characterImage := Some "data:image/png;base64,AAAA"; viewType := Some "side";
     direction := Some "right"; animationType := Some "walk";
     frameDescriptions := None |}.

(** [{ prompt: "a knight", poseImage: pose }] *)
Definition poseBody (pose : string) : Body :=
  {| bodyPrompt := Some "a knight"; bodyStyle := None; bodyAspectRatio := None;
     bodyViewpoint := None; bodyColors := None; bodyDimensions := None;
     bodyQuantity := None; bodyReferenceImage := None; bodyPoseImage := Some pose;
     bodySpriteType := None; bodySceneType := None; bodyApiKey := None;
     bodyProvider := None; bodyRemoveBg := None; bodyTileX := None;
     bodyTileY := None; bodyWidth := None; bodyHeight := None;
     bodyReturnSpritesheet := None; bodyBypassPromptExpansion := None |}.

(** A request [generateSpritesheet] may send for [params]: the creation of a
    prediction at the animation model's endpoint, with the caller's token, no
    version, the character image of the request and the drawn seed; or a poll
    with the same token. *)
Definition sheetRequest (params : Spritesheet.SheetParams) (apiToken : string) (seed : Z)
    (r : Request) : bool :=
  match r with
  | CreatePrediction url token _ version (SheetInput _ _ _ _ image s) =>
      String.eqb url Spritesheet.animationUrl && String.eqb token apiToken &&
      bool_decide (version = None) &&
      bool_decide (image = Spritesheet.characterImageUrl params) && (s =? seed)
  | PollPrediction _ token => String.eqb token apiToken
  | _ => false
  end.

(** Any creation of a prediction. *)
Definition isCreation (r : Request) : bool :=
  match r with
  | CreatePrediction _ _ _ _ _ => true
  | _ => false
  end.

(** A bucket that accepts saves and signs a file name by prefixing it. *)
Definition emptyBucket : Storage.Bucket :=
  {| Storage.files := ∅;
     Storage.signedUrl := fun name => "https://storage.googleapis.com/bucket/" +:+ name;
     Storage.bucketError := None; Storage.saveError := None; Storage.signError := None |}.

(** A bucket that refuses saves. *)
Definition brokenBucket : Storage.Bucket :=
  {| Storage.files := ∅;
     Storage.signedUrl := fun name => "https://storage.googleapis.com/bucket/" +:+ name;
     Storage.bucketError := None; Storage.saveError := Some "storage unavailable";
     Storage.signError := None |}.

(** A bucket that accepts saves and fails to sign. *)
Definition unsignedBucket : Storage.Bucket :=
  {| Storage.files := ∅;
     Storage.signedUrl := fun name => "https://storage.googleapis.com/bucket/" +:+ name;
     Storage.bucketError := None; Storage.saveError := None;
     Storage.signError := Some "signing failed" |}.

(** The upload cannot store anything: the bucket is not available, the data
    URL has no comma, or the save is refused. *)
Definition cannotStore (dataUrl : string) (bucket : Storage.Bucket) : Prop :=
  Storage.bucketError bucket <> None \/ freeOf "," dataUrl = true \/
  Storage.saveError bucket <> None.

(** [userId] may act on the stored asset [data]: it is the owner, or it is
    empty or undefined, in which case the service does not test ownership. *)
Definition mayAccess (userId : option string) (data : Assets.AssetData) : Prop :=
  truthy userId = false \/ userId = Some (Assets.user_id data).

Definition knightInput : Assets.CreateInput :=
  {| Assets.input_project_id := Some "p1"; Assets.input_user_id := "u1";
     Assets.input_name := Some "knight"; Assets.input_asset_type := "sprite";
     Assets.input_file_type := "png";
     Assets.input_blob_url := Some "https://storage/knight.png";
     Assets.input_metadata := None |}.

Definition dragonInput : Assets.CreateInput :=
  {| Assets.input_project_id := None; Assets.input_user_id := "u2";
     Assets.input_name := Some ""; Assets.input_asset_type := "sprite";
     Assets.input_file_type := "png";
     Assets.input_blob_url := Some "https://storage/dragon.png";
     Assets.input_metadata := None |}.

(** The assets of user [u], whatever their status is not said: the default
    filter on [active] applies. *)
Definition assetsOf (u : string) : Assets.Filters :=
  {| Assets.filter_user_id := Some u; Assets.filter_project_id := None;
     Assets.filter_asset_type := None; Assets.filter_status := None;
     Assets.order_by := None; Assets.order := None; Assets.limit := None |}.

(** * Properties *)

(** ** Strings *)
#[local] Arguments String.append !s1 s2 : simpl nomatch.

Section StringFacts.

Lemma append_nil_r (s : string) : s +:+ "" = s.
Proof. induction s as [|c s IH]; simpl; [reflexivity | now rewrite IH]. Qed.

Lemma append_assoc (a b c : string) : (a +:+ b) +:+ c = a +:+ (b +:+ c).
Proof. induction a as [|x a IH]; simpl; [reflexivity | now rewrite IH]. Qed.

Lemma prefix_iff (p s : string) :
  String.prefix p s = true <-> exists rest, s = p +:+ rest.
Proof.
  revert s. induction p as [|c p IH]; intros s.
  - split; [intros _; now exists s | intros _; destruct s; reflexivity].
  - destruct s as [|d s]; simpl.
    + split; [discriminate | intros [rest H]; discriminate].
    + destruct (Ascii.ascii_dec c d) as [->|Hne].
      * rewrite IH. split; intros [rest H]; exists rest; congruence.
      * split; [discriminate | intros [rest H]; congruence].
Qed.

Lemma includes_nil (sub : string) : includes "" sub = String.prefix sub "".
Proof. unfold includes. apply orb_false_r. Qed.

Lemma includes_cons (c : ascii) (s sub : string) :
  includes (String c s) sub = String.prefix sub (String c s) || includes s sub.
Proof. reflexivity. Qed.

(** [includes] finds exactly the substrings. *)
Lemma includes_iff (s sub : string) :
  includes s sub = true <-> exists pre post, s = pre +:+ sub +:+ post.
Proof.
  induction s as [|c s IH].
  - rewrite includes_nil, prefix_iff. split.
    + intros [rest H]. exists "", rest. exact H.
    + intros [pre [post H]]. destruct pre; simpl in H; [now exists post | discriminate].
  - rewrite includes_cons, orb_true_iff, prefix_iff, IH. split.
    + intros [[rest H] | [pre [post H]]].
      * exists "", rest. exact H.
      * exists (String c pre), post. simpl. now rewrite H.
    + intros [pre [post H]]. destruct pre as [|d pre]; simpl in H.
      * left. now exists post.
      * right. exists pre, post. congruence.
Qed.

Lemma toLowerCase_app (a b : string) :
  toLowerCase (a +:+ b) = toLowerCase a +:+ toLowerCase b.
Proof. induction a as [|c a IH]; simpl; [reflexivity | now rewrite IH]. Qed.

Lemma toLowerCase_split (s a b : string) :
  toLowerCase s = a +:+ b ->
  exists a' b', s = a' +:+ b' /\ toLowerCase a' = a /\ toLowerCase b' = b.
Proof.
  revert s. induction a as [|c a IH]; intros s H; simpl in H.
  - exists "", s. auto.
  - destruct s as [|d s]; simpl in H; [discriminate|].
    injection H as Hc Hs. destruct (IH s Hs) as [a' [b' [-> [Ha Hb]]]].
    exists (String d a'), b'. simpl. rewrite Ha, Hc. auto.
Qed.

Lemma lower_ascii_idempotent (c : ascii) : lower_ascii (lower_ascii c) = lower_ascii c.
Proof.
  destruct c as [[] [] [] [] [] [] [] []]; reflexivity.
Qed.

Lemma toLowerCase_idempotent (s : string) : toLowerCase (toLowerCase s) = toLowerCase s.
Proof.
  induction s as [|c s IH]; simpl; [reflexivity|].
  now rewrite lower_ascii_idempotent, IH.
Qed.

End StringFacts.

(** ** The prompt builder *)
Section PromptFacts.

(** What [lower_ascii] does to a character: nothing, or it maps the capital
    form of a letter to its small form. *)
Lemma lower_ascii_cases (c : ascii) :
  lower_ascii c = c \/
  exists n, (n < 26)%nat /\ c = ascii_of_nat (65 + n) /\ lower_ascii c = ascii_of_nat (97 + n).
Proof.
  unfold lower_ascii.
  destruct ((65 <=? nat_of_ascii c) && (nat_of_ascii c <=? 90))%nat eqn:E; [|now left].
  right. apply andb_true_iff in E as [Hlo Hhi].
  apply Nat.leb_le in Hlo. apply Nat.leb_le in Hhi.
  exists (nat_of_ascii c - 65)%nat. split; [lia|]. split.
  - replace (65 + (nat_of_ascii c - 65))%nat with (nat_of_ascii c) by lia.
    now rewrite ascii_nat_embedding.
  - f_equal. lia.
Qed.

Lemma lower_ascii_letter (n : nat) :
  (n < 26)%nat ->
  lower_ascii (ascii_of_nat (65 + n)) = ascii_of_nat (97 + n) /\
  lower_ascii (ascii_of_nat (97 + n)) = ascii_of_nat (97 + n).
Proof.
  intros Hn. do 26 (destruct n as [|n]; [split; reflexivity|]). lia.
Qed.

(** Equality up to case, as the property words it, is what comparing
    lower-case forms decides. *)
Lemma sameIgnoringCase_iff (a b : ascii) :
  sameIgnoringCase a b <-> lower_ascii a = lower_ascii b.
Proof.
  split.
  - intros [-> | [n [Hn [[-> ->] | [-> ->]]]]]; [reflexivity | |];
      destruct (lower_ascii_letter n Hn) as [H1 H2]; congruence.
  - intros H.
    destruct (lower_ascii_cases a) as [Ha | [n [Hn [Ha Hla]]]];
      destruct (lower_ascii_cases b) as [Hb | [m [Hm [Hb Hlb]]]].
    + left. congruence.
    + right. exists m. split; [exact Hm|]. right. split; [congruence | exact Hb].
    + right. exists n. split; [exact Hn|]. left. split; [exact Ha | congruence].
    + left. rewrite Ha, Hb. f_equal. f_equal.
      assert (ascii_of_nat (97 + n) = ascii_of_nat (97 + m)) as Heq by congruence.
      apply (f_equal nat_of_ascii) in Heq.
      rewrite !nat_ascii_embedding in Heq by lia. lia.
Qed.

Lemma equalIgnoringCase_iff (s t : string) :
  equalIgnoringCase s t <-> toLowerCase s = toLowerCase t.
Proof.
  split.
  - induction 1 as [|a b s t Hab _ IH]; [reflexivity|].
    simpl. apply sameIgnoringCase_iff in Hab. now rewrite Hab, IH.
  - revert t. induction s as [|a s IH]; intros [|b t] H; simpl in H; try discriminate.
    + constructor.
    + injection H as Hab Hst. constructor; [now apply sameIgnoringCase_iff | now apply IH].
Qed.

Lemma includes_lower_iff (s marker : string) :
  includes (toLowerCase s) (toLowerCase marker) = true <-> containsIgnoringCase s marker.
Proof.
  rewrite includes_iff. split.
  - intros [pre [post H]].
    destruct (toLowerCase_split _ _ _ H) as [pre' [rest [-> [Hpre Hrest]]]].
    destruct (toLowerCase_split _ _ _ Hrest) as [mid [post' [-> [Hmid Hpost]]]].
    exists pre', mid, post'. split; [reflexivity | now apply equalIgnoringCase_iff].
  - intros [pre [mid [post [-> Hmid]]]]. apply equalIgnoringCase_iff in Hmid.
    exists (toLowerCase pre), (toLowerCase post).
    now rewrite !toLowerCase_app, Hmid.
Qed.

(** [wantsPartialCharacter] answers whether one of the nine markers occurs,
    compared case-insensitively. *)
Lemma wantsPartialCharacter_iff (p : string) :
  wantsPartialCharacter (Some p) = Normal true <->
  exists marker, In marker partialMarkers /\ containsIgnoringCase p marker.
Proof.
  unfold wantsPartialCharacter. split.
  - intros H. injection H as H.
    repeat (apply orb_true_iff in H; destruct H as [H | H]);
      match type of H with
      | includes _ ?m = true =>
          exists m; split; [simpl; tauto | apply (includes_lower_iff p m); exact H]
      end.
  - intros [marker [Hin Hc]]. apply includes_lower_iff in Hc. f_equal.
    simpl in Hin.
    repeat (destruct Hin as [<- | Hin];
            [match type of Hc with
             | includes _ (toLowerCase ?m) = true => change (toLowerCase m) with m in Hc
             end; rewrite Hc; rewrite ?orb_true_r; reflexivity |]).
    destruct Hin.
Qed.

Lemma wantsPartialCharacter_total (p : string) :
  exists b, wantsPartialCharacter (Some p) = Normal b.
Proof. unfold wantsPartialCharacter. eauto. Qed.

Lemma wantsPartialCharacter_false_iff (p : string) :
  wantsPartialCharacter (Some p) = Normal false <->
  forall marker, In marker partialMarkers -> ~ containsIgnoringCase p marker.
Proof.
  destruct (wantsPartialCharacter_total p) as [[] Hb].
  - split; [rewrite Hb; discriminate|].
    intros H. apply wantsPartialCharacter_iff in Hb as [m [Hin Hc]].
    exfalso. exact (H m Hin Hc).
  - split; [|intros _; exact Hb].
    intros _ m Hin Hc.
    assert (wantsPartialCharacter (Some p) = Normal true) as Ht
      by (apply wantsPartialCharacter_iff; eauto).
    rewrite Hb in Ht. discriminate.
Qed.

End PromptFacts.

(** ** Claim C6: the full-body clause and the partial-body markers *)
Section FullBodyClause.

Lemma join_cons (x : string) (xs : list string) :
  join "" (x :: xs) = x +:+ join "" xs.
Proof.
  unfold join. destruct xs as [|y ys]; simpl.
  - now rewrite append_nil_r.
  - reflexivity.
Qed.

Lemma join_app (xs ys : list string) :
  join "" (xs ++ ys) = join "" xs +:+ join "" ys.
Proof.
  induction xs as [|x xs IH].
  - reflexivity.
  - change ((x :: xs) ++ ys)%list with (x :: (xs ++ ys))%list.
    now rewrite !join_cons, IH, append_assoc.
Qed.

Lemma typeContext_prompt (params : Params) (b : bool) :
  wantsPartialCharacter (prompt params) = Normal b ->
  typeContext params = Normal (typePieces params b).
Proof.
  intros Hb. unfold typeContext, typePieces.
  destruct (strictEq (type params) "sprite"); [|reflexivity].
  destruct (strictEq (spriteType params) "object"); simpl; [reflexivity|].
  rewrite Hb. simpl. now destruct b.
Qed.

Lemma buildPromptPieces_prompt (params : Params) (b : bool) :
  wantsPartialCharacter (prompt params) = Normal b ->
  buildPromptPieces params =
  Normal ([if strictEq (style params) "pixel_art" then pixelArtPrefix else flatPrefix] ++
          typePieces params b ++ laterPieces params)%list.
Proof.
  intros Hb. unfold buildPromptPieces. rewrite (typeContext_prompt _ _ Hb). reflexivity.
Qed.

(** The built prompt is the text before the place of the clause, the type
    context's answer to the marker test, and the text after it. *)
Lemma buildPrompt_text (params : Params) (b : bool) :
  wantsPartialCharacter (prompt params) = Normal b ->
  buildPrompt params =
  Normal (stylePreamble params +:+ join "" (typePieces params b) +:+ afterClause params).
Proof.
  intros Hb. unfold buildPrompt. rewrite (buildPromptPieces_prompt params b Hb).
  unfold andThen, afterClause, stylePreamble. simpl app.
  now rewrite join_cons, join_app.
Qed.

(** With no marker, a sprite that is not an object gets the clause at the end
    of the type context. *)
Lemma typePieces_with_clause (params : Params) :
  type params = Some "sprite" -> spriteType params <> Some "object" ->
  join "" (typePieces params false) = join "" (typePieces params true) +:+ fullBodyClause.
Proof.
  intros Ht Hs. unfold typePieces. rewrite Ht. simpl strictEq.
  assert (strictEq (spriteType params) "object" = false) as ->.
  { destruct (spriteType params) as [s|]; simpl; [|reflexivity].
    apply String.eqb_neq. congruence. }
  cbn [negb andb String.eqb Ascii.eqb Bool.eqb].
  rewrite join_app. reflexivity.
Qed.

(** A scene, and a sprite that is an object, never get the clause. *)
Lemma typePieces_without_clause (params : Params) (b : bool) :
  type params <> Some "sprite" \/ spriteType params = Some "object" ->
  typePieces params b = typePieces params true.
Proof.
  intros H. unfold typePieces.
  destruct (strictEq (type params) "sprite") eqn:Et; [|reflexivity].
  destruct H as [H | ->]; [|reflexivity].
  exfalso. apply H. unfold strictEq in Et.
  destruct (type params) as [t|]; [|discriminate].
  apply String.eqb_eq in Et. now subst.
Qed.

(** *** Where the words of the clause can come from *)

Lemma freeOf_app (c : ascii) (a b : string) :
  freeOf c (a +:+ b) = freeOf c a && freeOf c b.
Proof. induction a as [|d a IH]; simpl; [reflexivity | now rewrite IH, andb_assoc]. Qed.

Lemma prefix_cut (c : ascii) (t x y : string) :
  freeOf c t = true -> String.prefix t (x +:+ String c y) = true -> String.prefix t x = true.
Proof.
  revert x. induction t as [|a t IH]; intros x Hfree H.
  - now destruct x.
  - simpl in Hfree. apply andb_true_iff in Hfree as [Hac Hfree].
    destruct x as [|d x]; simpl in H |- *.
    + destruct (ascii_dec a c) as [->|_]; [|discriminate].
      now rewrite Ascii.eqb_refl in Hac.
    + destruct (ascii_dec a d); [|discriminate]. now apply IH.
Qed.

(** An occurrence of [t] cannot run across a character that [t] does not
    have. *)
Lemma includes_cut (c : ascii) (t u y : string) :
  t <> "" -> freeOf c t = true ->
  includes u t = false -> includes y t = false ->
  includes (u +:+ String c y) t = false.
Proof.
  intros Hne Hfree Hu Hy. induction u as [|d u IH].
  - simpl String.append. rewrite includes_cons, Hy, orb_false_r.
    destruct t as [|a t]; [congruence|]. simpl in Hfree |- *.
    destruct (ascii_dec a c) as [->|_]; [|reflexivity].
    now rewrite Ascii.eqb_refl in Hfree.
  - rewrite includes_cons in Hu. apply orb_false_iff in Hu as [Hhead Hu].
    change (String d u +:+ String c y) with (String d (u +:+ String c y)).
    rewrite includes_cons, (IH Hu), orb_false_r.
    destruct (String.prefix t (String d (u +:+ String c y))) eqn:E; [|reflexivity].
    apply (prefix_cut c t (String d u) y Hfree) in E. congruence.
Qed.

(** An occurrence of a text that starts with [f] starts after a text that
    does not have [f]. *)
Lemma includes_skip (f : ascii) (t x y : string) :
  freeOf f x = true -> includes (x +:+ y) (String f t) = includes y (String f t).
Proof.
  intros Hfree. induction x as [|d x IH]; [reflexivity|].
  simpl in Hfree. apply andb_true_iff in Hfree as [Hd Hfree].
  change (String d x +:+ y) with (String d (x +:+ y)).
  rewrite includes_cons, (IH Hfree). simpl.
  destruct (ascii_dec f d) as [->|_]; [|reflexivity].
  now rewrite Ascii.eqb_refl in Hd.
Qed.

Lemma includes_trans (s t u : string) :
  includes s t = true -> includes t u = true -> includes s u = true.
Proof.
  rewrite !includes_iff. intros [pre [post ->]] [pre' [post' ->]].
  exists (pre +:+ pre'), (post' +:+ post). now rewrite !append_assoc.
Qed.

(** No text of [buildPrompt]'s own has a capital F: the words FULL-BODY of
    the clause occur nowhere else. *)
Lemma stylePreamble_free (params : Params) : freeOf "F" (stylePreamble params) = true.
Proof. unfold stylePreamble. now destruct (strictEq (style params) "pixel_art"). Qed.

Lemma typePieces_free (params : Params) :
  freeOf "F" (join "" (typePieces params true)) = true.
Proof.
  unfold typePieces. rewrite andb_false_r.
  destruct (strictEq (type params) "sprite");
    [destruct (strictEq (spriteType params) "object")
    | destruct (strictEq (sceneType params) "indoor")]; reflexivity.
Qed.

Lemma isPrototypeKey_cases (k : string) :
  isPrototypeKey k = true -> In k objectPrototypeKeys.
Proof.
  unfold isPrototypeKey. intros H. apply existsb_exists in H as [x [Hin Heq]].
  apply String.eqb_eq in Heq. now subst.
Qed.

Lemma viewpointClause_free (v : option string) : freeOf "F" (viewpointClause v) = true.
Proof.
  unfold viewpointClause, getProperty.
  destruct (viewpointDescriptions !! interpolate v) as [text|] eqn:E.
  - apply elem_of_list_to_map_2 in E.
    repeat (apply elem_of_cons in E as [E | E]; [injection E as _ ->; reflexivity |]).
    now apply elem_of_nil in E.
  - destruct (isPrototypeKey (interpolate v)) eqn:Ek; [|reflexivity].
    apply isPrototypeKey_cases in Ek. simpl in Ek.
    repeat (destruct Ek as [<- | Ek]; [reflexivity |]). destruct Ek.
Qed.

(** The part of the dimensions sentence that precedes the aspect ratio. *)
Lemma dimensionsClause_text (aspectRatio : option string) :
  exists sizes,
    freeOf "F" sizes = true /\
    dimensionsClause aspectRatio = sizes +:+ interpolate aspectRatio +:+ " aspect ratio). ".
Proof.
  unfold dimensionsClause.
  exists ("The image should be " +:+ showNumber (widthOf (getImageDimensions aspectRatio)) +:+
          "x" +:+ showNumber (heightOf (getImageDimensions aspectRatio)) +:+ " pixels (").
  split; [|now rewrite !append_assoc].
  unfold getImageDimensions, getProperty.
  destruct (ratioMap !! interpolate aspectRatio) as [d|] eqn:E.
  - apply elem_of_list_to_map_2 in E.
    repeat (apply elem_of_cons in E as [E | E]; [injection E as _ ->; reflexivity |]).
    now apply elem_of_nil in E.
  - destruct (isPrototypeKey (interpolate aspectRatio)); reflexivity.
Qed.

Lemma includes_skip_char (d f : ascii) (t y : string) :
  d <> f -> includes (String d y) (String f t) = includes y (String f t).
Proof.
  intros H. rewrite includes_cons. simpl.
  destruct (ascii_dec f d); [congruence | reflexivity].
Qed.

(** Steps over the characters of a text of [buildPrompt]'s own. *)
Ltac skip_own_text :=
  repeat first [ rewrite includes_skip_char by discriminate
               | progress cbn [String.append] ].

Lemma words_not_in_colors (cs : list string) :
  (forall text, In text cs -> includes text fullBodyWords = false) ->
  includes (join ", " cs) fullBodyWords = false.
Proof.
  intros H. induction cs as [|c cs IH]; [reflexivity|].
  destruct cs as [|c' cs].
  - unfold join. simpl. apply H. now left.
  - change (join ", " (c :: c' :: cs)) with (c +:+ String "," (" " +:+ join ", " (c' :: cs))).
    apply includes_cut; [discriminate | reflexivity | apply H; now left |].
    unfold fullBodyWords. skip_own_text.
    apply IH. intros text Hin. apply H. now right.
Qed.

Lemma words_not_in_colors_clause (params : Params) (rest : string) :
  (forall cs, colors params = Some cs ->
              forall text, In text cs -> includes text fullBodyWords = false) ->
  includes rest fullBodyWords = false ->
  includes (join "" match colors params with
                    | Some (c :: cs) => [colorsClause (c :: cs)]
                    | _ => []
                    end +:+ rest) fullBodyWords = false.
Proof.
  intros Hcolors Hrest. destruct (colors params) as [[|c cs]|] eqn:Ec; try exact Hrest.
  rewrite join_cons. unfold colorsClause. rewrite !append_assoc.
  unfold fullBodyWords in *. skip_own_text.
  apply includes_cut; [discriminate | reflexivity | |].
  - apply words_not_in_colors. exact (Hcolors _ eq_refl).
  - skip_own_text. exact Hrest.
Qed.

Lemma words_not_in_size_hint (params : Params) (rest : string) :
  includes (interpolate (dimensions params)) fullBodyWords = false ->
  includes rest fullBodyWords = false ->
  includes (join "" (if truthy (dimensions params) && strictEq (type params) "sprite"
                     then [sizeHint (interpolate (dimensions params))] else []) +:+ rest)
    fullBodyWords = false.
Proof.
  intros Hdims Hrest.
  destruct (truthy (dimensions params) && strictEq (type params) "sprite"); [|exact Hrest].
  rewrite join_cons. unfold sizeHint. rewrite !append_assoc.
  unfold fullBodyWords in *. skip_own_text.
  apply includes_cut; [discriminate | reflexivity | exact Hdims |].
  skip_own_text. exact Hrest.
Qed.

(** When none of the caller's texts has the words FULL-BODY, neither has the
    built prompt without the clause. *)
Lemma words_come_from_the_caller (params : Params) (p : string) :
  prompt params = Some p ->
  (forall text, In text (callerTexts params) -> includes text fullBodyWords = false) ->
  includes (beforeClause params +:+ afterClause params) fullBodyWords = false.
Proof.
  intros Hp Htexts. unfold callerTexts in Htexts. rewrite Hp in Htexts.
  assert (includes p fullBodyWords = false) as Hprompt by (apply Htexts; simpl; auto).
  assert (includes (interpolate (aspectRatio params)) fullBodyWords = false) as Hratio
    by (apply Htexts; simpl; auto).
  assert (includes (interpolate (dimensions params)) fullBodyWords = false) as Hdims
    by (apply Htexts; simpl; auto).
  assert (forall cs, colors params = Some cs ->
                     forall text, In text cs -> includes text fullBodyWords = false) as Hcolors.
  { intros cs Hcs text Hin. apply Htexts. rewrite Hcs. simpl. auto. }
  clear Htexts.
  destruct (dimensionsClause_text (aspectRatio params)) as [sizes [Hsizes Hclause]].
  unfold beforeClause, afterClause, laterPieces. rewrite Hp.
  rewrite !join_app, !join_cons, Hclause, !append_assoc.
  change (join "" []) with "".
  pose proof (words_not_in_colors_clause params) as Hc.
  pose proof (words_not_in_size_hint params) as Hh.
  unfold fullBodyWords in *.
  rewrite includes_skip by apply stylePreamble_free.
  rewrite includes_skip by apply typePieces_free.
  rewrite includes_skip by apply viewpointClause_free.
  rewrite includes_skip by exact Hsizes.
  apply includes_cut; [discriminate | reflexivity | exact Hratio |].
  skip_own_text.
  apply Hc; [exact Hcolors|]. apply Hh; [exact Hdims|].
  simpl interpolate.
  apply includes_cut; [discriminate | reflexivity | exact Hprompt | reflexivity].
Qed.

Lemma hasPartialMarker_iff (p : string) :
  hasPartialMarker p <-> wantsPartialCharacter (Some p) = Normal true.
Proof. symmetry. apply wantsPartialCharacter_iff. Qed.

Lemma no_partial_marker_iff (p : string) :
  ~ hasPartialMarker p <-> wantsPartialCharacter (Some p) = Normal false.
Proof.
  rewrite wantsPartialCharacter_false_iff. unfold hasPartialMarker. split.
  - intros H marker Hin Hc. apply H. eauto.
  - intros H [marker [Hin Hc]]. exact (H marker Hin Hc).
Qed.

(** C6 (amended). [buildPrompt] adds the full-body clause exactly when the
    prompt has none of the nine markers, compared case-insensitively, and the
    request is a sprite whose sub-type is not [object].  With a marker the
    prompt is built without the clause, and the words FULL-BODY, hence the
    clause, occur in it only if one of the caller's own texts has them; with
    no marker the clause stands between the type context and the rest, so the
    built prompt contains it; a scene, and a sprite that is an object, are
    built without the clause whatever the prompt. *)
Theorem fullBodyClause_is_added_iff_no_partial_marker (params : Params) (p : string) :
  prompt params = Some p ->
  (hasPartialMarker p ->
   buildPrompt params = Normal (beforeClause params +:+ afterClause params) /\
   ((forall text, In text (callerTexts params) -> includes text fullBodyWords = false) ->
    includes (beforeClause params +:+ afterClause params) fullBodyWords = false /\
    includes (beforeClause params +:+ afterClause params) fullBodyClause = false)) /\
  (~ hasPartialMarker p ->
   type params = Some "sprite" -> spriteType params <> Some "object" ->
   buildPrompt params =
     Normal (beforeClause params +:+ fullBodyClause +:+ afterClause params) /\
   includes (beforeClause params +:+ fullBodyClause +:+ afterClause params) fullBodyClause =
     true) /\
  (type params <> Some "sprite" \/ spriteType params = Some "object" ->
   buildPrompt params = Normal (beforeClause params +:+ afterClause params)).
Proof.
  intros Hp. split; [|split].
  - intros Hmarker. apply hasPartialMarker_iff in Hmarker. rewrite <- Hp in Hmarker.
    split.
    + rewrite (buildPrompt_text params true Hmarker). unfold beforeClause.
      now rewrite append_assoc.
    + intros Htexts.
      pose proof (words_come_from_the_caller params p Hp Htexts) as Hwords.
      split; [exact Hwords|].
      destruct (includes (beforeClause params +:+ afterClause params) fullBodyClause) eqn:E;
        [|reflexivity].
      rewrite <- Hwords. symmetry.
      apply (includes_trans _ fullBodyClause); [exact E | reflexivity].
  - intros Hnone Ht Hs. apply no_partial_marker_iff in Hnone. rewrite <- Hp in Hnone.
    split.
    + rewrite (buildPrompt_text params false Hnone), (typePieces_with_clause params Ht Hs).
      unfold beforeClause. now rewrite !append_assoc.
    + apply includes_iff. exists (beforeClause params), (afterClause params). reflexivity.
  - intros Hother. destruct (wantsPartialCharacter_total p) as [b Hb].
    rewrite <- Hp in Hb.
    rewrite (buildPrompt_text params b Hb), (typePieces_without_clause params b Hother).
    unfold beforeClause. now rewrite append_assoc.
Qed.

(** C6 (as stated, refuted). A prompt that asks for a portrait and
    spells the clause out has a marker, and the prompt built for
    [POST /sprite] contains the clause: [buildPrompt] copies the prompt as it
    is. *)
Lemma marker_prompt_can_carry_the_clause :
  hasPartialMarker quotingPrompt /\
  exists built,
    buildPrompt (spriteParams (promptBody quotingPrompt)) = Normal built /\
    includes built fullBodyClause = true.
Proof.
  split.
  - exists "portrait". split; [simpl; tauto|].
    exists "", "portrait", (" of a knight. " +:+ fullBodyClause).
    split; [reflexivity | now apply equalIgnoringCase_iff].
  - eexists. split; [reflexivity|]. vm_compute. reflexivity.
Qed.

Lemma fullBodyClause_is_added_iff_no_partial_marker_witness :
  (buildPrompt (spriteParams (promptBody "Portrait of a knight")) =
     Normal (beforeClause (spriteParams (promptBody "Portrait of a knight")) +:+
             afterClause (spriteParams (promptBody "Portrait of a knight"))) /\
   includes (beforeClause (spriteParams (promptBody "Portrait of a knight")) +:+
             afterClause (spriteParams (promptBody "Portrait of a knight")))
     fullBodyClause = false) /\
  includes (beforeClause (spriteParams (promptBody "a knight")) +:+ fullBodyClause +:+
            afterClause (spriteParams (promptBody "a knight"))) fullBodyClause = true.
Proof.
  split.
  - destruct (fullBodyClause_is_added_iff_no_partial_marker
                (spriteParams (promptBody "Portrait of a knight"))
                "Portrait of a knight" eq_refl) as [Hmarker _].
    assert (hasPartialMarker "Portrait of a knight") as Hhas.
    { exists "portrait". split; [simpl; tauto|].
      exists "", "Portrait", " of a knight".
      split; [reflexivity | now apply equalIgnoringCase_iff]. }
    destruct (Hmarker Hhas) as [Hbuilt Hwords]. split; [exact Hbuilt|].
    apply Hwords. intros text Hin. simpl in Hin.
    repeat (destruct Hin as [<- | Hin]; [reflexivity |]). destruct Hin.
  - destruct (fullBodyClause_is_added_iff_no_partial_marker
                (spriteParams (promptBody "a knight")) "a knight" eq_refl)
      as [_ [Hnone _]].
    apply Hnone.
    + apply no_partial_marker_iff. vm_compute. reflexivity.
    + reflexivity.
    + discriminate.
Defined.

End FullBodyClause.

(** ** Claim C7: the dimensions embedded for an aspect ratio *)
Section AspectRatio.

(** The six entries of the table embed their own pair. *)
Lemma known_ratio_embeds_its_pair :
  dimensionsClause (Some "2:3") = "The image should be 688x1024 pixels (2:3 aspect ratio). " /\
  dimensionsClause (Some "1:1") = "The image should be 1024x1024 pixels (1:1 aspect ratio). " /\
  dimensionsClause (Some "9:16") = "The image should be 576x1024 pixels (9:16 aspect ratio). " /\
  dimensionsClause (Some "4:3") = "The image should be 1024x768 pixels (4:3 aspect ratio). " /\
  dimensionsClause (Some "3:2") = "The image should be 1024x688 pixels (3:2 aspect ratio). " /\
  dimensionsClause (Some "16:9") = "The image should be 1024x576 pixels (16:9 aspect ratio). ".
Proof. repeat split; vm_compute; reflexivity. Qed.

(** A ratio that is neither in the table nor the name of an inherited member
    embeds 1024x1024. *)
Lemma unknown_ratio_embeds_default (ratio : string) :
  ratioMap !! ratio = None -> isPrototypeKey ratio = false ->
  dimensionsClause (Some ratio) =
  "The image should be 1024x1024 pixels (" +:+ ratio +:+ " aspect ratio). ".
Proof.
  intros Htable Hproto.
  unfold dimensionsClause, getImageDimensions, getProperty.
  simpl interpolate. rewrite Htable, Hproto. reflexivity.
Qed.

Lemma dimensionsClause_is_appended (params : Params) (pieces : list string) :
  buildPromptPieces params = Normal pieces ->
  In (dimensionsClause (aspectRatio params)) pieces.
Proof.
  unfold buildPromptPieces, andThen. destruct (typeContext params) as [tp|m]; [|discriminate].
  intros H. injection H as <-.
  right. apply in_or_app. right. simpl. auto.
Qed.

(** C7 (the code departs from the claim). For the aspect ratio
    ["constructor"], which is not in the table, the lookup finds the member
    every object inherits, the [|| { width: 1024, height: 1024 }] default is
    not taken, and the prompt built for [POST /sprite] embeds
    [undefinedxundefined] instead of [1024x1024]. *)
Theorem inherited_ratio_embeds_undefined :
  ratioMap !! "constructor" = None /\
  getImageDimensions (Some "constructor") = Inherited "constructor" /\
  dimensionsClause (Some "constructor") =
    "The image should be undefinedxundefined pixels (constructor aspect ratio). " /\
  exists pieces,
    buildPromptPieces (spriteParams constructorRatioBody) = Normal pieces /\
    In "The image should be undefinedxundefined pixels (constructor aspect ratio). " pieces /\
    ~ In "The image should be 1024x1024 pixels (constructor aspect ratio). " pieces.
Proof.
  split; [vm_compute; reflexivity|].
  split; [vm_compute; reflexivity|].
  split; [vm_compute; reflexivity|].
  eexists. split; [vm_compute; reflexivity|]. split.
  - simpl. tauto.
  - simpl. intros H.
    repeat (destruct H as [H | H]; [discriminate H |]). exact H.
Qed.

End AspectRatio.

(** ** Claim C8: the polling loop *)
Section Polling.

Variable urlOf : Prediction -> string.
Variable apiToken : string.

Lemma terminal_iff (p : Prediction) : terminal p = true <-> isTerminalStatus (status p).
Proof.
  unfold terminal, isTerminalStatus, strictEq. destruct (status p) as [s|]; simpl.
  - rewrite orb_true_iff, !String.eqb_eq. split; intros [H | H]; [left | right | left | right]; congruence.
  - split; [discriminate | intros [H | H]; discriminate].
Qed.

Lemma not_terminal_iff (p : Prediction) : terminal p = false <-> ~ isTerminalStatus (status p).
Proof.
  rewrite <- terminal_iff. destruct (terminal p); split; congruence.
Qed.

Lemma jsonPrediction_parsed (r : Response) (p : Prediction) :
  parsed r = Some p -> jsonPrediction r = ret p.
Proof.
  unfold parsed, jsonPrediction. destruct (json r); intros H; congruence.
Qed.

(** Fuel above the number of responses still to arrive is never used up. *)
Lemma pollLoop_fuel (n m : nat) (p : Prediction) (w : World) :
  (length (incoming w) < n)%nat -> (length (incoming w) < m)%nat ->
  pollLoop n urlOf apiToken p w = pollLoop m urlOf apiToken p w.
Proof.
  revert m p w. induction n as [|n IH]; intros m p w Hn Hm; [lia|].
  destruct m as [|m]; [lia|]. simpl.
  destruct (terminal p); [reflexivity|].
  unfold bind, fetch. destruct w as [inc snt]. simpl in *.
  destruct inc as [|[r|msg|] rest]; try reflexivity.
  unfold jsonPrediction. destruct (json r); try reflexivity; apply IH; simpl in *; lia.
Qed.

Lemma pollLoop_S (n : nat) (p : Prediction) :
  pollLoop (S n) urlOf apiToken p =
  if terminal p then ret p
  else bind (fetch (PollPrediction (urlOf p) apiToken))
         (fun pollResponse => bind (jsonPrediction pollResponse)
            (fun prediction' => pollLoop n urlOf apiToken prediction')).
Proof. reflexivity. Qed.

Lemma poll_terminal (p : Prediction) (w : World) :
  terminal p = true -> poll urlOf apiToken p w = Returned p w.
Proof. intros H. unfold poll. simpl. now rewrite H. Qed.

(** One iteration: a non-terminal prediction costs one GET, and the loop
    goes on with the prediction of the response. *)
Lemma poll_continue (p p' : Prediction) (r : Response) (rest : list Arrival)
    (snt : list Request) :
  terminal p = false -> parsed r = Some p' ->
  poll urlOf apiToken p {| incoming := Arrives r :: rest; sent := snt |} =
  poll urlOf apiToken p'
    {| incoming := rest; sent := snt ++ [PollPrediction (urlOf p) apiToken] |}.
Proof.
  intros Hp Hr. unfold poll. cbn [incoming length].
  rewrite pollLoop_S, Hp. unfold bind at 1. unfold fetch. cbn [incoming sent].
  unfold bind. rewrite (jsonPrediction_parsed _ _ Hr). reflexivity.
Qed.

Lemma poll_waiting (p : Prediction) (snt : list Request) :
  terminal p = false ->
  poll urlOf apiToken p {| incoming := []; sent := snt |} =
  Pending {| incoming := []; sent := snt ++ [PollPrediction (urlOf p) apiToken] |}.
Proof. intros Hp. unfold poll. simpl. rewrite Hp. reflexivity. Qed.

Lemma poll_broken (p : Prediction) (a : Arrival) (message : string) (rest : list Arrival)
    (snt : list Request) :
  terminal p = false -> failsWith a message ->
  poll urlOf apiToken p {| incoming := a :: rest; sent := snt |} =
  Thrown message
    {| incoming := rest; sent := snt ++ [PollPrediction (urlOf p) apiToken] |}.
Proof.
  intros Hp Ha. unfold poll. cbn [incoming length]. rewrite pollLoop_S, Hp.
  unfold bind at 1. unfold fetch. cbn [incoming sent].
  destruct Ha as [-> | [r [-> Hr]]]; [reflexivity|].
  unfold bind, jsonPrediction. now rewrite Hr.
Qed.

(** A poll whose URL does not parse is not sent: the loop ends with the
    [TypeError] of [fetch] and the log of requests is as it was. *)
Lemma poll_rejected_url (p : Prediction) (rest : list Arrival) (snt : list Request) :
  terminal p = false ->
  poll urlOf apiToken p {| incoming := RejectedUrl :: rest; sent := snt |} =
  Thrown (failedToParseUrlFrom (urlOf p)) {| incoming := rest; sent := snt |}.
Proof.
  intros Hp. unfold poll. cbn [incoming length]. rewrite pollLoop_S, Hp. reflexivity.
Qed.

(** The loop is left waiting only for a request the network never answers:
    the fuel of [poll] is not what stops it. *)
Lemma pollLoop_pending (fuel : nat) (p : Prediction) (w w' : World) :
  (length (incoming w) < fuel)%nat ->
  pollLoop fuel urlOf apiToken p w = Pending w' -> incoming w' = [].
Proof.
  revert p w. induction fuel as [|fuel IH]; intros p w Hfuel; [lia|].
  rewrite pollLoop_S. destruct (terminal p); [discriminate|].
  unfold bind at 1. unfold fetch. destruct w as [inc snt]. cbn [incoming sent] in *.
  destruct inc as [|[r|msg|] rest]; cbn [length] in Hfuel.
  - intros H. injection H as <-. reflexivity.
  - unfold bind, jsonPrediction. destruct (json r); try discriminate;
      apply IH; cbn [incoming]; lia.
  - discriminate.
  - discriminate.
Qed.

Lemma poll_pending (p : Prediction) (w w' : World) :
  poll urlOf apiToken p w = Pending w' -> incoming w' = [].
Proof. unfold poll. apply pollLoop_pending. lia. Qed.

Lemma omap_parsed_cons (r : Response) (p : Prediction) (rs : list Response) :
  parsed r = Some p -> omap parsed (r :: rs) = p :: omap parsed rs.
Proof. intros H. simpl. now rewrite H. Qed.

(** C8. The loop returns at once on a terminal prediction without polling;
    otherwise it issues one GET per non-terminal prediction it observes,
    stops at the first response whose status is [succeeded] or [failed],
    returns that prediction and leaves every later response unread; while
    all responses are non-terminal it keeps polling; and a rejected or
    unreadable response ends it with an exception, again with every later
    response unread. *)
Theorem polling_stops_at_first_terminal_status :
  (forall p w, isTerminalStatus (status p) -> poll urlOf apiToken p w = Returned p w) /\
  (forall p0 earlier final pf later snt,
     ~ isTerminalStatus (status p0) ->
     Forall inProgress earlier ->
     parsed final = Some pf -> isTerminalStatus (status pf) ->
     poll urlOf apiToken p0
       {| incoming := map Arrives earlier ++ Arrives final :: later; sent := snt |} =
     Returned pf
       {| incoming := later; sent := snt ++ pollRequests urlOf apiToken p0 earlier |}) /\
  (forall p0 earlier snt,
     ~ isTerminalStatus (status p0) ->
     Forall inProgress earlier ->
     poll urlOf apiToken p0 {| incoming := map Arrives earlier; sent := snt |} =
     Pending
       {| incoming := [];
          sent := snt ++ pollRequests urlOf apiToken p0 earlier |}) /\
  (forall p0 earlier broken message later snt,
     ~ isTerminalStatus (status p0) ->
     Forall inProgress earlier ->
     failsWith broken message ->
     poll urlOf apiToken p0
       {| incoming := map Arrives earlier ++ broken :: later; sent := snt |} =
     Thrown message
       {| incoming := later; sent := snt ++ pollRequests urlOf apiToken p0 earlier |}).
Proof.
  split; [|split; [|split]].
  - intros p w H. apply poll_terminal. now apply terminal_iff.
  - intros p0 earlier. revert p0.
    induction earlier as [|r earlier IH]; intros p0 final pf later snt Hp0 Hall Hfinal Hpf.
    + simpl map. simpl app.
      rewrite (poll_continue p0 pf final later snt); [|now apply not_terminal_iff | exact Hfinal].
      rewrite poll_terminal by now apply terminal_iff. reflexivity.
    + inversion Hall as [|? ? [p1 [Hr Hp1]] Hrest]; subst.
      simpl map. rewrite <- app_comm_cons.
      rewrite (poll_continue p0 p1 r _ snt); [|now apply not_terminal_iff | exact Hr].
      rewrite (IH p1 final pf later _ Hp1 Hrest Hfinal Hpf).
      unfold pollRequests. rewrite (omap_parsed_cons r p1 earlier Hr).
      simpl map. now rewrite <- app_assoc.
  - intros p0 earlier. revert p0.
    induction earlier as [|r earlier IH]; intros p0 snt Hp0 Hall.
    + simpl map. rewrite poll_waiting by now apply not_terminal_iff. reflexivity.
    + inversion Hall as [|? ? [p1 [Hr Hp1]] Hrest]; subst.
      simpl map.
      rewrite (poll_continue p0 p1 r _ snt); [|now apply not_terminal_iff | exact Hr].
      rewrite (IH p1 _ Hp1 Hrest).
      unfold pollRequests. rewrite (omap_parsed_cons r p1 earlier Hr).
      simpl map. now rewrite <- app_assoc.
  - intros p0 earlier. revert p0.
    induction earlier as [|r earlier IH]; intros p0 broken message later snt Hp0 Hall Hbroken.
    + simpl map. simpl app.
      rewrite (poll_broken p0 broken message later snt);
        [reflexivity | now apply not_terminal_iff | exact Hbroken].
    + inversion Hall as [|? ? [p1 [Hr Hp1]] Hrest]; subst.
      simpl map. rewrite <- app_comm_cons.
      rewrite (poll_continue p0 p1 r _ snt); [|now apply not_terminal_iff | exact Hr].
      rewrite (IH p1 broken message later _ Hp1 Hrest Hbroken).
      unfold pollRequests. rewrite (omap_parsed_cons r p1 earlier Hr).
      simpl map. now rewrite <- app_assoc.
Qed.

End Polling.

Lemma polling_stops_at_first_terminal_status_witness :
  poll pollUrl "token" (predictionWith "succeeded" (OutString "u"))
    {| incoming := [Arrives (plainResponse true 200)]; sent := [] |} =
  Returned (predictionWith "succeeded" (OutString "u"))
    {| incoming := [Arrives (plainResponse true 200)]; sent := [] |} /\
  poll pollUrl "token" (predictionWith "starting" OutAbsent)
    {| incoming := [Arrives (predictionResponse (predictionWith "processing" OutAbsent));
                    Arrives (predictionResponse (predictionWith "failed" OutAbsent));
                    Arrives (predictionResponse (predictionWith "succeeded" OutAbsent))];
       sent := [] |} =
  Returned (predictionWith "failed" OutAbsent)
    {| incoming := [Arrives (predictionResponse (predictionWith "succeeded" OutAbsent))];
       sent := [PollPrediction "https://api.replicate.com/v1/predictions/p1" "token";
                PollPrediction "https://api.replicate.com/v1/predictions/p1" "token"] |} /\
  poll pollUrl "token" (predictionWith "starting" OutAbsent)
    {| incoming := [Arrives (predictionResponse (predictionWith "processing" OutAbsent))];
       sent := [] |} =
  Pending
    {| incoming := [];
       sent := [PollPrediction "https://api.replicate.com/v1/predictions/p1" "token";
                PollPrediction "https://api.replicate.com/v1/predictions/p1" "token"] |} /\
  poll pollUrl "token" (predictionWith "starting" OutAbsent)
    {| incoming := [Arrives (predictionResponse (predictionWith "processing" OutAbsent));
                    NetworkError "socket hang up";
                    Arrives (predictionResponse (predictionWith "succeeded" OutAbsent))];
       sent := [] |} =
  Thrown "socket hang up"
    {| incoming := [Arrives (predictionResponse (predictionWith "succeeded" OutAbsent))];
       sent := [PollPrediction "https://api.replicate.com/v1/predictions/p1" "token";
                PollPrediction "https://api.replicate.com/v1/predictions/p1" "token"] |}.
Proof.
  assert (forall s, s <> "succeeded" -> s <> "failed" -> ~ isTerminalStatus (Some s)) as Hopen.
  { intros s H1 H2 [H | H]; congruence. }
  destruct (polling_stops_at_first_terminal_status pollUrl "token")
    as [Hnow [Hstop [Hwait Hthrow]]].
  split; [|split; [|split]].
  - apply Hnow. left. reflexivity.
  - apply (Hstop (predictionWith "starting" OutAbsent)
             [predictionResponse (predictionWith "processing" OutAbsent)]
             (predictionResponse (predictionWith "failed" OutAbsent))
             (predictionWith "failed" OutAbsent)
             [Arrives (predictionResponse (predictionWith "succeeded" OutAbsent))] []).
    + apply Hopen; discriminate.
    + constructor; [|constructor].
      exists (predictionWith "processing" OutAbsent). split; [reflexivity|].
      apply Hopen; discriminate.
    + reflexivity.
    + right. reflexivity.
  - apply (Hwait (predictionWith "starting" OutAbsent)
             [predictionResponse (predictionWith "processing" OutAbsent)] []).
    + apply Hopen; discriminate.
    + constructor; [|constructor].
      exists (predictionWith "processing" OutAbsent). split; [reflexivity|].
      apply Hopen; discriminate.
  - apply (Hthrow (predictionWith "starting" OutAbsent)
             [predictionResponse (predictionWith "processing" OutAbsent)]
             (NetworkError "socket hang up") "socket hang up"
             [Arrives (predictionResponse (predictionWith "succeeded" OutAbsent))] []).
    + apply Hopen; discriminate.
    + constructor; [|constructor].
      exists (predictionWith "processing" OutAbsent). split; [reflexivity|].
      apply Hopen; discriminate.
    + left. reflexivity.
Defined.

(** ** Claim C3: the endpoint chosen from the model identifier *)
Section ModelRouting.

Variable apiToken : string.
Variable input : Input.



Lemma colon_without_slash_goes_to_generic_endpoint (model : string) :
  includes model "/" = false -> includes model ":" = true ->
  startRequest apiToken model input =
  CreatePrediction predictionsUrl apiToken true (versionAfterColon model) input.
Proof. intros H1 H2. unfold startRequest. now rewrite H1, H2. Qed.



(** An identifier with a version has a slash too, so the slash test
    answers for it before the colon test is reached. *)
Lemma versionedModel_has_slash (namespace name version : string) :
  includes (versionedModel namespace name version) "/" = true.
Proof. apply includes_iff. now exists namespace, (name +:+ ":" +:+ version). Qed.



End ModelRouting.



(** ** Claim C5: the fallback of the refinement stage *)
Section Refinement.

Lemma buildPrompt_with_prompt (context : Params) (p : string) :
  prompt context = Some p -> exists built, buildPrompt context = Normal built.
Proof.
  intros Hp. destruct (wantsPartialCharacter_total p) as [b Hb].
  rewrite <- Hp in Hb. unfold buildPrompt.
  rewrite (buildPromptPieces_prompt context b Hb). simpl. eauto.
Qed.

(** When the context carries a prompt, any exception of the refinement call
    is absorbed and the stage returns [buildPrompt(context)]. *)
Lemma refinement_falls_back_to_buildPrompt (userPrompt p : string) (context : Params)
    (apiToken message : string) (b : bool) (w w' : World) :
  prompt context = Some p ->
  wantsPartialCharacter (Some userPrompt) = Normal b ->
  callReplicate apiToken refinementModel (refinementInput (Some userPrompt) context b) w =
    Thrown message w' ->
  exists built,
    buildPrompt context = Normal built /\
    refinePromptWithIntelligence (Some userPrompt) context apiToken w =
      Returned (Some built) w'.
Proof.
  intros Hp Hb Hcall. destruct (buildPrompt_with_prompt context p Hp) as [built Hbuilt].
  exists built. split; [exact Hbuilt|].
  unfold refinePromptWithIntelligence. rewrite Hb. unfold lift at 1.
  unfold bind at 1. unfold ret at 1. unfold tryCatch.
  unfold bind at 1. rewrite Hcall. rewrite Hbuilt. reflexivity.
Qed.

Lemma buildPrompt_directContext (params : DirectParams) :
  buildPrompt (directContext params) = Abrupt undefinedToLowerCase.
Proof. reflexivity. Qed.

(** With the context of the direct-animation flow, which has no prompt, any
    exception of the refinement call is replaced by the [TypeError] of the
    fallback itself, and the stage raises. *)
Lemma refinement_raises_on_directContext (userPrompt : string) (params : DirectParams)
    (apiToken message : string) (b : bool) (w w' : World) :
  wantsPartialCharacter (Some userPrompt) = Normal b ->
  callReplicate apiToken refinementModel
    (refinementInput (Some userPrompt) (directContext params) b) w = Thrown message w' ->
  refinePromptWithIntelligence (Some userPrompt) (directContext params) apiToken w =
    Thrown undefinedToLowerCase w'.
Proof.
  intros Hb Hcall.
  unfold refinePromptWithIntelligence. rewrite Hb. unfold lift at 1.
  unfold bind at 1. unfold ret at 1. unfold tryCatch.
  unfold bind at 1. rewrite Hcall. rewrite buildPrompt_directContext. reflexivity.
Qed.

(** C5 (the code departs from the claim). [POST /direct-animation] with the
    body [{ prompt: "a knight" }]: the refinement call is refused with status
    500, the [catch] block calls [buildPrompt] on a context without prompt,
    the stage raises, no generation request is sent, and the result carries
    the error of the fallback. *)
Theorem refinement_failure_surfaces_in_direct_animation :
  let w := {| incoming := [Arrives (plainResponse false 500);
                           Arrives (plainResponse false 500)];
              sent := [] |} in
  let refinementCall :=
    refinementInput (Some "a knight") (directContext (directParams (promptBody "a knight")))
      false in
  let w' := {| incoming := [];
               sent := [firstRequest "token" refinementModel refinementCall;
                        startRequest "token" refinementModel refinementCall] |} in
  buildPrompt (directContext (directParams (promptBody "a knight"))) =
    Abrupt undefinedToLowerCase /\
  refinePromptWithIntelligence (Some "a knight")
    (directContext (directParams (promptBody "a knight"))) "token" w =
    Thrown undefinedToLowerCase w' /\
  generateDirectAnimation (directParams (promptBody "a knight"))
    (routeOptions (promptBody "a knight")) platformEnv w =
    Returned (failure undefinedToLowerCase "replicate") w'.
Proof. repeat split. Qed.

End Refinement.

(** ** Claim C2: failed jobs and empty successes *)
Section ResultShape.

Lemma orElse_nonempty (v : option string) (dflt : string) :
  dflt <> "" -> orElse v dflt <> "".
Proof.
  intros H. unfold orElse. destruct v as [s|]; [|exact H].
  destruct (String.eqb s "") eqn:E; [exact H|]. now apply String.eqb_neq.
Qed.

(** A prediction that ends as [failed] makes the gateway raise, with the
    provider's error text or the generic message, never an empty one. *)
Lemma failed_job_raises (apiToken failureText : string) (r : Response)
    (p pf : Prediction) (w w' : World) :
  failureText <> "" -> ok r = true -> parsed r = Some p ->
  poll pollUrl apiToken p w = Returned pf w' -> status pf = Some "failed" ->
  awaitPrediction apiToken failureText r w =
    Thrown (orElse (Net.error pf) failureText) w' /\
  orElse (Net.error pf) failureText <> "".
Proof.
  intros Htext Hok Hr Hpoll Hfailed. split; [|now apply orElse_nonempty].
  unfold awaitPrediction. rewrite Hok. cbn [negb].
  rewrite (jsonPrediction_parsed _ _ Hr). unfold bind, ret.
  rewrite Hpoll. cbv beta iota. rewrite Hfailed. reflexivity.
Qed.

Lemma tryCatch_returned {A} (body : Async A) (handler : string -> Async A)
    (a : A) (w w' : World) :
  tryCatch body handler w = Returned a w' ->
  body w = Returned a w' \/ exists m w1, body w = Thrown m w1 /\ handler m w1 = Returned a w'.
Proof.
  unfold tryCatch. destruct (body w) as [a0 w0|m w0|w0]; intros H.
  - now left.
  - right. eauto.
  - discriminate.
Qed.

Lemma bind_returned {A B} (c : Async A) (k : A -> Async B) (b : B) (w w' : World) :
  bind c k w = Returned b w' -> exists a w1, c w = Returned a w1 /\ k a w1 = Returned b w'.
Proof.
  unfold bind. destruct (c w) as [a0 w0|m w0|w0]; intros H; try discriminate. eauto.
Qed.

(** The two image paths check for an empty sequence before reporting
    success. *)
Lemma generateWithReplicate_shape (params : Params) (apiToken : string)
    (modelId : option string) (w w' : World) (res : GenerationResult) :
  generateWithReplicate params apiToken modelId w = Returned res w' ->
  (success res = true -> images res <> []) /\
  (success res = false -> exists m, Orchestrator.error res = Some m).
Proof.
  unfold generateWithReplicate. intros H.
  apply tryCatch_returned in H as [H | [m [w1 [_ H]]]].
  - apply bind_returned in H as [fp [w1 [_ H]]].
    apply bind_returned in H as [imgs [w2 [_ H]]].
    destruct imgs as [|i imgs]; [discriminate|].
    injection H as <- _. simpl. split; [discriminate | discriminate].
  - injection H as <- _. simpl. split; [discriminate | eauto].
Qed.

Lemma generateWithGemini_shape (params : Params) (apiKey : string)
    (w w' : World) (res : GenerationResult) :
  generateWithGemini params apiKey w = Returned res w' ->
  (success res = true -> images res <> []) /\
  (success res = false -> exists m, Orchestrator.error res = Some m).
Proof.
  unfold generateWithGemini. intros H.
  apply tryCatch_returned in H as [H | [m [w1 [_ H]]]].
  - apply bind_returned in H as [fp [w1 [_ H]]].
    apply bind_returned in H as [imgs [w2 [_ H]]].
    destruct imgs as [|i imgs]; [discriminate|].
    injection H as <- _. simpl. split; [discriminate | discriminate].
  - injection H as <- _. simpl. split; [discriminate | eauto].
Qed.

(** [generateImages] keeps the promise: success comes with images, failure
    with an error. *)
Lemma generateImages_shape (params : Params) (options : Options) (env : Env)
    (w w' : World) (res : GenerationResult) :
  generateImages params options env w = Returned res w' ->
  (success res = true -> images res <> []) /\
  (success res = false -> exists m, Orchestrator.error res = Some m).
Proof.
  unfold generateImages.
  destruct (useOwnKey options && truthy (apiKey options)).
  - destruct (strictEq (optProvider options) "gemini");
      [apply generateWithGemini_shape | apply generateWithReplicate_shape].
  - destruct (truthy (REPLICATE_API_TOKEN env)); [apply generateWithReplicate_shape|].
    destruct (truthy (GEMINI_API_KEY env) && _); [apply generateWithGemini_shape|].
    intros H. injection H as <- _. simpl. split; [discriminate | eauto].
Qed.

(** C2 (the code departs from the claim). The two animation flows report
    success with an empty sequence: [generateAnimationFrames] when the
    succeeded prediction has no output, [generateDirectAnimation] when the
    provider returns an empty array, or when the quantity is negative, in
    which case nothing is sent at all. *)
Theorem animation_success_with_empty_sequence :
  generateAnimationFrames idleFrame platformOptions platformEnv
    {| incoming := [Arrives (predictionResponse (predictionWith "succeeded" OutAbsent))];
       sent := [] |} =
    Returned
      {| framesSuccess := true; frames := []; framesError := None;
         framesProvider := Some "replicate" |}
      {| incoming := [];
         sent := [CreatePrediction predictionsUrl "token" false None
                    (FrameInput (framePromptText idleFrame ["idle"] 0 1)
                       (Some "data:image/png;base64,AAAA"))] |} /\
  (exists requests,
     generateDirectAnimation (directParams (bypassBody 1)) (routeOptions (bypassBody 1))
       platformEnv
       {| incoming := [Arrives (plainResponse true 200);
                       Arrives (predictionResponse (predictionWith "succeeded" (OutArray [])))];
          sent := [] |} =
     Returned
       {| success := true; images := []; Orchestrator.error := None;
          provider := Some "replicate" |}
       {| incoming := []; sent := requests |}) /\
  (forall w,
     generateDirectAnimation (directParams (bypassBody (-1))) (routeOptions (bypassBody (-1)))
       platformEnv w =
     Returned
       {| success := true; images := []; Orchestrator.error := None;
          provider := Some "replicate" |} w).
Proof.
  split; [vm_compute; reflexivity|]. split.
  - eexists. vm_compute. reflexivity.
  - intros w. reflexivity.
Qed.

End ResultShape.

(** ** The requests a computation sends *)
Section Sending.

Context {A B : Type}.
Variable q : Request -> bool.

Lemma countIf_app (xs ys : list Request) :
  countIf q (xs ++ ys) = (countIf q xs + countIf q ys)%nat.
Proof. induction xs as [|x xs IH]; simpl; [reflexivity | rewrite IH; lia]. Qed.

Lemma sends_ret (a : A) : sendsAtMost q 0 (ret a).
Proof. intros w. exists []. simpl. rewrite app_nil_r. auto. Qed.

Lemma sends_throw (m : string) : sendsAtMost q 0 (@throw A m).
Proof. intros w. exists []. simpl. rewrite app_nil_r. auto. Qed.

Lemma sends_pending : sendsAtMost q 0 (@Pending A).
Proof. intros w. exists []. simpl. rewrite app_nil_r. auto. Qed.

Lemma sends_lift (c : Completion A) : sendsAtMost q 0 (lift c).
Proof. destruct c; [apply sends_ret | apply sends_throw]. Qed.

Lemma sends_weaken (n m : nat) (c : Async A) :
  (n <= m)%nat -> sendsAtMost q n c -> sendsAtMost q m c.
Proof.
  intros Hle H w. destruct (H w) as [added [Hs Hc]]. exists added. split; [exact Hs | lia].
Qed.

Lemma sends_bind (n m : nat) (c : Async A) (k : A -> Async B) :
  sendsAtMost q n c -> (forall a, sendsAtMost q m (k a)) ->
  sendsAtMost q (n + m) (bind c k).
Proof.
  intros Hc Hk w. destruct (Hc w) as [added [Hs Hn]]. unfold bind.
  destruct (c w) as [a w1|msg w1|w1]; simpl in Hs.
  - destruct (Hk a w1) as [added' [Hs' Hm]].
    exists (added ++ added')%list. rewrite Hs', Hs, <- app_assoc, countIf_app.
    split; [reflexivity | lia].
  - exists added. simpl. split; [exact Hs | lia].
  - exists added. simpl. split; [exact Hs | lia].
Qed.

End Sending.

Section SendingMore.

Context {A : Type}.
Variable q : Request -> bool.

Lemma sends_tryCatch (n m : nat) (body : Async A) (handler : string -> Async A) :
  sendsAtMost q n body -> (forall msg, sendsAtMost q m (handler msg)) ->
  sendsAtMost q (n + m) (tryCatch body handler).
Proof.
  intros Hb Hh w. destruct (Hb w) as [added [Hs Hn]]. unfold tryCatch.
  destruct (body w) as [a w1|msg w1|w1]; simpl in Hs.
  - exists added. simpl. split; [exact Hs | lia].
  - destruct (Hh msg w1) as [added' [Hs' Hm]].
    exists (added ++ added')%list. rewrite Hs', Hs, <- app_assoc, countIf_app.
    split; [reflexivity | lia].
  - exists added. simpl. split; [exact Hs | lia].
Qed.

Lemma sends_fetch (req : Request) :
  sendsAtMost q (if q req then 1 else 0) (fetch req).
Proof.
  intros [inc snt]. unfold fetch. simpl.
  destruct inc as [|[r|msg|] rest]; simpl;
    [exists [req] | exists [req] | exists [req] | exists []]; simpl;
    (split; [now rewrite ?app_nil_r | destruct (q req); lia]).
Qed.

Lemma sends_fetch_uncounted (req : Request) :
  q req = false -> sendsAtMost q 0 (fetch req).
Proof. intros H. pose proof (sends_fetch req) as Hf. now rewrite H in Hf. Qed.

Lemma sends_jsonPrediction (r : Response) : sendsAtMost q 0 (jsonPrediction r).
Proof. unfold jsonPrediction. destruct (json r); [apply sends_ret .. | apply sends_throw]. Qed.

Lemma sends_jsonGemini (r : Response) : sendsAtMost q 0 (jsonGemini r).
Proof. unfold jsonGemini. destruct (json r); [apply sends_ret .. | apply sends_throw]. Qed.

End SendingMore.

Section SendingGateway.

Variable q : Request -> bool.
Variable apiToken : string.
Hypothesis q_creations : countsCreationsOnly apiToken q.

Lemma sends_pollLoop (fuel : nat) (urlOf : Prediction -> string) (p : Prediction) :
  sendsAtMost q 0 (pollLoop fuel urlOf apiToken p).
Proof.
  revert p. induction fuel as [|fuel IH]; intros p; simpl.
  - destruct (terminal p); [apply sends_ret | apply sends_pending].
  - destruct (terminal p); [apply sends_ret|].
    apply (sends_bind q 0 0).
    + apply sends_fetch_uncounted. apply q_creations.
    + intros r. apply (sends_bind q 0 0); [apply sends_jsonPrediction | exact IH].
Qed.

Lemma sends_poll (urlOf : Prediction -> string) (p : Prediction) :
  sendsAtMost q 0 (poll urlOf apiToken p).
Proof. intros w. unfold poll. apply sends_pollLoop. Qed.

Lemma sends_awaitPrediction (failureText : string) (r : Response) :
  sendsAtMost q 0 (awaitPrediction apiToken failureText r).
Proof.
  unfold awaitPrediction. destruct (negb (ok r)); [apply sends_throw|].
  apply (sends_bind q 0 0); [apply sends_jsonPrediction|]. intros p.
  apply (sends_bind q 0 0); [apply sends_poll|]. intros p'.
  destruct (strictEq (status p') "failed"); [apply sends_throw | apply sends_ret].
Qed.

(** One call of the gateway sends its two creation requests, polls and
    nothing else. *)
Lemma sends_callReplicate (model : string) (input : Input) :
  sendsAtMost q
    ((if q (firstRequest apiToken model input) then 1 else 0) +
     (if q (startRequest apiToken model input) then 1 else 0))
    (callReplicate apiToken model input).
Proof.
  unfold callReplicate. apply sends_bind; [apply sends_fetch|]. intros r1.
  replace (if q (startRequest apiToken model input) then 1 else 0)%nat
    with ((if q (startRequest apiToken model input) then 1 else 0) + 0)%nat by lia.
  apply sends_bind; [apply sends_fetch|]. intros r2. apply sends_awaitPrediction.
Qed.

Lemma sends_callReplicate_uncounted (model : string) (input : Input) :
  q (firstRequest apiToken model input) = false ->
  q (startRequest apiToken model input) = false ->
  sendsAtMost q 0 (callReplicate apiToken model input).
Proof.
  intros H1 H2. pose proof (sends_callReplicate model input) as H.
  now rewrite H1, H2 in H.
Qed.

Lemma sends_fetchImages (urls : list string) (fallbackMime : string) (images : list string) :
  sendsAtMost q 0 (fetchImages urls fallbackMime images).
Proof.
  revert images. induction urls as [|url urls IH]; intros images; simpl.
  - apply sends_ret.
  - apply (sends_bind q 0 0); [|intros image; apply IH].
    unfold fetchImage. apply (sends_bind q 0 0).
    + apply sends_fetch_uncounted. apply q_creations.
    + intros r. apply sends_ret.
Qed.

Lemma sends_fetchOutputs (output : Output) (fallbackMime : string) (images : list string) :
  sendsAtMost q 0 (fetchOutputs output fallbackMime images).
Proof.
  unfold fetchOutputs. destruct output; [apply sends_fetchImages .. | apply sends_throw].
Qed.

(** The refinement stage sends at most the two creation requests of its one
    gateway call. *)
Lemma sends_refine (userPrompt : option string) (context : Params) :
  (forall input, q (CreatePrediction predictionsUrl apiToken false None
                      (RefineInput (fst input) (snd input))) = false) ->
  (forall input, q (CreatePrediction (modelPredictionsUrl refinementModel) apiToken true None
                      (RefineInput (fst input) (snd input))) = false) ->
  sendsAtMost q 0 (refinePromptWithIntelligence userPrompt context apiToken).
Proof.
  intros Hfirst Hstart. unfold refinePromptWithIntelligence.
  apply (sends_bind q 0 0); [apply sends_lift|]. intros isPartial.
  apply (sends_tryCatch q 0 0).
  - apply (sends_bind q 0 0); [|intros output; apply sends_ret].
    apply sends_callReplicate_uncounted.
    + exact (Hfirst (_, _)).
    + exact (Hstart (_, _)).
  - intros msg. apply (sends_bind q 0 0); [apply sends_lift | intros; apply sends_ret].
Qed.

End SendingGateway.

(** ** Which requests each provider path sends *)
Section ProviderPaths.

Lemma sends_generateWithReplicate (q : Request -> bool) (params : Params)
    (apiToken : string) (modelId : option string) :
  countsCreationsOnly apiToken q ->
  (forall url preferWait version prompt system_instruction,
     q (CreatePrediction url apiToken preferWait version
          (RefineInput prompt system_instruction)) = false) ->
  (forall url preferWait version prompt image,
     q (CreatePrediction url apiToken preferWait version (QwenInput prompt image)) = false) ->
  (forall url preferWait version finalPrompt,
     q (CreatePrediction url apiToken preferWait version
          (standardInput params finalPrompt)) = false) ->
  sendsAtMost q 0 (generateWithReplicate params apiToken modelId).
Proof.
  intros Hq Hrefine Hqwen Hstandard. unfold generateWithReplicate.
  apply (sends_tryCatch q 0 0); [|intros msg; apply sends_ret].
  apply (sends_bind q 0 0).
  { apply sends_refine; [exact Hq | intros; apply Hrefine ..]. }
  intros finalPrompt. apply (sends_bind q 0 0).
  - destruct (truthy (poseImage params)).
    + apply (sends_bind q 0 0); [|intros out; now apply (sends_fetchOutputs q apiToken)].
      unfold generateWithQwen.
      apply sends_callReplicate_uncounted; [exact Hq | apply Hqwen ..].
    + apply (sends_bind q 0 0); [|intros out; now apply (sends_fetchOutputs q apiToken)].
      apply sends_callReplicate_uncounted; [exact Hq | | ].
      * unfold firstRequest. apply Hstandard.
      * unfold startRequest.
        destruct (includes standardModel "/"); [apply Hstandard|].
        destruct (includes standardModel ":"); apply Hstandard.
  - intros images. destruct images; [apply sends_throw | apply sends_ret].
Qed.

(** Every standard-model request carries [params.quantity] as
    [num_images]. *)
Lemma generateWithReplicate_num_images (params : Params) (apiToken : string)
    (modelId : option string) :
  sendsAtMost (wrongImageCount (quantity params)) 0
    (generateWithReplicate params apiToken modelId).
Proof.
  apply sends_generateWithReplicate.
  - split; reflexivity.
  - reflexivity.
  - reflexivity.
  - intros. unfold standardInput. destruct (targetSize params) as [w h]. simpl.
    now rewrite bool_decide_eq_true_2.
Qed.

(** The polling path talks to the polling provider only, with the credential
    it was given. *)
Lemma generateWithReplicate_credential (params : Params) (apiToken : string)
    (modelId : option string) :
  sendsOnly (pollingWith apiToken) (generateWithReplicate params apiToken modelId).
Proof.
  apply sends_generateWithReplicate.
  - split; intros; simpl; [now rewrite String.eqb_refl | reflexivity].
  - intros. simpl. now rewrite String.eqb_refl.
  - intros. simpl. now rewrite String.eqb_refl.
  - intros. simpl. now rewrite String.eqb_refl.
Qed.

Lemma sends_geminiLoop (q : Request -> bool) (remaining : nat) (i : Z) (params : Params)
    (apiKey fullPrompt : string) (images : list string) :
  sendsAtMost q remaining (geminiLoop remaining i params apiKey fullPrompt images).
Proof.
  revert i images. induction remaining as [|remaining IH]; intros i images; simpl.
  - apply sends_ret.
  - change (S remaining) with (1 + remaining)%nat. apply sends_bind.
    + eapply sends_weaken; [|apply sends_fetch]. destruct (q _); lia.
    + intros r. destruct (negb (ok r)).
      * eapply sends_weaken; [|apply sends_throw]. lia.
      * change remaining with (0 + remaining)%nat at 1.
        apply sends_bind; [apply sends_jsonGemini|]. intros data. apply IH.
Qed.

(** The Gemini path makes at most [params.quantity] per-image calls. *)
Lemma generateWithGemini_calls (params : Params) (apiKey : string) :
  sendsAtMost isGeminiCall (iterations (quantity params)) (generateWithGemini params apiKey).
Proof.
  unfold generateWithGemini.
  apply (sends_weaken _ (0 + (iterations (quantity params) + 0) + 0)); [lia|].
  apply sends_tryCatch; [|intros msg; apply sends_ret].
  apply sends_bind; [apply sends_lift|]. intros fullPrompt.
  apply sends_bind.
  - apply sends_geminiLoop.
  - intros images. destruct images; [apply sends_throw | apply sends_ret].
Qed.

Lemma geminiLoop_credential (remaining : nat) (i : Z) (params : Params)
    (apiKey fullPrompt : string) (images : list string) :
  sendsOnly (geminiWith apiKey) (geminiLoop remaining i params apiKey fullPrompt images).
Proof.
  unfold sendsOnly. revert i images.
  induction remaining as [|remaining IH]; intros i images; simpl.
  - apply sends_ret.
  - apply (sends_bind _ 0 0).
    + apply sends_fetch_uncounted. simpl. now rewrite String.eqb_refl.
    + intros r. destruct (negb (ok r)); [apply sends_throw|].
      apply (sends_bind _ 0 0); [apply sends_jsonGemini|]. intros data. apply IH.
Qed.

(** The Gemini path sends Gemini calls only, with the credential it was
    given. *)
Lemma generateWithGemini_credential (params : Params) (apiKey : string) :
  sendsOnly (geminiWith apiKey) (generateWithGemini params apiKey).
Proof.
  unfold sendsOnly, generateWithGemini.
  apply (sends_tryCatch _ 0 0); [|intros msg; apply sends_ret].
  apply (sends_bind _ 0 0); [apply sends_lift|]. intros fullPrompt.
  apply (sends_bind _ 0 0); [apply geminiLoop_credential|].
  intros images. destruct images; [apply sends_throw | apply sends_ret].
Qed.

Lemma sends_directLoop (remaining : nat) (params : DirectParams) (token : string)
    (finalPrompt : option string) (images : list string) :
  sendsAtMost isSheetCall remaining (directLoop remaining params token finalPrompt images).
Proof.
  revert images. induction remaining as [|remaining IH]; intros images; simpl.
  - apply sends_ret.
  - change (S remaining) with (1 + remaining)%nat. apply sends_bind.
    + eapply sends_weaken; [|apply (sends_callReplicate isSheetCall token)].
      * simpl. lia.
      * split; reflexivity.
    + intros output. change remaining with (0 + remaining)%nat at 1.
      apply sends_bind; [|intros images'; apply IH].
      apply (sends_fetchOutputs isSheetCall token). split; reflexivity.
Qed.

(** Direct animation starts at most [quantity || 1] sheets. *)
Lemma generateDirectAnimation_sheets (params : DirectParams) (options : Options) (env : Env) :
  sendsAtMost isSheetCall (Z.to_nat (numberOr (directQuantity params) 1))
    (generateDirectAnimation params options env).
Proof.
  unfold generateDirectAnimation.
  destruct (negb (truthy _)).
  { eapply sends_weaken; [|apply sends_ret]. lia. }
  apply (sends_weaken _ (0 + (Z.to_nat (numberOr (directQuantity params) 1) + 0) + 0)); [lia|].
  apply sends_tryCatch; [|intros msg; apply sends_ret].
  apply sends_bind.
  - destruct (negb (boolOr (bypass_prompt_expansion params) false)); [|apply sends_ret].
    apply sends_refine; [split; reflexivity | reflexivity ..].
  - intros finalPrompt.
    apply sends_bind; [apply sends_directLoop | intros images; apply sends_ret].
Qed.

End ProviderPaths.

(** ** Claim C1: the quantity handed to the providers *)
Section Quantity.

Lemma sends_generateWithGemini_uncounted (q : Request -> bool) (params : Params)
    (apiKey : string) :
  (forall text inline, q (GeminiGenerate apiKey text inline) = false) ->
  sendsAtMost q 0 (generateWithGemini params apiKey).
Proof.
  intros Hq. unfold generateWithGemini.
  apply (sends_tryCatch q 0 0); [|intros msg; apply sends_ret].
  apply (sends_bind q 0 0); [apply sends_lift|]. intros fullPrompt.
  apply (sends_bind q 0 0).
  - generalize (iterations (quantity params)) as remaining.
    generalize 0 as i. generalize (@nil string) as images.
    intros images i remaining. revert i images.
    induction remaining as [|remaining IH]; intros i images; simpl.
    + apply sends_ret.
    + apply (sends_bind q 0 0); [apply sends_fetch_uncounted, Hq|].
      intros r. destruct (negb (ok r)); [apply sends_throw|].
      apply (sends_bind q 0 0); [apply sends_jsonGemini|]. intros data. apply IH.
  - intros images. destruct images; [apply sends_throw | apply sends_ret].
Qed.

(** Whatever path [generateImages] selects, a standard-model request carries
    [params.quantity] and there are at most [params.quantity] Gemini calls. *)
Lemma generateImages_quantity (params : Params) (options : Options) (env : Env) :
  sendsAtMost (wrongImageCount (quantity params)) 0 (generateImages params options env) /\
  sendsAtMost isGeminiCall (iterations (quantity params)) (generateImages params options env).
Proof.
  assert (forall key, sendsAtMost (wrongImageCount (quantity params)) 0
                        (generateWithGemini params key)) as Hg1.
  { intros key. apply sends_generateWithGemini_uncounted. reflexivity. }
  assert (forall token m, sendsAtMost isGeminiCall (iterations (quantity params))
                            (generateWithReplicate params token m)) as Hr2.
  { intros token m. eapply sends_weaken; [|apply sends_generateWithReplicate].
    - lia.
    - split; reflexivity.
    - reflexivity.
    - reflexivity.
    - intros. unfold standardInput. now destruct (targetSize params). }
  unfold generateImages. split.
  - destruct (useOwnKey options && truthy (apiKey options)).
    + destruct (strictEq (optProvider options) "gemini");
        [apply Hg1 | apply generateWithReplicate_num_images].
    + destruct (truthy (REPLICATE_API_TOKEN env)); [apply generateWithReplicate_num_images|].
      destruct (truthy (GEMINI_API_KEY env) && _); [apply Hg1 | apply sends_ret].
  - destruct (useOwnKey options && truthy (apiKey options)).
    + destruct (strictEq (optProvider options) "gemini");
        [apply generateWithGemini_calls | apply Hr2].
    + destruct (truthy (REPLICATE_API_TOKEN env)); [apply Hr2|].
      destruct (truthy (GEMINI_API_KEY env) && _); [apply generateWithGemini_calls|].
      eapply sends_weaken; [|apply sends_ret]. lia.
Qed.

(** C1 (as stated, refuted). With [quantity: 0] in the body of [POST /sprite]
    the standard-model request carries [num_images: 0], outside [1,4]. *)
Lemma zero_quantity_is_sent_as_is :
  ~ (forall (body : Body) (w : World),
       Forall (fun num_images => exists n, num_images = Some n /\ 1 <= n <= 4)
         (numImagesSent
            (sent (worldOf (generateImages (spriteParams body) (routeOptions body)
                              platformEnv w))))).
Proof.
  intros H. specialize (H (quantityBody 0) oneImageWorld).
  assert (numImagesSent
            (sent (worldOf (generateImages (spriteParams (quantityBody 0))
                              (routeOptions (quantityBody 0)) platformEnv oneImageWorld))) =
          [Some 0]) as E by (vm_compute; reflexivity).
  rewrite E in H. inversion H as [|? ? [n [Hn Hrange]] _]; subst.
  injection Hn as <-. lia.
Qed.

(** C1 (amended). The routes hand [min(requested, 4)] on, where the
    requested quantity defaults to 2 (1 for direct animation): the value is
    never above 4, is at least 1 whenever the requested one is, and is 4 for a
    requested 10.  Every standard-model request of [generateImages] carries
    it as [num_images], the Gemini path makes at most 4 per-image calls, and
    direct animation starts at most 4 sheets. *)
Theorem provider_quantity_is_capped_at_four (body : Body) (options : Options) (env : Env) :
  let n := Z.min (withDefault (bodyQuantity body) 2) 4 in
  let d := Z.min (withDefault (bodyQuantity body) 1) 4 in
  (quantity (spriteParams body) = Some n /\ quantity (sceneParams body) = Some n /\
   directQuantity (directParams body) = Some d) /\
  (Z.min 1 (withDefault (bodyQuantity body) 2) <= n <= 4 /\
   Z.min 1 (withDefault (bodyQuantity body) 1) <= d <= 4) /\
  (sendsAtMost (wrongImageCount (Some n)) 0 (generateImages (spriteParams body) options env) /\
   sendsAtMost (wrongImageCount (Some n)) 0 (generateImages (sceneParams body) options env)) /\
  (sendsAtMost isGeminiCall 4 (generateImages (spriteParams body) options env) /\
   sendsAtMost isGeminiCall 4 (generateImages (sceneParams body) options env)) /\
  sendsAtMost isSheetCall 4 (generateDirectAnimation (directParams body) options env) /\
  cappedQuantity 10 = 4.
Proof.
  intros n d. split; [repeat split|]. split; [unfold n, d; lia|].
  split; [split|]; [| |split; [split|split]].
  - apply (generateImages_quantity (spriteParams body)).
  - apply (generateImages_quantity (sceneParams body)).
  - eapply sends_weaken; [|apply (generateImages_quantity (spriteParams body))].
    simpl. unfold cappedQuantity. lia.
  - eapply sends_weaken; [|apply (generateImages_quantity (sceneParams body))].
    simpl. unfold cappedQuantity. lia.
  - eapply sends_weaken; [|apply generateDirectAnimation_sheets].
    simpl. unfold cappedQuantity, numberOr.
    destruct (Z.min (withDefault (bodyQuantity body) 1) 4) eqn:E; lia.
  - reflexivity.
Qed.

End Quantity.

(** ** Claim C4: the provider selection of [generateImages] *)
Section Selection.

Lemma truthy_configured (v : option string) (value : string) :
  configured v value -> truthy v = true /\ interpolate v = value.
Proof.
  intros [-> Hne]. simpl. split; [|reflexivity].
  apply negb_true_iff. now apply String.eqb_neq.
Qed.

Lemma truthy_notConfigured (v : option string) : notConfigured v -> truthy v = false.
Proof. intros [-> | ->]; reflexivity. Qed.

Lemma own_credential_test (options : Options) (key : string) :
  ownCredential options key ->
  useOwnKey options && truthy (apiKey options) = true /\ interpolate (apiKey options) = key.
Proof.
  intros [Hown Hkey]. rewrite Hown. simpl. now apply truthy_configured.
Qed.

Lemma no_own_credential_test (options : Options) :
  noOwnCredential options -> useOwnKey options && truthy (apiKey options) = false.
Proof.
  intros [-> | H]; [reflexivity|].
  rewrite (truthy_notConfigured _ H). apply andb_false_r.
Qed.

(** C4. [generateImages] selects, in this order: the Gemini path for an own
    credential with provider ["gemini"]; the polling provider with the own
    credential for any other own credential; the polling provider with the
    platform token when one is configured; the Gemini path with the platform
    key when it is set and is not the placeholder; and otherwise it fails with
    the "no API key configured" error without sending anything.  The selected
    path sends requests to its provider only, with the selected
    credential. *)
Theorem provider_selection_priority (params : Params) (options : Options) (env : Env) :
  (forall key,
     ownCredential options key -> optProvider options = Some "gemini" ->
     generateImages params options env = generateWithGemini params key /\
     sendsOnly (geminiWith key) (generateImages params options env)) /\
  (forall key,
     ownCredential options key -> optProvider options <> Some "gemini" ->
     generateImages params options env = generateWithReplicate params key None /\
     sendsOnly (pollingWith key) (generateImages params options env)) /\
  (forall token,
     noOwnCredential options -> configured (REPLICATE_API_TOKEN env) token ->
     generateImages params options env =
       generateWithReplicate params token (REPLICATE_MODEL_ID env) /\
     sendsOnly (pollingWith token) (generateImages params options env)) /\
  (forall key,
     noOwnCredential options -> notConfigured (REPLICATE_API_TOKEN env) ->
     configured (GEMINI_API_KEY env) key -> key <> geminiPlaceholder ->
     generateImages params options env = generateWithGemini params key /\
     sendsOnly (geminiWith key) (generateImages params options env)) /\
  (noOwnCredential options -> notConfigured (REPLICATE_API_TOKEN env) ->
   notConfigured (GEMINI_API_KEY env) \/ GEMINI_API_KEY env = Some geminiPlaceholder ->
   forall w, generateImages params options env w = Returned noCredentialResult w).
Proof.
  repeat split.
  - unfold generateImages. destruct (own_credential_test _ _ H) as [-> ->].
    rewrite H0. reflexivity.
  - replace (generateImages params options env) with (generateWithGemini params key).
    + apply generateWithGemini_credential.
    + unfold generateImages. destruct (own_credential_test _ _ H) as [-> ->].
      rewrite H0. reflexivity.
  - unfold generateImages. destruct (own_credential_test _ _ H) as [-> ->].
    assert (strictEq (optProvider options) "gemini" = false) as ->; [|reflexivity].
    destruct (optProvider options) as [p|]; simpl; [|reflexivity].
    apply String.eqb_neq. congruence.
  - replace (generateImages params options env) with (generateWithReplicate params key None).
    + apply generateWithReplicate_credential.
    + unfold generateImages. destruct (own_credential_test _ _ H) as [-> ->].
      assert (strictEq (optProvider options) "gemini" = false) as ->; [|reflexivity].
      destruct (optProvider options) as [p|]; simpl; [|reflexivity].
      apply String.eqb_neq. congruence.
  - unfold generateImages. rewrite (no_own_credential_test _ H).
    destruct (truthy_configured _ _ H0) as [-> ->]. reflexivity.
  - replace (generateImages params options env)
      with (generateWithReplicate params token (REPLICATE_MODEL_ID env)).
    + apply generateWithReplicate_credential.
    + unfold generateImages. rewrite (no_own_credential_test _ H).
      destruct (truthy_configured _ _ H0) as [-> ->]. reflexivity.
  - unfold generateImages. rewrite (no_own_credential_test _ H).
    rewrite (truthy_notConfigured _ H0).
    destruct (truthy_configured _ _ H1) as [-> Hkey].
    destruct H1 as [HG _]. rewrite HG at 1. simpl strictEq.
    assert (String.eqb key geminiPlaceholder = false) as -> by now apply String.eqb_neq.
    simpl. now rewrite Hkey.
  - replace (generateImages params options env) with (generateWithGemini params key).
    + apply generateWithGemini_credential.
    + unfold generateImages. rewrite (no_own_credential_test _ H).
      rewrite (truthy_notConfigured _ H0).
      destruct (truthy_configured _ _ H1) as [-> Hkey].
      destruct H1 as [HG _]. rewrite HG at 1. simpl strictEq.
      assert (String.eqb key geminiPlaceholder = false) as -> by now apply String.eqb_neq.
      simpl. now rewrite Hkey.
  - intros Hown Hrep Hgem w. unfold generateImages.
    rewrite (no_own_credential_test _ Hown), (truthy_notConfigured _ Hrep).
    destruct Hgem as [Hgem | Hgem].
    + rewrite (truthy_notConfigured _ Hgem). reflexivity.
    + rewrite Hgem. reflexivity.
Qed.

End Selection.

Lemma provider_selection_priority_witness :
  generateImages (spriteParams (promptBody "a knight")) (ownKeyOptions "gemini") platformEnv =
    generateWithGemini (spriteParams (promptBody "a knight")) "user-key" /\
  generateImages (spriteParams (promptBody "a knight")) (ownKeyOptions "replicate") platformEnv =
    generateWithReplicate (spriteParams (promptBody "a knight")) "user-key" None /\
  generateImages (spriteParams (promptBody "a knight")) platformOptions platformEnv =
    generateWithReplicate (spriteParams (promptBody "a knight")) "token" None /\
  generateImages (spriteParams (promptBody "a knight")) platformOptions geminiOnlyEnv =
    generateWithGemini (spriteParams (promptBody "a knight")) "gemini-key" /\
  generateImages (spriteParams (promptBody "a knight")) platformOptions placeholderEnv
    oneImageWorld = Returned noCredentialResult oneImageWorld.
Proof.
  assert (noOwnCredential platformOptions) as Hnone by (left; reflexivity).
  split; [|split; [|split; [|split]]].
  - destruct (provider_selection_priority (spriteParams (promptBody "a knight"))
                (ownKeyOptions "gemini") platformEnv) as [Hfirst _].
    apply (Hfirst "user-key").
    + split; [reflexivity | split; [reflexivity | discriminate]].
    + reflexivity.
  - destruct (provider_selection_priority (spriteParams (promptBody "a knight"))
                (ownKeyOptions "replicate") platformEnv) as [_ [Hsecond _]].
    apply (Hsecond "user-key").
    + split; [reflexivity | split; [reflexivity | discriminate]].
    + discriminate.
  - destruct (provider_selection_priority (spriteParams (promptBody "a knight"))
                platformOptions platformEnv) as [_ [_ [Hthird _]]].
    apply (Hthird "token").
    + exact Hnone.
    + split; [reflexivity | discriminate].
  - destruct (provider_selection_priority (spriteParams (promptBody "a knight"))
                platformOptions geminiOnlyEnv) as [_ [_ [_ [Hfourth _]]]].
    apply (Hfourth "gemini-key").
    + exact Hnone.
    + left. reflexivity.
    + split; [reflexivity | discriminate].
    + discriminate.
  - destruct (provider_selection_priority (spriteParams (promptBody "a knight"))
                platformOptions placeholderEnv) as [_ [_ [_ [_ Hfifth]]]].
    apply Hfifth.
    + exact Hnone.
    + left. reflexivity.
    + right. reflexivity.
Defined.

(** ** Claim C9: the preset catalog *)
Section Presets.

Lemma strictEq_Some (a b : string) : strictEq (Some a) b = true <-> a = b.
Proof. simpl. apply String.eqb_eq. Qed.

(** C9. Looking a catalog entry up by its id returns that entry;
    ["four_angle_walking"] is the preset with 16 frames of 48x48; and for an
    id that no catalog entry has, [generateSpritesheet] returns the
    invalid-preset failure and sends nothing. *)
Theorem preset_lookup_is_exact :
  (forall preset,
     In preset Spritesheet.ANIMATION_PRESETS ->
     Spritesheet.getAnimationPreset (Some (Spritesheet.id preset)) = Some preset) /\
  (exists preset,
     Spritesheet.getAnimationPreset (Some "four_angle_walking") = Some preset /\
     Spritesheet.id preset = "four_angle_walking" /\
     Spritesheet.frameCount preset = 16 /\
     Spritesheet.width preset = 48 /\ Spritesheet.height preset = 48) /\
  (forall params apiToken seed w,
     (forall preset,
        In preset Spritesheet.ANIMATION_PRESETS ->
        Spritesheet.animationPresetId params <> Some (Spritesheet.id preset)) ->
     Spritesheet.getAnimationPreset (Spritesheet.animationPresetId params) = None /\
     Spritesheet.generateSpritesheet params apiToken seed w =
       Returned
         (Spritesheet.sheetFailure
            (Spritesheet.invalidPreset (Spritesheet.animationPresetId params))) w /\
     Spritesheet.success
       (Spritesheet.sheetFailure
          (Spritesheet.invalidPreset (Spritesheet.animationPresetId params))) = false).
Proof.
  split; [|split].
  - intros preset Hin. simpl in Hin.
    repeat (destruct Hin as [<- | Hin]; [reflexivity|]). destruct Hin.
  - eexists. split; [reflexivity|]. repeat split.
  - intros params apiToken seed w Hunknown.
    assert (Spritesheet.getAnimationPreset (Spritesheet.animationPresetId params) = None) as Hnone.
    { unfold Spritesheet.getAnimationPreset.
      destruct (List.find _ Spritesheet.ANIMATION_PRESETS) as [preset|] eqn:E; [|reflexivity].
      apply find_some in E as [Hin Heq]. exfalso. apply (Hunknown preset Hin).
      destruct (Spritesheet.animationPresetId params) as [i|]; [|discriminate].
      apply strictEq_Some in Heq. now subst. }
    split; [exact Hnone|]. split; [|reflexivity].
    unfold Spritesheet.generateSpritesheet, tryCatch. rewrite Hnone. reflexivity.
Qed.

End Presets.

Lemma preset_lookup_is_exact_witness :
  Spritesheet.getAnimationPreset (Some "vfx") =
    Some {| Spritesheet.id := "vfx"; Spritesheet.name := "Visual Effects";
            Spritesheet.description := "Visual effects animations (24x24 to 96x96)";
            Spritesheet.style := "vfx"; Spritesheet.width := 64; Spritesheet.height := 64;
            Spritesheet.frameCount := 8; Spritesheet.recommended := false |} /\
  Spritesheet.generateSpritesheet (presetRequest "eight_angle_running") "token" 7 oneImageWorld =
    Returned (Spritesheet.sheetFailure "Invalid animation preset: eight_angle_running")
      oneImageWorld.
Proof.
  destruct preset_lookup_is_exact as [Hexact [_ Hunknown]].
  split.
  - apply (Hexact {| Spritesheet.id := "vfx"; Spritesheet.name := "Visual Effects";
            Spritesheet.description := "Visual effects animations (24x24 to 96x96)";
            Spritesheet.style := "vfx"; Spritesheet.width := 64; Spritesheet.height := 64;
            Spritesheet.frameCount := 8; Spritesheet.recommended := false |}).
    simpl. tauto.
  - apply (Hunknown (presetRequest "eight_angle_running") "token" 7 oneImageWorld).
    intros preset Hin. simpl in Hin.
    repeat (destruct Hin as [<- | Hin]; [discriminate|]). destruct Hin.
Defined.

(** ** Claim C10: ownership in the asset service *)
Section Ownership.

Variable assets : gmap string Assets.AssetData.
Variable id : string.

Lemma findById_hidden (userId : string) :
  userId <> "" -> notOwnedBy assets id userId ->
  Assets.findById id (Some userId) assets = None.
Proof.
  intros Hne [Hmissing | [data [Hdata Howner]]]; unfold Assets.findById.
  - now rewrite Hmissing.
  - rewrite Hdata. simpl.
    assert (String.eqb userId "" = false) as -> by now apply String.eqb_neq.
    assert (String.eqb userId (Assets.user_id data) = false) as ->.
    { apply String.eqb_neq. congruence. }
    reflexivity.
Qed.

(** C10 (amended). For every asset id and every non-empty caller user id,
    [findById] returns null when the asset is missing or belongs to another
    user, and [update] and [delete] then raise "Asset not found" and leave the
    collection as it was. *)
Theorem foreign_asset_is_treated_as_missing (userId : string) (updates : Assets.Updates)
    (now : Z) :
  userId <> "" -> notOwnedBy assets id userId ->
  Assets.findById id (Some userId) assets = None /\
  Assets.update id (Some userId) updates now assets = (Abrupt Assets.assetNotFound, assets) /\
  Assets.delete id (Some userId) now assets = (Abrupt Assets.assetNotFound, assets).
Proof.
  intros Hne Hforeign. pose proof (findById_hidden userId Hne Hforeign) as Hnone.
  unfold Assets.update, Assets.delete. rewrite Hnone. auto.
Qed.

End Ownership.

(** C10 (as stated, refuted). With an empty caller user id the ownership test
    is skipped: [findById] returns the asset of user ["u1"], and [delete]
    marks it deleted. *)
Lemma empty_user_id_reads_foreign_asset :
  ~ (forall (assets : gmap string Assets.AssetData) (id userId : string),
       notOwnedBy assets id userId -> Assets.findById id (Some userId) assets = None).
Proof.
  intros H. specialize (H oneAsset "a1" "").
  assert (notOwnedBy oneAsset "a1" "") as Hforeign.
  { right. exists knightAsset. split; [reflexivity | discriminate]. }
  specialize (H Hforeign). vm_compute in H. discriminate.
Qed.

Lemma foreign_asset_is_treated_as_missing_witness :
  Assets.findById "a1" (Some "u2") oneAsset = None /\
  Assets.update "a1" (Some "u2") (renameTo "mine") 2 oneAsset =
    (Abrupt Assets.assetNotFound, oneAsset) /\
  Assets.delete "a1" (Some "u2") 2 oneAsset = (Abrupt Assets.assetNotFound, oneAsset).
Proof.
  apply (foreign_asset_is_treated_as_missing oneAsset "a1" "u2" (renameTo "mine") 2).
  - discriminate.
  - right. exists knightAsset. split; [reflexivity | discriminate].
Defined.

(** * Further properties of the services *)

(** ** Exceptions stay inside the generation functions *)
Section NeverRaises.

Lemma settles_tryCatch {A} (body : Async A) (handler : string -> Async A) :
  (forall m w, exists a, handler m w = Returned a w) -> settles (tryCatch body handler).
Proof.
  intros Hh w. unfold tryCatch. destruct (body w) as [a w1|m w1|w1].
  - left. eauto.
  - destruct (Hh m w1) as [a Ha]. left. eauto.
  - right. eauto.
Qed.

Lemma settles_ret {A} (a : A) : settles (ret a).
Proof. intros w. left. exists a, w. reflexivity. Qed.

Lemma generateAnimationFrames_with_descriptions (params : AnimationParams)
    (options : Options) (env : Env) (descriptions : list string) :
  frameDescriptions params = Some descriptions ->
  generateAnimationFrames params options env =
  if useOwnKey options && truthy (apiKey options) then
    if strictEq (optProvider options) "gemini"
    then generateAnimationWithGemini params (interpolate (apiKey options))
    else generateAnimationWithReplicate params (interpolate (apiKey options)) None env
  else if truthy (REPLICATE_API_TOKEN env) then
    generateAnimationWithReplicate params (interpolate (REPLICATE_API_TOKEN env))
      (REPLICATE_MODEL_ID env) env
  else if truthy (GEMINI_API_KEY env) && negb (strictEq (GEMINI_API_KEY env) geminiPlaceholder) then
    generateAnimationWithGemini params (interpolate (GEMINI_API_KEY env))
  else
    ret {| framesSuccess := false; frames := []; framesError := Some noApiKeyForFrames;
           framesProvider := None |}.
Proof.
  intros H. unfold generateAnimationFrames, descriptionCount. rewrite H.
  unfold lift, bind, ret.
  repeat match goal with |- context [if ?b then _ else _] => destruct b end; reflexivity.
Qed.

Lemma generateAnimationFrames_without_descriptions (params : AnimationParams)
    (options : Options) (env : Env) (w : World) :
  frameDescriptions params = None ->
  generateAnimationFrames params options env w = Thrown undefinedLength w.
Proof.
  intros H. unfold generateAnimationFrames, descriptionCount. now rewrite H.
Qed.

(** X1. [generateImages], [generateDirectAnimation] and [generateSpritesheet]
    never raise to their caller: every exception is turned into a result
    object, and the only other outcome is waiting for a request that is never
    answered.  [generateAnimationFrames] does the same when the frame
    descriptions are present; when they are absent it raises the [TypeError]
    of its first statement, before anything is sent. *)
Theorem generation_raises_only_without_frame_descriptions (params : Params)
    (frameParams : AnimationParams) (directInput : DirectParams)
    (sheet : Spritesheet.SheetParams) (options : Options) (env : Env) (apiToken : string)
    (seed : Z) :
  settles (generateImages params options env) /\
  settles (generateDirectAnimation directInput options env) /\
  settles (Spritesheet.generateSpritesheet sheet apiToken seed) /\
  (frameDescriptions frameParams <> None ->
   settles (generateAnimationFrames frameParams options env)) /\
  (frameDescriptions frameParams = None ->
   forall w, generateAnimationFrames frameParams options env w = Thrown undefinedLength w).
Proof.
  assert (forall p k, settles (generateWithGemini p k)) as Hg.
  { intros. apply settles_tryCatch. intros m w. eexists. reflexivity. }
  assert (forall p k m, settles (generateWithReplicate p k m)) as Hr.
  { intros. apply settles_tryCatch. intros msg w. eexists. reflexivity. }
  assert (forall p k, settles (generateAnimationWithGemini p k)) as Hag.
  { intros. apply settles_tryCatch. intros m w. eexists. reflexivity. }
  assert (forall p k m e, settles (generateAnimationWithReplicate p k m e)) as Har.
  { intros. apply settles_tryCatch. intros msg w. eexists. reflexivity. }
  split; [|split; [|split; [|split]]].
  - unfold generateImages.
    destruct (useOwnKey options && truthy (apiKey options)).
    + destruct (strictEq (optProvider options) "gemini"); [apply Hg | apply Hr].
    + destruct (truthy (REPLICATE_API_TOKEN env)); [apply Hr|].
      destruct (truthy (GEMINI_API_KEY env) && _); [apply Hg | apply settles_ret].
  - unfold generateDirectAnimation.
    destruct (negb (truthy _)); [apply settles_ret|].
    apply settles_tryCatch. intros m w. eexists. reflexivity.
  - unfold Spritesheet.generateSpritesheet.
    apply settles_tryCatch. intros m w. eexists. reflexivity.
  - intros Hsome. destruct (frameDescriptions frameParams) as [descriptions|] eqn:E;
      [|congruence].
    rewrite (generateAnimationFrames_with_descriptions _ _ _ _ E).
    destruct (useOwnKey options && truthy (apiKey options)).
    + destruct (strictEq (optProvider options) "gemini"); [apply Hag | apply Har].
    + destruct (truthy (REPLICATE_API_TOKEN env)); [apply Har|].
      destruct (truthy (GEMINI_API_KEY env) && _); [apply Hag | apply settles_ret].
  - intros Hnone w. now apply generateAnimationFrames_without_descriptions.
Qed.

End NeverRaises.

(** ** When [buildPrompt] raises, and what it builds *)
Section BuildPrompt.

Lemma strictEq_false_iff (v : option string) (literal : string) :
  strictEq v literal = false <-> v <> Some literal.
Proof.
  destruct v as [s|]; simpl.
  - rewrite String.eqb_neq. split; congruence.
  - split; [discriminate | reflexivity].
Qed.

Lemma strictEq_true_iff (v : option string) (literal : string) :
  strictEq v literal = true <-> v = Some literal.
Proof.
  destruct v as [s|]; simpl.
  - rewrite String.eqb_eq. split; congruence.
  - split; discriminate.
Qed.

(** X2. [buildPrompt] raises exactly when the parameters have no prompt and
    describe a sprite whose sub-type is not [object]: the marker test then
    reads [toLowerCase] of [undefined].  In every other case it returns a
    prompt. *)
Theorem buildPrompt_raises_iff (params : Params) :
  (buildPrompt params = Abrupt undefinedToLowerCase <->
   prompt params = None /\ type params = Some "sprite" /\
   spriteType params <> Some "object") /\
  ((exists built, buildPrompt params = Normal built) \/
   buildPrompt params = Abrupt undefinedToLowerCase).
Proof.
  unfold buildPrompt, buildPromptPieces, typeContext.
  destruct (strictEq (type params) "sprite") eqn:Et.
  - destruct (strictEq (spriteType params) "object") eqn:Es; simpl.
    + split; [|left; eauto]. split; [discriminate|].
      intros [_ [_ H]]. apply strictEq_true_iff in Es. contradiction.
    + destruct (prompt params) as [p|] eqn:Ep; simpl.
      * split; [|left; eauto]. split; [discriminate | intros [H _]; discriminate].
      * split; [|right; reflexivity]. split; [|reflexivity].
        intros _. split; [reflexivity|]. split.
        -- now apply strictEq_true_iff.
        -- now apply strictEq_false_iff.
  - simpl. split; [|left; eauto]. split; [discriminate|].
    intros [_ [H _]]. apply strictEq_true_iff in H. congruence.
Qed.

Lemma join_last (pieces : list string) (a b : string) :
  join "" (pieces ++ [a; b]) = join "" pieces +:+ a +:+ b.
Proof. rewrite join_app, !join_cons. simpl. now rewrite append_nil_r. Qed.

Lemma buildPrompt_shape (params : Params) (p : string) :
  prompt params = Some p ->
  exists middle,
    buildPrompt params =
    Normal (stylePreamble params +:+ middle +:+ p +:+ qualitySuffix).
Proof.
  intros Hp. destruct (wantsPartialCharacter_total p) as [b Hb].
  rewrite <- Hp in Hb. unfold buildPrompt.
  rewrite (buildPromptPieces_prompt params b Hb). cbn [andThen].
  unfold laterPieces. rewrite Hp. cbn [interpolate].
  rewrite !app_assoc.
  match goal with
  | |- context [join "" (?l ++ [p; qualitySuffix])%list] => rewrite (join_last l p qualitySuffix)
  end.
  rewrite <- !app_assoc. cbn [app]. rewrite join_cons.
  eexists. unfold stylePreamble. rewrite append_assoc. reflexivity.
Qed.

(** X3. For parameters with a prompt, the built prompt starts with the style
    preamble chosen by the style flag and ends with the user's prompt, taken
    verbatim, followed by the quality suffix. *)
Theorem buildPrompt_frames_the_user_prompt (params : Params) (p : string) :
  prompt params = Some p ->
  exists middle,
    buildPrompt params =
    Normal (stylePreamble params +:+ middle +:+ p +:+ qualitySuffix).
Proof. exact (buildPrompt_shape params p). Qed.

Lemma buildPrompt_frames_the_user_prompt_witness :
  exists middle,
    buildPrompt (spriteParams (promptBody "a knight")) =
    Normal (pixelArtPrefix +:+ middle +:+ "a knight" +:+ qualitySuffix).
Proof.
  apply (buildPrompt_frames_the_user_prompt (spriteParams (promptBody "a knight")) "a knight").
  reflexivity.
Defined.

End BuildPrompt.

(** ** The refinement stage always hands a prompt on *)
Section UsablePrompt.

Lemma stylePreamble_nonempty (params : Params) (rest : string) :
  stylePreamble params +:+ rest <> "".
Proof. unfold stylePreamble. destruct (strictEq (style params) "pixel_art"); discriminate. Qed.

Lemma truthy_Some (v : option string) :
  truthy v = true -> exists s, v = Some s /\ s <> "".
Proof.
  destruct v as [s|]; simpl; [|discriminate].
  intros H. exists s. split; [reflexivity|].
  apply negb_true_iff in H. now apply String.eqb_neq.
Qed.

(** The stage, once the marker test on the user's prompt has answered. *)
Lemma refine_unfold (userPrompt : string) (context : Params) (apiToken : string)
    (b : bool) (w : World) :
  wantsPartialCharacter (Some userPrompt) = Normal b ->
  refinePromptWithIntelligence (Some userPrompt) context apiToken w =
  match callReplicate apiToken refinementModel
          (refinementInput (Some userPrompt) context b) w with
  | Returned out w1 => Returned (resultOrPrompt (joinedOutput out) (Some userPrompt)) w1
  | Thrown _ w1 =>
      match buildPrompt context with
      | Normal fallback => Returned (Some fallback) w1
      | Abrupt m => Thrown m w1
      end
  | Pending w1 => Pending w1
  end.
Proof.
  intros Hb. unfold refinePromptWithIntelligence. rewrite Hb.
  unfold lift, bind, tryCatch, ret.
  destruct (callReplicate apiToken refinementModel _ w); try reflexivity.
  destruct (buildPrompt context); reflexivity.
Qed.

(** X4. When the user's prompt is not empty and the context carries a
    prompt, the refinement stage never raises and the prompt it returns is
    never empty: it is the model's text, the user's prompt, or the output of
    [buildPrompt]. *)
Theorem refinement_yields_usable_prompt (userPrompt p : string) (context : Params)
    (apiToken : string) (w : World) :
  userPrompt <> "" -> prompt context = Some p ->
  (exists refined w',
     refinePromptWithIntelligence (Some userPrompt) context apiToken w =
       Returned (Some refined) w' /\ refined <> "") \/
  (exists w', refinePromptWithIntelligence (Some userPrompt) context apiToken w = Pending w').
Proof.
  intros Huser Hp.
  destruct (wantsPartialCharacter_total userPrompt) as [b Hb].
  destruct (buildPrompt_shape context p Hp) as [middle Hbuilt].
  rewrite (refine_unfold userPrompt context apiToken b w Hb).
  destruct (callReplicate apiToken refinementModel _ w) as [out w1|m w1|w1].
  - left. unfold resultOrPrompt.
    destruct (truthy (joinedOutput out)) eqn:Et.
    + destruct (truthy_Some _ Et) as [s [-> Hs]].
      exists s, w1. split; [reflexivity | exact Hs].
    + exists userPrompt, w1. split; [reflexivity | exact Huser].
  - left. rewrite Hbuilt.
    eexists _, w1. split; [reflexivity|]. apply stylePreamble_nonempty.
  - right. eauto.
Qed.

Lemma refinement_yields_usable_prompt_witness :
  (exists refined w',
     refinePromptWithIntelligence (Some "a knight") (spriteParams (promptBody "a knight"))
       "token" oneImageWorld = Returned (Some refined) w' /\ refined <> "") \/
  (exists w',
     refinePromptWithIntelligence (Some "a knight") (spriteParams (promptBody "a knight"))
       "token" oneImageWorld = Pending w').
Proof.
  apply (refinement_yields_usable_prompt "a knight" "a knight"
           (spriteParams (promptBody "a knight")) "token" oneImageWorld).
  - discriminate.
  - reflexivity.
Defined.

End UsablePrompt.

(** ** One call of the polling gateway *)
Section GatewayRuns.

Variable apiToken : string.
Variable model : string.
Variable input : Input.

(** The poll requests and the result of a run of the loop that meets its
    first terminal prediction after the responses [earlier]. *)
Lemma poll_reaches_terminal (urlOf : Prediction -> string) (p0 : Prediction)
    (earlier : list Response) (final : Response) (pf : Prediction)
    (later : list Arrival) (snt : list Request) :
  terminal p0 = false -> Forall inProgress earlier ->
  parsed final = Some pf -> terminal pf = true ->
  poll urlOf apiToken p0
    {| incoming := map Arrives earlier ++ Arrives final :: later; sent := snt |} =
  Returned pf {| incoming := later; sent := snt ++ pollRequests urlOf apiToken p0 earlier |}.
Proof.
  revert p0 snt. induction earlier as [|r earlier IH]; intros p0 snt Hp0 Hall Hfinal Hpf.
  - simpl map. simpl app.
    rewrite (poll_continue urlOf apiToken p0 pf final later snt Hp0 Hfinal).
    now rewrite poll_terminal.
  - inversion Hall as [|? ? [p1 [Hr Hp1]] Hrest]; subst.
    simpl map. rewrite <- app_comm_cons.
    rewrite (poll_continue urlOf apiToken p0 p1 r _ snt Hp0 Hr).
    rewrite (IH p1 _ (proj2 (not_terminal_iff p1) Hp1) Hrest Hfinal Hpf).
    unfold pollRequests. rewrite (omap_parsed_cons r p1 earlier Hr).
    simpl map. now rewrite <- app_assoc.
Qed.

(** X5. A creation that the provider refuses is a hard failure: when the
    response of the second POST is not [ok], [callReplicate] raises
    "Replicate API error: <status> - <body>" after its two creation requests
    and never polls.  The response of the first POST is not looked at. *)
Theorem refused_creation_is_a_hard_failure (first refused : Response)
    (rest : list Arrival) (snt : list Request) :
  ok refused = false ->
  callReplicate apiToken model input
    {| incoming := Arrives first :: Arrives refused :: rest; sent := snt |} =
  Thrown ("Replicate API error: " +:+ showNumber (Some (statusCode refused)) +:+ " - " +:+
          errorText refused)
    {| incoming := rest;
       sent := snt ++ [firstRequest apiToken model input;
                       startRequest apiToken model input] |}.
Proof.
  intros Hok. unfold callReplicate, bind, fetch. cbn [incoming sent].
  unfold awaitPrediction. rewrite Hok. cbn [negb]. unfold throw.
  now rewrite <- app_assoc.
Qed.

(** X6. A call whose creation is accepted follows the prediction to its
    first terminal state: it sends the two creation requests and one GET per
    non-terminal prediction observed, reads nothing past the terminal
    response, returns that prediction's [output] as it is when the status is
    [succeeded], and raises the provider's error text, or "Replicate
    generation failed" when there is none, when the status is [failed]. *)
Theorem accepted_creation_follows_the_prediction (first started : Response)
    (p0 : Prediction) (earlier : list Response) (final : Response) (pf : Prediction)
    (later : list Arrival) (snt : list Request) :
  ok started = true -> parsed started = Some p0 ->
  ~ isTerminalStatus (status p0) -> Forall inProgress earlier ->
  parsed final = Some pf -> isTerminalStatus (status pf) ->
  callReplicate apiToken model input
    {| incoming := Arrives first :: Arrives started ::
                   map Arrives earlier ++ Arrives final :: later;
       sent := snt |} =
  let w' := {| incoming := later;
               sent := snt ++ [firstRequest apiToken model input;
                               startRequest apiToken model input] ++
                       pollRequests pollUrl apiToken p0 earlier |} in
  if strictEq (status pf) "failed"
  then Thrown (orElse (Net.error pf) "Replicate generation failed") w'
  else Returned (output pf) w'.
Proof.
  intros Hok Hp0 Hopen Hall Hfinal Hterm.
  unfold callReplicate, bind at 1, fetch at 1. cbn [incoming sent].
  unfold bind at 1, fetch at 1. cbn [incoming sent].
  unfold awaitPrediction. rewrite Hok. cbn [negb].
  rewrite (jsonPrediction_parsed _ _ Hp0). unfold bind at 1, ret at 1.
  unfold bind at 1.
  rewrite (poll_reaches_terminal pollUrl p0 earlier final pf later _
             (proj2 (not_terminal_iff p0) Hopen) Hall Hfinal
             (proj2 (terminal_iff pf) Hterm)).
  cbv zeta. rewrite <- !app_assoc. cbn [app].
  destruct (strictEq (status pf) "failed"); reflexivity.
Qed.

End GatewayRuns.

Lemma refused_creation_is_a_hard_failure_witness :
  callReplicate "token" standardModel (QwenInput (Some "a knight") "pose")
    {| incoming := [Arrives (plainResponse true 200); Arrives (plainResponse false 422);
                    Arrives imageResponse];
       sent := [] |} =
  Thrown "Replicate API error: 422 - {}"
    {| incoming := [Arrives imageResponse];
       sent := [firstRequest "token" standardModel (QwenInput (Some "a knight") "pose");
                startRequest "token" standardModel (QwenInput (Some "a knight") "pose")] |}.
Proof.
  apply (refused_creation_is_a_hard_failure "token" standardModel
           (QwenInput (Some "a knight") "pose") (plainResponse true 200)
           (plainResponse false 422) [Arrives imageResponse] []).
  reflexivity.
Defined.

Lemma accepted_creation_follows_the_prediction_witness :
  callReplicate "token" standardModel (QwenInput (Some "a knight") "pose")
    {| incoming := [Arrives (plainResponse true 200);
                    Arrives (predictionResponse (predictionWith "starting" OutAbsent));
                    Arrives (predictionResponse (predictionWith "processing" OutAbsent));
                    Arrives (predictionResponse (predictionWith "succeeded" (OutString "u")));
                    Arrives imageResponse];
       sent := [] |} =
  Returned (OutString "u")
    {| incoming := [Arrives imageResponse];
       sent := [firstRequest "token" standardModel (QwenInput (Some "a knight") "pose");
                startRequest "token" standardModel (QwenInput (Some "a knight") "pose");
                PollPrediction "https://api.replicate.com/v1/predictions/p1" "token";
                PollPrediction "https://api.replicate.com/v1/predictions/p1" "token"] |}.
Proof.
  assert (forall s, s <> "succeeded" -> s <> "failed" -> ~ isTerminalStatus (Some s)) as Hopen.
  { intros s H1 H2 [H | H]; congruence. }
  apply (accepted_creation_follows_the_prediction "token" standardModel
           (QwenInput (Some "a knight") "pose") (plainResponse true 200)
           (predictionResponse (predictionWith "starting" OutAbsent))
           (predictionWith "starting" OutAbsent)
           [predictionResponse (predictionWith "processing" OutAbsent)]
           (predictionResponse (predictionWith "succeeded" (OutString "u")))
           (predictionWith "succeeded" (OutString "u"))
           [Arrives imageResponse] []).
  - reflexivity.
  - reflexivity.
  - apply Hopen; discriminate.
  - constructor; [|constructor].
    exists (predictionWith "processing" OutAbsent). split; [reflexivity|].
    apply Hopen; discriminate.
  - reflexivity.
  - left. reflexivity.
Defined.

(** ** How many images and frames come back *)
Section Counts.

Lemma geminiLoop_length (remaining : nat) (i : Z) (params : Params)
    (apiKey fullPrompt : string) (images result : list string) (w w' : World) :
  geminiLoop remaining i params apiKey fullPrompt images w = Returned result w' ->
  (length images <= length result <= length images + remaining)%nat.
Proof.
  revert i images w. induction remaining as [|remaining IH]; intros i images w; simpl.
  - intros H. injection H as <- _. lia.
  - intros H. apply bind_returned in H as [r [w1 [_ H]]].
    destruct (negb (ok r)); [discriminate|].
    apply bind_returned in H as [data [w2 [_ H]]].
    apply IH in H. destruct (firstImage data); [rewrite length_app in H; simpl in H|]; lia.
Qed.

(** X7. When the Gemini path reports success, it returns at least one image
    and at most [params.quantity] of them: one per call at most, a call whose
    answer has no image part being skipped. *)
Theorem gemini_returns_at_most_quantity_images (params : Params) (apiKey : string)
    (w w' : World) (res : GenerationResult) :
  generateWithGemini params apiKey w = Returned res w' -> success res = true ->
  (1 <= length (images res) <= iterations (quantity params))%nat.
Proof.
  unfold generateWithGemini. intros H Hs.
  apply tryCatch_returned in H as [H | [m [w1 [_ H]]]].
  - apply bind_returned in H as [fp [w1 [_ H]]].
    apply bind_returned in H as [imgs [w2 [Hloop H]]].
    apply geminiLoop_length in Hloop. simpl in Hloop.
    destruct imgs as [|i imgs]; [discriminate|].
    injection H as <- _. simpl in *. lia.
  - injection H as <- _. discriminate.
Qed.

Lemma geminiFrames_run (remaining i total : nat) (params : AnimationParams)
    (descriptions : list string) (apiKey : string) (image : string * string)
    (frames result : list string) (w w' : World) :
  frameDescriptions params = Some descriptions ->
  geminiFrames remaining i total params apiKey image frames w = Returned result w' ->
  length result = (length frames + remaining)%nat /\
  sent w' = (sent w ++ frameCalls params descriptions apiKey image total i remaining)%list.
Proof.
  intros Hd.
  revert i frames w. induction remaining as [|remaining IH]; intros i frames w; simpl.
  - intros H. injection H as <- <-. unfold frameCalls. simpl.
    rewrite app_nil_r. split; [lia | reflexivity].
  - unfold buildAnimationFramePrompt. rewrite Hd. unfold lift at 1, bind at 1, ret at 1.
    intros H. apply bind_returned in H as [r [w1 [Hfetch H]]].
    destruct (negb (ok r)); [discriminate|].
    apply bind_returned in H as [data [w2 [Hjson H]]].
    destruct (firstImage data) as [frame|]; [|discriminate].
    apply IH in H as [Hlen Hsent]. rewrite length_app in Hlen. simpl in Hlen.
    split; [lia|]. rewrite Hsent.
    assert (sent w2 = sent w1) as ->.
    { unfold jsonGemini in Hjson. destruct (json r); try discriminate;
        injection Hjson as _ <-; reflexivity. }
    assert (sent w1 = (sent w ++ [GeminiGenerate apiKey
                                    (framePromptText params descriptions i total)
                                    [image]])%list)
      as ->.
    { unfold fetch in Hfetch. destruct (incoming w) as [|[r0|m0|] rest]; try discriminate.
      injection Hfetch as _ <-. reflexivity. }
    unfold frameCalls. simpl. now rewrite <- app_assoc.
Qed.

(** X8. When the Gemini animation path reports success, it returns exactly
    one frame per frame description, and it has sent exactly one call per
    description, in input order, the call for position [i] carrying the frame
    prompt built for index [i] of the total and the character image. *)
Theorem gemini_animation_is_one_frame_per_description (params : AnimationParams)
    (apiKey : string) (w w' : World) (res : FramesResult) :
  generateAnimationWithGemini params apiKey w = Returned res w' ->
  framesSuccess res = true ->
  exists descriptions image,
    frameDescriptions params = Some descriptions /\
    length (frames res) = length descriptions /\
    inlinePart (characterImage params) = [image] /\
    sent w' = (sent w ++ frameCalls params descriptions apiKey image
                           (length descriptions) 0 (length descriptions))%list.
Proof.
  unfold generateAnimationWithGemini. intros H Hs.
  apply tryCatch_returned in H as [H | [m [w1 [_ H]]]].
  - unfold descriptionCount in H.
    destruct (frameDescriptions params) as [descriptions|] eqn:Ed; [|discriminate].
    unfold lift at 1, bind at 1, ret at 1 in H.
    destruct (inlinePart (characterImage params)) as [|image others] eqn:Ei; [discriminate|].
    apply bind_returned in H as [fr [w1 [Hrun H]]].
    injection H as <- <-. simpl.
    apply (geminiFrames_run _ _ _ _ descriptions) in Hrun as [Hlen Hsent]; [|exact Ed].
    simpl in Hlen.
    exists descriptions, image. split; [reflexivity|]. split; [exact Hlen|].
    split; [|exact Hsent].
    unfold inlinePart in Ei |- *.
    destruct (characterImage params) as [c|]; [|discriminate].
    destruct (negb (String.eqb c "") && startsWith c "data:"); [|discriminate].
    destruct (matchDataUrl c); [|discriminate]. injection Ei as <- <-. reflexivity.
  - injection H as <- _. discriminate.
Qed.

Lemma replicateFrames_length (remaining i total : nat) (params : AnimationParams)
    (apiToken : string) (model : option string) (frames result : list string)
    (w w' : World) :
  replicateFrames remaining i total params apiToken model frames w = Returned result w' ->
  (length result <= length frames + remaining)%nat.
Proof.
  revert i frames w. induction remaining as [|remaining IH]; intros i frames w; simpl.
  - intros H. injection H as <- _. lia.
  - intros H. apply bind_returned in H as [framePrompt [w0 [_ H]]].
    apply bind_returned in H as [r [w1 [_ H]]].
    destruct (negb (ok r)); [discriminate|].
    apply bind_returned in H as [p [w2 [_ H]]].
    apply bind_returned in H as [p' [w3 [_ H]]].
    destruct (strictEq (status p') "failed"); [discriminate|].
    apply bind_returned in H as [frames' [w4 [Hf H]]].
    apply IH in H.
    destruct (frameOutputUrl (output p')).
    + apply bind_returned in Hf as [ir [w5 [_ Hf]]]. injection Hf as <- _.
      rewrite length_app in H. simpl in H. lia.
    + injection Hf as <- _. lia.
Qed.

(** X9. The polling animation path never returns more frames than there are
    frame descriptions: each description yields at most one frame, and none
    when its succeeded prediction has no output. *)
Theorem replicate_animation_is_at_most_one_frame_per_description
    (params : AnimationParams) (apiToken : string) (modelId : option string)
    (env : Env) (w w' : World) (res : FramesResult) :
  generateAnimationWithReplicate params apiToken modelId env w = Returned res w' ->
  (length (frames res) <= length (default [] (frameDescriptions params)))%nat.
Proof.
  unfold generateAnimationWithReplicate. intros H.
  apply tryCatch_returned in H as [H | [m [w1 [_ H]]]].
  - unfold descriptionCount in H.
    destruct (frameDescriptions params) as [descriptions|]; [|discriminate].
    unfold lift at 1, bind at 1, ret at 1 in H.
    apply bind_returned in H as [fr [w1 [Hrun H]]].
    injection H as <- _. simpl. apply replicateFrames_length in Hrun. simpl in Hrun. lia.
  - injection H as <- _. simpl. lia.
Qed.

End Counts.

Lemma gemini_returns_at_most_quantity_images_witness :
  exists res w',
    generateWithGemini (spriteParams (promptBody "a knight")) "key" twoGeminiAnswers =
      Returned res w' /\
    success res = true /\
    (1 <= length (images res) <= 2)%nat.
Proof.
  destruct (generateWithGemini (spriteParams (promptBody "a knight")) "key" twoGeminiAnswers)
    as [res w'|m w'|w'] eqn:E.
  - assert (success res = true) as Hs by (vm_compute in E; injection E as <- _; reflexivity).
    exists res, w'. split; [reflexivity|]. split; [exact Hs|].
    exact (gemini_returns_at_most_quantity_images
             (spriteParams (promptBody "a knight")) "key" twoGeminiAnswers w' res E Hs).
  - exfalso. vm_compute in E. discriminate.
  - exfalso. vm_compute in E. discriminate.
Defined.

Lemma gemini_animation_is_one_frame_per_description_witness :
  exists res w',
    generateAnimationWithGemini walkFrames "key" twoGeminiAnswers = Returned res w' /\
    exists descriptions image,
      frameDescriptions walkFrames = Some descriptions /\
      length (frames res) = length descriptions /\
      inlinePart (characterImage walkFrames) = [image] /\
      sent w' = frameCalls walkFrames descriptions "key" image
                  (length descriptions) 0 (length descriptions).
Proof.
  destruct (generateAnimationWithGemini walkFrames "key" twoGeminiAnswers)
    as [res w'|m w'|w'] eqn:E.
  - assert (framesSuccess res = true) as Hs
      by (vm_compute in E; injection E as <- _; reflexivity).
    exists res, w'. split; [reflexivity|].
    exact (gemini_animation_is_one_frame_per_description walkFrames "key"
             twoGeminiAnswers w' res E Hs).
  - exfalso. vm_compute in E. discriminate.
  - exfalso. vm_compute in E. discriminate.
Defined.

Lemma replicate_animation_is_at_most_one_frame_per_description_witness :
  exists res w',
    generateAnimationWithReplicate idleFrame "token" None platformEnv
      {| incoming := [Arrives (predictionResponse (predictionWith "succeeded" (OutString "u")));
                      Arrives imageResponse];
         sent := [] |} = Returned res w' /\
    (length (frames res) <= 1)%nat.
Proof.
  destruct (generateAnimationWithReplicate idleFrame "token" None platformEnv
              {| incoming := [Arrives (predictionResponse
                                         (predictionWith "succeeded" (OutString "u")));
                              Arrives imageResponse];
                 sent := [] |}) as [res w'|m w'|w'] eqn:E.
  - exists res, w'. split; [reflexivity|].
    exact (replicate_animation_is_at_most_one_frame_per_description idleFrame "token" None
             platformEnv _ w' res E).
  - exfalso. vm_compute in E. discriminate.
  - exfalso. vm_compute in E. discriminate.
Defined.

(** ** The size asked of the standard model *)
Section TargetSize.



End TargetSize.


(** ** Credentials of the animation flows *)
Section AnimationCredentials.










End AnimationCredentials.

(** ** The pose branch of the polling path *)
Section PoseBranch.

(** X13. A request with a pose image is served by the image-edit model alone
    and never reaches the standard model; a request without one never reaches
    the image-edit model. *)
Theorem pose_image_selects_the_edit_model (params : Params) (apiToken : string)
    (modelId : option string) :
  (truthy (poseImage params) = true ->
   sendsAtMost isStandardCall 0 (generateWithReplicate params apiToken modelId)) /\
  (truthy (poseImage params) = false ->
   sendsAtMost isEditCall 0 (generateWithReplicate params apiToken modelId)).
Proof.
  split; intros Hpose; unfold generateWithReplicate; rewrite Hpose;
    (apply (sends_tryCatch _ 0 0); [|intros msg; apply sends_ret]);
    (apply (sends_bind _ 0 0);
     [apply (sends_refine _ apiToken); [split; reflexivity | reflexivity ..]|]);
    intros finalPrompt;
    (apply (sends_bind _ 0 0);
     [|intros images; destruct images; [apply sends_throw | apply sends_ret]]);
    (apply (sends_bind _ 0 0);
     [|intros out; apply (sends_fetchOutputs _ apiToken); split; reflexivity]).
  - unfold generateWithQwen.
    apply (sends_callReplicate_uncounted _ apiToken); [split; reflexivity | reflexivity ..].
  - apply (sends_callReplicate_uncounted _ apiToken); [split; reflexivity | | ].
    + unfold standardInput. now destruct (targetSize params).
    + unfold standardInput. now destruct (targetSize params).
Qed.

End PoseBranch.



Lemma pose_image_selects_the_edit_model_witness :
  (exists added,
     sent (worldOf (generateWithReplicate (spriteParams (poseBody "data:image/png;base64,AAAA"))
                      "token" None oneImageWorld)) = (sent oneImageWorld ++ added)%list /\
     (countIf isStandardCall added <= 0)%nat) /\
  (exists added,
     sent (worldOf (generateWithReplicate (spriteParams (promptBody "a knight"))
                      "token" None oneImageWorld)) = (sent oneImageWorld ++ added)%list /\
     (countIf isEditCall added <= 0)%nat).
Proof.
  split.
  - destruct (pose_image_selects_the_edit_model
                (spriteParams (poseBody "data:image/png;base64,AAAA")) "token" None)
      as [Hpose _].
    exact (Hpose eq_refl oneImageWorld).
  - destruct (pose_image_selects_the_edit_model
                (spriteParams (promptBody "a knight")) "token" None) as [_ Hplain].
    exact (Hplain eq_refl oneImageWorld).
Defined.

(** ** The spritesheet generator *)
Section SpritesheetFacts.

Lemma layout_of_catalog (preset : Spritesheet.AnimationPreset) :
  In preset Spritesheet.ANIMATION_PRESETS ->
  (8 <? Spritesheet.frameCount preset) = negb (String.eqb (Spritesheet.id preset) "vfx").
Proof.
  intros H. simpl in H.
  repeat (destruct H as [<- | H]; [reflexivity|]). destruct H.
Qed.

Lemma getAnimationPreset_found (presetId : option string)
    (preset : Spritesheet.AnimationPreset) :
  Spritesheet.getAnimationPreset presetId = Some preset ->
  In preset Spritesheet.ANIMATION_PRESETS /\ presetId = Some (Spritesheet.id preset).
Proof.
  unfold Spritesheet.getAnimationPreset. intros H.
  apply find_some in H as [Hin Heq]. split; [exact Hin|].
  now apply strictEq_true_iff.
Qed.

(** X14. A successful spritesheet result describes the preset that was asked
    for: its frame count is the preset's, its frame size is the custom
    override or else the preset's, and its layout is ["grid"] when the preset
    has more than 8 frames and ["horizontal"] otherwise, which in the catalog
    is the [vfx] preset alone.  A failed result has no URL, zero geometry and
    an error message. *)
Theorem spritesheet_result_describes_the_preset (params : Spritesheet.SheetParams)
    (apiToken : string) (seed : Z) (w w' : World) (res : Spritesheet.SpritesheetResult) :
  Spritesheet.generateSpritesheet params apiToken seed w = Returned res w' ->
  (Spritesheet.success res = true /\
   exists preset,
     Spritesheet.getAnimationPreset (Spritesheet.animationPresetId params) = Some preset /\
     Spritesheet.resultFrameCount res = Spritesheet.frameCount preset /\
     Spritesheet.frameWidth res =
       numberOr (Spritesheet.customWidth params) (Spritesheet.width preset) /\
     Spritesheet.frameHeight res =
       numberOr (Spritesheet.customHeight params) (Spritesheet.height preset) /\
     Spritesheet.layout res =
       (if 8 <? Spritesheet.frameCount preset then "grid" else "horizontal") /\
     Spritesheet.layout res =
       (if String.eqb (Spritesheet.id preset) "vfx" then "horizontal" else "grid") /\
     Spritesheet.error res = None) \/
  (Spritesheet.success res = false /\
   Spritesheet.spritesheetUrl res = None /\
   Spritesheet.resultFrameCount res = 0 /\
   Spritesheet.frameWidth res = 0 /\ Spritesheet.frameHeight res = 0 /\
   Spritesheet.layout res = "horizontal" /\
   exists message, Spritesheet.error res = Some message).
Proof.
  unfold Spritesheet.generateSpritesheet. intros H.
  apply tryCatch_returned in H as [H | [m [w1 [_ H]]]].
  - left.
    destruct (Spritesheet.getAnimationPreset (Spritesheet.animationPresetId params))
      as [preset|] eqn:Ep; [|discriminate].
    apply bind_returned in H as [out [w1 [_ H]]].
    apply bind_returned in H as [url [w2 [_ H]]].
    injection H as <- _. simpl. split; [reflexivity|].
    exists preset. repeat split.
    destruct (getAnimationPreset_found _ _ Ep) as [Hin _].
    rewrite (layout_of_catalog preset Hin).
    now destruct (String.eqb (Spritesheet.id preset) "vfx").
  - right. injection H as <- _. simpl. repeat split. eauto.
Qed.

Lemma sends_awaitPrediction_polls (q : Request -> bool) (apiToken failureText : string)
    (r : Response) :
  (forall url, q (PollPrediction url apiToken) = false) ->
  sendsAtMost q 0 (awaitPrediction apiToken failureText r).
Proof.
  intros Hq.
  assert (forall fuel p, sendsAtMost q 0 (pollLoop fuel pollUrl apiToken p)) as Hloop.
  { induction fuel as [|fuel IH]; intros p; simpl.
    - destruct (terminal p); [apply sends_ret | apply sends_pending].
    - destruct (terminal p); [apply sends_ret|].
      apply (sends_bind q 0 0); [apply sends_fetch_uncounted, Hq|].
      intros r0. apply (sends_bind q 0 0); [apply sends_jsonPrediction | exact IH]. }
  unfold awaitPrediction. destruct (negb (ok r)); [apply sends_throw|].
  apply (sends_bind q 0 0); [apply sends_jsonPrediction|]. intros p.
  apply (sends_bind q 0 0); [intros w; unfold poll; apply Hloop|]. intros p'.
  destruct (strictEq (status p') "failed"); [apply sends_throw | apply sends_ret].
Qed.

(** X15. [generateSpritesheet] creates at most one prediction; every request
    it sends is that creation, at the animation model's endpoint with the
    caller's token, the character image of the request and the seed, or a
    poll with the same token.  In particular it never downloads the sheet: the
    provider's URL is handed back. *)
Theorem spritesheet_sends_one_creation (params : Spritesheet.SheetParams)
    (apiToken : string) (seed : Z) :
  sendsAtMost isCreation 1 (Spritesheet.generateSpritesheet params apiToken seed) /\
  sendsOnly (sheetRequest params apiToken seed)
    (Spritesheet.generateSpritesheet params apiToken seed).
Proof.
  split.
  - unfold Spritesheet.generateSpritesheet.
    apply (sends_tryCatch _ 1 0); [|intros msg; apply sends_ret].
    destruct (Spritesheet.getAnimationPreset _) as [preset|].
    + apply (sends_bind _ 1 0).
      * unfold Spritesheet.callReplicateAnimation.
        apply (sends_bind _ 1 0); [apply sends_fetch|]. intros r.
        apply (sends_awaitPrediction _ apiToken). split; reflexivity.
      * intros out. apply (sends_bind _ 0 0); [|intros; apply sends_ret].
        destruct out; [apply sends_ret .. | apply sends_throw].
    + eapply sends_weaken; [|apply sends_throw]. lia.
  - unfold sendsOnly, Spritesheet.generateSpritesheet.
    apply (sends_tryCatch _ 0 0); [|intros msg; apply sends_ret].
    destruct (Spritesheet.getAnimationPreset _) as [preset|]; [|apply sends_throw].
    apply (sends_bind _ 0 0).
    + unfold Spritesheet.callReplicateAnimation.
      apply (sends_bind _ 0 0).
      * apply sends_fetch_uncounted. simpl.
        rewrite !String.eqb_refl, !bool_decide_eq_true_2, Z.eqb_refl by reflexivity.
        reflexivity.
      * intros r. apply sends_awaitPrediction_polls.
        intros url. simpl. now rewrite String.eqb_refl.
    + intros out. apply (sends_bind _ 0 0); [|intros; apply sends_ret].
      destruct out; [apply sends_ret .. | apply sends_throw].
Qed.

End SpritesheetFacts.

Lemma spritesheet_result_describes_the_preset_witness :
  exists res w',
    Spritesheet.generateSpritesheet (presetRequest "vfx") "token" 7
      {| incoming := [Arrives (predictionResponse
                                 (predictionWith "succeeded" (OutArray ["sheet.png"])))];
         sent := [] |} = Returned res w' /\
    Spritesheet.success res = true /\
    Spritesheet.layout res = "horizontal" /\
    Spritesheet.resultFrameCount res = 8.
Proof.
  destruct (Spritesheet.generateSpritesheet (presetRequest "vfx") "token" 7
              {| incoming := [Arrives (predictionResponse
                                         (predictionWith "succeeded" (OutArray ["sheet.png"])))];
                 sent := [] |}) as [res w'|m w'|w'] eqn:E.
  - exists res, w'. split; [reflexivity|].
    destruct (spritesheet_result_describes_the_preset (presetRequest "vfx") "token" 7 _ w' res E)
      as [[Hs [preset [Hp [Hc [_ [_ [Hl _]]]]]]] | [Hs _]].
    + split; [exact Hs|]. injection Hp as <-. split; [exact Hl | exact Hc].
    + exfalso. vm_compute in E. injection E as <- _. discriminate.
  - exfalso. vm_compute in E. discriminate.
  - exfalso. vm_compute in E. discriminate.
Defined.

(** ** Uploads *)
Section Uploads.

Lemma takeWhile_free (c : ascii) (s rest : string) :
  freeOf c s = true ->
  takeWhile (fun d => negb (Ascii.eqb d c)) (s +:+ String c rest) = s /\
  dropWhile (fun d => negb (Ascii.eqb d c)) (s +:+ String c rest) = String c rest.
Proof.
  induction s as [|d s IH]; simpl.
  - intros _. now rewrite Ascii.eqb_refl.
  - intros H. apply andb_true_iff in H as [Hd Hs]. rewrite Hd.
    destruct (IH Hs) as [-> ->]. auto.
Qed.

Lemma split_free (c : ascii) (s : string) : freeOf c s = true -> split c s = [s].
Proof.
  induction s as [|d s IH]; simpl; [reflexivity|].
  intros H. apply andb_true_iff in H as [Hd Hs]. apply negb_true_iff in Hd.
  now rewrite Hd, (IH Hs).
Qed.

Lemma split_at_separator (c : ascii) (s rest : string) :
  freeOf c s = true -> split c (s +:+ String c rest) = s :: split c rest.
Proof.
  induction s as [|d s IH]; simpl.
  - intros _. now rewrite Ascii.eqb_refl.
  - intros H. apply andb_true_iff in H as [Hd Hs]. apply negb_true_iff in Hd.
    now rewrite Hd, (IH Hs).
Qed.

(** The two readings [uploadGeneratedImage] makes of a data URL of the form
    [data:<mime>;base64,<data>]. *)
Lemma dataUrl_readings (mime data : string) :
  mime <> "" -> freeOf ";" mime = true -> freeOf "," mime = true ->
  freeOf "," data = true ->
  split "," (dataUrlOf mime data) !! 1%nat = Some data /\
  Storage.mimeTypeOf (dataUrlOf mime data) = mime.
Proof.
  intros Hne Hsemi Hcomma Hdata. unfold dataUrlOf. split.
  - replace ("data:" +:+ mime +:+ ";base64," +:+ data)
      with (("data:" +:+ mime +:+ ";base64") +:+ String "," data).
    + rewrite split_at_separator.
      * now rewrite (split_free _ _ Hdata).
      * rewrite !freeOf_app, Hcomma. reflexivity.
    + rewrite !append_assoc. reflexivity.
  - unfold Storage.mimeTypeOf.
    assert (Storage.matchMimeHere ("data:" +:+ mime +:+ ";base64," +:+ data) = Some mime) as H.
    { unfold Storage.matchMimeHere.
      rewrite (proj2 (prefix_iff "data:" _)) by (eexists; reflexivity).
      change (dropChars 5 ("data:" +:+ mime +:+ ";base64," +:+ data))
        with (mime +:+ String ";" ("base64," +:+ data)).
      destruct (takeWhile_free ";" mime ("base64," +:+ data) Hsemi) as [Ht Hd].
      unfold notSemicolon. rewrite Ht, Hd.
      rewrite (proj2 (prefix_iff ";" _)) by (eexists; reflexivity).
      apply String.eqb_neq in Hne. rewrite Hne. reflexivity. }
    unfold Storage.matchMime.
    destruct ("data:" +:+ mime +:+ ";base64," +:+ data); fold Storage.matchMime;
      now rewrite H.
Qed.

Lemma split_nonempty (c : ascii) (s : string) : exists piece pieces, split c s = piece :: pieces.
Proof.
  induction s as [|d s [piece [pieces IH]]]; simpl; [eauto|].
  destruct (Ascii.eqb d c); [eauto|]. rewrite IH. eauto.
Qed.

(** A text with a comma has something after its first comma. *)
Lemma split_second (s : string) :
  freeOf "," s = false -> exists data, split "," s !! 1%nat = Some data.
Proof.
  induction s as [|d s IH]; simpl; [discriminate|].
  destruct (Ascii.eqb d ",") eqn:E; simpl.
  - intros _. destruct (split_nonempty "," s) as [piece [pieces ->]]. eauto.
  - intros H. destruct (IH H) as [data Hdata].
    destruct (split_nonempty "," s) as [piece [pieces Hs]].
    rewrite Hs in Hdata |- *. eauto.
Qed.

(** What [fetchImage] returns is the data URL of the response that answered
    its download. *)
Lemma fetchImage_returned (url fallbackMime image : string) (w w' : World) :
  fetchImage url fallbackMime w = Returned image w' ->
  exists r,
    incoming w = Arrives r :: incoming w' /\
    sent w' = (sent w ++ [Download url])%list /\
    image = dataUrlOf (orElse (contentType r) fallbackMime) (base64 r).
Proof.
  unfold fetchImage, bind, fetch, ret.
  destruct (incoming w) as [|[r|m|] rest] eqn:E; try discriminate.
  intros H. injection H as <- <-. exists r. auto.
Qed.

(** A download whose URL does not parse is not sent. *)
Lemma fetchImage_rejected_url (url fallbackMime : string) (rest : list Arrival)
    (snt : list Request) :
  fetchImage url fallbackMime {| incoming := RejectedUrl :: rest; sent := snt |} =
  Thrown (failedToParseUrlFrom url) {| incoming := rest; sent := snt |}.
Proof. reflexivity. Qed.

(** The two uploads end alike: once the file is saved, the result is what
    the signing gives. *)
Lemma saveAndSign_saved (filename : string) (file : Storage.StoredFile)
    (bucket : Storage.Bucket) :
  Storage.saveError bucket = None ->
  exists bucket',
    Storage.saveAndSign filename file bucket =
      (match Storage.signError bucket with
       | Some message => Abrupt message
       | None => Normal (Storage.signedUrl bucket filename)
       end, bucket') /\
    Storage.files bucket' = <[filename := file]> (Storage.files bucket).
Proof.
  intros Hsave. unfold Storage.saveAndSign, Storage.save, Storage.getSignedUrl.
  rewrite Hsave. cbn [Storage.signError Storage.signedUrl Storage.files].
  eexists. split; reflexivity.
Qed.

(** X16. An image that the download loop turned into a data URL is stored as
    it was fetched.  Whenever [fetchImage] returns an image, a response
    answered its download and the image is the data URL of that response's
    content type and body; and for a content type without [;] or [,] and
    base64 text without [,], on a bucket that is available and accepts the
    save, the upload stores one file with that content type and that content
    under [<type>s/<userId>/<timestamp>-<random>.<extension>], and its result
    is what the signing of that file gives. *)
Theorem fetched_image_is_stored_as_fetched (url fallbackMime userId type random : string)
    (timestamp : Z) (image : string) (w w' : World) (bucket : Storage.Bucket) :
  fetchImage url fallbackMime w = Returned image w' ->
  exists r,
    incoming w = Arrives r :: incoming w' /\
    sent w' = (sent w ++ [Download url])%list /\
    image = dataUrlOf (orElse (contentType r) fallbackMime) (base64 r) /\
    (orElse (contentType r) fallbackMime <> "" ->
     freeOf ";" (orElse (contentType r) fallbackMime) = true ->
     freeOf "," (orElse (contentType r) fallbackMime) = true ->
     freeOf "," (base64 r) = true ->
     Storage.bucketError bucket = None -> Storage.saveError bucket = None ->
     exists bucket',
       Storage.uploadGeneratedImage image userId type timestamp random bucket =
         (match Storage.signError bucket with
          | Some message => Abrupt message
          | None =>
              Normal (Storage.signedUrl bucket
                        (Storage.imageFilename type userId timestamp random
                           (Storage.extensionOf (orElse (contentType r) fallbackMime))))
          end, bucket') /\
       Storage.files bucket' =
         <[Storage.imageFilename type userId timestamp random
             (Storage.extensionOf (orElse (contentType r) fallbackMime)) :=
             {| Storage.storedType := orElse (contentType r) fallbackMime;
                Storage.storedBase64 := base64 r |}]> (Storage.files bucket)).
Proof.
  intros Hfetch. destruct (fetchImage_returned _ _ _ _ _ Hfetch) as [r [Hin [Hsent ->]]].
  exists r. split; [exact Hin|]. split; [exact Hsent|]. split; [reflexivity|].
  intros Hne Hsemi Hcomma Hdata Hbucket Hsave.
  destruct (dataUrl_readings _ (base64 r) Hne Hsemi Hcomma Hdata) as [Hsplit Hmime].
  unfold Storage.uploadGeneratedImage, Storage.getStorageBucket.
  rewrite Hbucket, Hsplit, Hmime.
  now apply saveAndSign_saved.
Qed.

(** X17. [uploadGeneratedImage] saves before it signs.  When the bucket is
    not available, the data URL has no comma or the save is refused, it
    raises and the bucket is as it was.  In every other case exactly one file
    is added, with the content type read from the data URL, whether the
    signing succeeds or not: the result is the signed URL of that file, or
    the exception of the signing, which leaves the file in the bucket. *)
Theorem upload_saves_before_it_signs (dataUrl userId type random : string) (timestamp : Z)
    (bucket : Storage.Bucket) :
  let filename :=
    Storage.imageFilename type userId timestamp random
      (Storage.extensionOf (Storage.mimeTypeOf dataUrl)) in
  let result := Storage.uploadGeneratedImage dataUrl userId type timestamp random bucket in
  (cannotStore dataUrl bucket -> exists message, result = (Abrupt message, bucket)) /\
  (~ cannotStore dataUrl bucket ->
   exists file,
     Storage.files (snd result) = <[filename := file]> (Storage.files bucket) /\
     Storage.storedType file = Storage.mimeTypeOf dataUrl /\
     (Storage.signError bucket = None ->
      fst result = Normal (Storage.signedUrl bucket filename)) /\
     (forall message, Storage.signError bucket = Some message ->
      fst result = Abrupt message)).
Proof.
  intros filename result. unfold result, Storage.uploadGeneratedImage.
  fold filename. unfold Storage.getStorageBucket. split.
  - intros [Hbucket | [Hcomma | Hsave]].
    + destruct (Storage.bucketError bucket) as [message|]; [eauto | congruence].
    + destruct (Storage.bucketError bucket) as [message|]; [eauto|].
      rewrite (split_free _ _ Hcomma). simpl. eauto.
    + destruct (Storage.bucketError bucket) as [message|]; [eauto|].
      destruct (split "," dataUrl !! 1%nat) as [data|]; [|eauto].
      unfold Storage.saveAndSign, Storage.save.
      destruct (Storage.saveError bucket) as [message|]; [eauto | congruence].
  - intros Hcan. unfold cannotStore in Hcan.
    destruct (Storage.bucketError bucket) as [message|] eqn:Eb;
      [exfalso; apply Hcan; left; discriminate|].
    destruct (freeOf "," dataUrl) eqn:Ec; [exfalso; apply Hcan; right; left; reflexivity|].
    destruct (Storage.saveError bucket) as [message|] eqn:Es;
      [exfalso; apply Hcan; right; right; discriminate|].
    destruct (split_second dataUrl Ec) as [data ->].
    destruct (saveAndSign_saved filename
                {| Storage.storedType := Storage.mimeTypeOf dataUrl;
                   Storage.storedBase64 := data |} bucket Es) as [bucket' [-> Hfiles]].
    eexists. split; [exact Hfiles|]. split; [reflexivity|]. simpl. split.
    + now intros ->.
    + now intros message ->.
Qed.

(** X18. Whenever [uploadSpritesheet] returns, a response answered the
    download of the sheet; whatever its content type and status, its body is
    what the upload stores, as [image/png], under
    [animations/<userId>/<projectId>/<timestamp>-<random>-<name>.png].  When
    the bucket is not available or refuses the save nothing is stored; when
    the file is saved the result is the signed URL, or the exception of the
    signing, which leaves the file in the bucket. *)
Theorem spritesheet_is_stored_as_png (url userId projectId animationName random : string)
    (timestamp : Z) (bucket bucket' : Storage.Bucket) (outcome : Completion string)
    (w w' : World) :
  Storage.uploadSpritesheet (Some url) userId projectId animationName timestamp random bucket
    w = Returned (outcome, bucket') w' ->
  exists r,
    incoming w = Arrives r :: incoming w' /\
    sent w' = (sent w ++ [Download url])%list /\
    (Storage.bucketError bucket <> None \/ Storage.saveError bucket <> None ->
     bucket' = bucket /\ exists message, outcome = Abrupt message) /\
    (Storage.bucketError bucket = None -> Storage.saveError bucket = None ->
     Storage.files bucket' =
       <[Storage.sheetFilename userId projectId timestamp random animationName :=
           {| Storage.storedType := "image/png"; Storage.storedBase64 := base64 r |}]>
         (Storage.files bucket) /\
     outcome =
       match Storage.signError bucket with
       | Some message => Abrupt message
       | None =>
           Normal (Storage.signedUrl bucket
                     (Storage.sheetFilename userId projectId timestamp random animationName))
       end).
Proof.
  unfold Storage.uploadSpritesheet, bind, fetch, Storage.getStorageBucket.
  destruct (incoming w) as [|[r|m|] rest] eqn:E; try discriminate.
  cbn [incoming sent]. intros H. exists r. unfold ret in H.
  destruct (Storage.bucketError bucket) as [message|] eqn:Eb.
  - injection H as <- <- <-. cbn [incoming sent].
    split; [reflexivity|]. split; [reflexivity|]. split; [eauto | discriminate].
  - injection H as Hres <-. cbn [incoming sent].
    split; [reflexivity|]. split; [reflexivity|]. split.
    + intros [Hbucket | Hsave]; [congruence|].
      unfold Storage.saveAndSign, Storage.save in Hres.
      destruct (Storage.saveError bucket) as [message|]; [|congruence].
      injection Hres as <- <-. eauto.
    + intros _ Hsave.
      destruct (saveAndSign_saved
                  (Storage.sheetFilename userId projectId timestamp random animationName)
                  {| Storage.storedType := "image/png"; Storage.storedBase64 := base64 r |}
                  bucket Hsave) as [saved [Heq Hfiles]].
      rewrite Heq in Hres. injection Hres as <- <-. auto.
Qed.

End Uploads.

Lemma fetched_image_is_stored_as_fetched_witness :
  fetchImage "https://replicate.delivery/out.png" "image/png"
    {| incoming := [Arrives imageResponse]; sent := [] |} =
    Returned (dataUrlOf "image/png" "iVBORw0KGgo=")
      {| incoming := []; sent := [Download "https://replicate.delivery/out.png"] |} /\
  exists bucket',
    Storage.uploadGeneratedImage (dataUrlOf "image/png" "iVBORw0KGgo=") "u1" "sprite"
      1700000000000 "k3x9q" emptyBucket =
      (Normal "https://storage.googleapis.com/bucket/sprites/u1/1700000000000-k3x9q.png",
       bucket') /\
    Storage.files bucket' =
      <[ "sprites/u1/1700000000000-k3x9q.png" :=
           {| Storage.storedType := "image/png"; Storage.storedBase64 := "iVBORw0KGgo=" |} ]>
        (Storage.files emptyBucket).
Proof.
  split; [reflexivity|].
  destruct (fetched_image_is_stored_as_fetched "https://replicate.delivery/out.png"
              "image/png" "u1" "sprite" "k3x9q" 1700000000000
              (dataUrlOf "image/png" "iVBORw0KGgo=")
              {| incoming := [Arrives imageResponse]; sent := [] |}
              {| incoming := []; sent := [Download "https://replicate.delivery/out.png"] |}
              emptyBucket eq_refl) as [r [Hin [_ [_ Hstore]]]].
  simpl in Hin. injection Hin as <-.
  apply Hstore; try reflexivity. discriminate.
Defined.

Lemma upload_saves_before_it_signs_witness :
  Storage.uploadGeneratedImage "not a data url" "u1" "sprite" 1 "r" emptyBucket =
    (Abrupt Storage.invalidBufferArgument, emptyBucket) /\
  fst (Storage.uploadGeneratedImage "data:image/png;base64,AAAA" "u1" "sprite" 1 "r"
         unsignedBucket) = Abrupt "signing failed" /\
  exists file,
    Storage.files (snd (Storage.uploadGeneratedImage "data:image/png;base64,AAAA" "u1"
                          "sprite" 1 "r" unsignedBucket)) =
      <[ "sprites/u1/1-r.png" := file ]> (Storage.files unsignedBucket) /\
    Storage.storedType file = "image/png".
Proof.
  destruct (upload_saves_before_it_signs "data:image/png;base64,AAAA" "u1" "sprite" "r" 1
              unsignedBucket) as [_ Hstored].
  destruct Hstored as [file [Hfiles [Htype [_ Hsign]]]].
  { intros [H | [H | H]]; [now apply H | discriminate H | now apply H]. }
  split; [reflexivity|]. split; [exact (Hsign "signing failed" eq_refl)|].
  exists file. split; [exact Hfiles | exact Htype].
Defined.

Lemma spritesheet_is_stored_as_png_witness :
  exists bucket',
    Storage.uploadSpritesheet (Some "https://replicate.delivery/sheet.gif") "u1" "p1"
      "walk" 1700000000000 "k3x9q" emptyBucket
      {| incoming := [Arrives imageResponse]; sent := [] |} =
    Returned
      (Normal "https://storage.googleapis.com/bucket/animations/u1/p1/1700000000000-k3x9q-walk.png",
       bucket')
      {| incoming := []; sent := [Download "https://replicate.delivery/sheet.gif"] |} /\
    Storage.files bucket' =
      <[ "animations/u1/p1/1700000000000-k3x9q-walk.png" :=
           {| Storage.storedType := "image/png"; Storage.storedBase64 := "iVBORw0KGgo=" |} ]>
        (Storage.files emptyBucket).
Proof.
  destruct (Storage.uploadSpritesheet (Some "https://replicate.delivery/sheet.gif") "u1" "p1"
              "walk" 1700000000000 "k3x9q" emptyBucket
              {| incoming := [Arrives imageResponse]; sent := [] |})
    as [[outcome bucket'] w'|m w'|w'] eqn:E.
  - destruct (spritesheet_is_stored_as_png _ _ _ _ _ _ _ _ _ _ _ E)
      as [r [Hin [Hsent [_ Hstore]]]].
    destruct (Hstore eq_refl eq_refl) as [Hfiles Hout].
    destruct w' as [inc snt]. simpl in Hin, Hsent. injection Hin as <- <-.
    exists bucket'. rewrite Hout, Hsent. split; [reflexivity | exact Hfiles].
  - exfalso. vm_compute in E. discriminate.
  - exfalso. vm_compute in E. discriminate.
Defined.

(** ** The asset service *)
Section AssetFacts.

Lemma findById_allowed (assets : gmap string Assets.AssetData) (id : string)
    (userId : option string) (data : Assets.AssetData) :
  assets !! id = Some data -> mayAccess userId data ->
  Assets.findById id userId assets = Some {| Assets.id := id; Assets.data := data |}.
Proof.
  intros Hdata Hmay. unfold Assets.findById. rewrite Hdata.
  destruct Hmay as [-> | ->]; [reflexivity|].
  simpl. rewrite String.eqb_refl. now rewrite andb_false_r.
Qed.

(** X19. An update by the owner replaces the document by one that differs
    only in what was asked: the name and the project when given, the metadata
    merged key by key with the new values winning, and [updated_at]; owner,
    type, file, URL, status and creation time are kept, every other document
    is untouched, and the updated asset is returned. *)
Theorem update_changes_only_what_was_asked (assets : gmap string Assets.AssetData)
    (id : string) (userId : option string) (data : Assets.AssetData)
    (updates : Assets.Updates) (now : Z) :
  assets !! id = Some data -> mayAccess userId data ->
  exists data',
    Assets.update id userId updates now assets =
      (Normal (Some {| Assets.id := id; Assets.data := data' |}), <[id := data']> assets) /\
    (Assets.user_id data' = Assets.user_id data /\
     Assets.asset_type data' = Assets.asset_type data /\
     Assets.file_type data' = Assets.file_type data /\
     Assets.blob_url data' = Assets.blob_url data /\
     Assets.status data' = Assets.status data /\
     Assets.created_at data' = Assets.created_at data /\
     Assets.updated_at data' = now) /\
    Assets.name data' =
      match Assets.newName updates with Some n => n | None => Assets.name data end /\
    Assets.project_id data' =
      match Assets.newProjectId updates with Some p => p | None => Assets.project_id data end /\
    (forall key,
       Assets.metadata data' !! key =
       match Assets.newMetadata updates with
       | Some m =>
           match m !! key with
           | Some v => Some v
           | None => Assets.metadata data !! key
           end
       | None => Assets.metadata data !! key
       end) /\
    (forall other, other <> id -> <[id := data']> assets !! other = assets !! other).
Proof.
  intros Hdata Hmay. exists (Assets.applyUpdates data updates now).
  split; [|split; [|split; [|split; [|split]]]].
  - unfold Assets.update. rewrite (findById_allowed assets id userId data Hdata Hmay).
    cbn [Assets.data]. f_equal. f_equal.
    apply findById_allowed; [apply lookup_insert_eq|].
    destruct Hmay as [H | H]; [left; exact H | right; exact H].
  - repeat split.
  - reflexivity.
  - reflexivity.
  - intros key. simpl. destruct (Assets.newMetadata updates) as [m|]; [|reflexivity].
    rewrite lookup_union. destruct (m !! key), (Assets.metadata data !! key); reflexivity.
  - intros other Hne. now apply lookup_insert_ne.
Qed.

(** X20. A delete by the owner is soft: the document stays in the
    collection with status ["deleted"] and a new [updated_at], everything else
    in it and every other document unchanged, and [findById] still returns it
    to its owner. *)
Theorem delete_is_soft (assets : gmap string Assets.AssetData) (id : string)
    (userId : option string) (data : Assets.AssetData) (now : Z) :
  assets !! id = Some data -> mayAccess userId data ->
  exists assets',
    Assets.delete id userId now assets = (Normal tt, assets') /\
    assets' !! id = Some (Assets.markDeleted data now) /\
    Assets.status (Assets.markDeleted data now) = "deleted" /\
    Assets.user_id (Assets.markDeleted data now) = Assets.user_id data /\
    Assets.blob_url (Assets.markDeleted data now) = Assets.blob_url data /\
    Assets.findById id (Some (Assets.user_id data)) assets' =
      Some {| Assets.id := id; Assets.data := Assets.markDeleted data now |} /\
    (forall other, other <> id -> assets' !! other = assets !! other).
Proof.
  intros Hdata Hmay. eexists. split.
  - unfold Assets.delete. rewrite (findById_allowed assets id userId data Hdata Hmay).
    reflexivity.
  - cbn [Assets.data]. split; [apply lookup_insert_eq|]. repeat split.
    + apply findById_allowed; [apply lookup_insert_eq | right; reflexivity].
    + intros other Hne. now apply lookup_insert_ne.
Qed.

(** X21. A hard delete by the owner removes the document, so that nobody
    finds it afterwards, and leaves every other document alone; for anyone
    else with a non-empty user id it raises "Asset not found" and removes
    nothing. *)
Theorem hardDelete_removes_own_asset_only (assets : gmap string Assets.AssetData)
    (id : string) (data : Assets.AssetData) :
  assets !! id = Some data ->
  (forall userId,
     mayAccess userId data ->
     exists assets',
       Assets.hardDelete id userId assets = (Normal tt, assets') /\
       (forall anyone, Assets.findById id anyone assets' = None) /\
       (forall other, other <> id -> assets' !! other = assets !! other)) /\
  (forall stranger,
     stranger <> "" -> stranger <> Assets.user_id data ->
     Assets.hardDelete id (Some stranger) assets = (Abrupt Assets.assetNotFound, assets)).
Proof.
  intros Hdata. split.
  - intros userId Hmay. eexists. split.
    + unfold Assets.hardDelete. rewrite (findById_allowed assets id userId data Hdata Hmay).
      reflexivity.
    + split.
      * intros anyone. unfold Assets.findById. now rewrite lookup_delete_eq.
      * intros other Hne. now apply lookup_delete_ne.
  - intros stranger Hne Hother. unfold Assets.hardDelete.
    rewrite (findById_hidden assets id stranger Hne); [reflexivity|].
    right. exists data. split; [exact Hdata | congruence].
Qed.

(** X22. A created asset can be read back: with the fresh id Firestore
    generates, [create] stores an active document stamped with the current
    time, returns it, [findById] returns the same asset to its owner, and every
    document that was there before is unchanged.  An empty name or project is
    stored as null. *)
Theorem created_asset_is_read_back (assets : gmap string Assets.AssetData)
    (input : Assets.CreateInput) (newId : string) (now : Z) :
  assets !! newId = None ->
  exists asset assets',
    Assets.create input newId now assets = (asset, assets') /\
    Assets.findById newId (Some (Assets.input_user_id input)) assets' = Some asset /\
    Assets.id asset = newId /\
    Assets.status (Assets.data asset) = "active" /\
    Assets.created_at (Assets.data asset) = now /\
    Assets.updated_at (Assets.data asset) = now /\
    Assets.user_id (Assets.data asset) = Assets.input_user_id input /\
    (Assets.input_name input = Some "" -> Assets.name (Assets.data asset) = None) /\
    (forall other data, assets !! other = Some data -> assets' !! other = Some data).
Proof.
  intros Hfresh. eexists _, _. split; [reflexivity|]. split.
  - apply findById_allowed; [apply lookup_insert_eq | right; reflexivity].
  - repeat split.
    + intros Hname. simpl. unfold Assets.orNull. now rewrite Hname.
    + intros other data Hother. rewrite lookup_insert_ne; [exact Hother|].
      intros ->. congruence.
Qed.

Lemma createMany_ids (inputs : list (Assets.CreateInput * string)) (now : Z)
    (assets : gmap string Assets.AssetData) :
  map Assets.id (fst (Assets.createMany inputs now assets)) = map snd inputs /\
  map (fun a => Assets.user_id (Assets.data a)) (fst (Assets.createMany inputs now assets)) =
    map (fun i => Assets.input_user_id (fst i)) inputs /\
  (forall i, i ∈ map snd inputs -> is_Some (snd (Assets.createMany inputs now assets) !! i)).
Proof.
  revert assets. induction inputs as [|[input newId] inputs IH]; intros assets.
  - simpl. repeat split. intros i Hi. now apply elem_of_nil in Hi.
  - simpl. destruct (Assets.createMany inputs now _) as [created assets''] eqn:E.
    specialize (IH (<[newId := Assets.newAsset input now]> assets)).
    unfold Assets.create in E. rewrite E in IH. simpl in IH. destruct IH as [Hid [Hu Hin]].
    simpl. split; [now rewrite Hid|]. split; [now rewrite Hu|].
    intros i Hi. apply elem_of_cons in Hi as [-> | Hi]; [|now apply Hin].
    destruct (decide (newId ∈ map snd inputs)) as [Hdup | Hnew]; [now apply Hin|].
    assert (forall l a, newId ∉ map snd l ->
              snd (Assets.createMany l now a) !! newId = a !! newId) as Hkeep.
    { clear. induction l as [|[inp k] l IHl]; intros a Hk; [reflexivity|].
      simpl. destruct (Assets.createMany l now _) as [c a''] eqn:El.
      simpl. specialize (IHl (<[k := Assets.newAsset inp now]> a)).
      unfold Assets.create in El. rewrite El in IHl. simpl in IHl.
      simpl in Hk. apply not_elem_of_cons in Hk as [Hk1 Hk2].
      rewrite (IHl Hk2). now apply lookup_insert_ne. }
    specialize (Hkeep inputs (<[newId := Assets.newAsset input now]> assets) Hnew).
    rewrite E in Hkeep. simpl in Hkeep. rewrite Hkeep, lookup_insert_eq. eauto.
Qed.

(** X23. [createMany] creates one asset per input, in input order: the
    returned assets carry the generated ids and the owners of the inputs,
    position by position, and every one of them is in the collection
    afterwards. *)
Theorem createMany_creates_one_asset_per_input (inputs : list (Assets.CreateInput * string))
    (now : Z) (assets : gmap string Assets.AssetData) :
  length (fst (Assets.createMany inputs now assets)) = length inputs /\
  map Assets.id (fst (Assets.createMany inputs now assets)) = map snd inputs /\
  map (fun a => Assets.user_id (Assets.data a)) (fst (Assets.createMany inputs now assets)) =
    map (fun i => Assets.input_user_id (fst i)) inputs /\
  Forall (fun a => is_Some (snd (Assets.createMany inputs now assets) !! Assets.id a))
    (fst (Assets.createMany inputs now assets)).
Proof.
  destruct (createMany_ids inputs now assets) as [Hid [Hu Hin]].
  split; [|split; [exact Hid|split; [exact Hu|]]].
  - rewrite <- (length_map Assets.id), Hid. apply length_map.
  - apply Forall_forall. intros a Ha. apply Hin. rewrite <- Hid.
    apply list_elem_of_In. apply in_map. now apply list_elem_of_In.
Qed.

End AssetFacts.

(** ** Listing assets *)
Section ListingFacts.

Variable firestoreOrder : string -> string -> list Assets.Asset -> list Assets.Asset.

(** Firestore returns documents of the query only. *)
Hypothesis order_returns_selected :
  forall field direction selected asset,
    In asset (firestoreOrder field direction selected) -> In asset selected.

Lemma list_selected (filters : Assets.Filters) (assets : gmap string Assets.AssetData)
    (asset : Assets.Asset) :
  In asset (Assets.list firestoreOrder filters assets) ->
  Assets.matches filters asset = true /\
  assets !! Assets.id asset = Some (Assets.data asset).
Proof.
  unfold Assets.list. intros H.
  apply list_elem_of_In in H. apply elem_of_take in H as [i [H _]].
  apply list_elem_of_lookup_2 in H. apply list_elem_of_In in H.
  apply order_returns_selected in H. apply filter_In in H as [H Hm].
  split; [exact Hm|]. apply in_map_iff in H as [[k d] [<- H]].
  simpl. apply list_elem_of_In in H. now apply elem_of_map_to_list in H.
Qed.

Lemma list_returns_selected_status (filters : Assets.Filters)
    (assets : gmap string Assets.AssetData) (asset : Assets.Asset) :
  In asset (Assets.list firestoreOrder filters assets) ->
  (forall s, Assets.filter_status filters = Some s -> s <> "" ->
             Assets.status (Assets.data asset) = s) /\
  (truthy (Assets.filter_status filters) = false ->
   Assets.status (Assets.data asset) = "active").
Proof.
  intros Hin. destruct (list_selected filters assets asset Hin) as [Hm _].
  unfold Assets.matches in Hm. apply andb_true_iff in Hm as [_ Hstatus]. split.
  - intros s Hs Hne. rewrite Hs in Hstatus.
    assert (truthy (Some s) = true) as Ht.
    { simpl. apply negb_true_iff. now apply String.eqb_neq. }
    rewrite Ht in Hstatus. simpl in Hstatus. apply String.eqb_eq in Hstatus. congruence.
  - intros Hnone. rewrite Hnone in Hstatus. now apply String.eqb_eq in Hstatus.
Qed.

(** X24. [list] returns stored documents that pass every filter that is
    set: with a user id only that user's assets, with no status only active
    ones, so that a soft-deleted asset is never listed by default; and it
    never returns more than the limit, which is 50 when the limit is missing
    or zero. *)
Theorem list_returns_matching_assets_only (filters : Assets.Filters)
    (assets : gmap string Assets.AssetData) :
  (length (Assets.list firestoreOrder filters assets) <= Assets.effectiveLimit filters)%nat /\
  (Assets.limit filters = None \/ Assets.limit filters = Some 0%nat ->
   Assets.effectiveLimit filters = 50%nat) /\
  (forall asset,
     In asset (Assets.list firestoreOrder filters assets) ->
     assets !! Assets.id asset = Some (Assets.data asset) /\
     (forall u, Assets.filter_user_id filters = Some u -> u <> "" ->
                Assets.user_id (Assets.data asset) = u) /\
     (forall p, Assets.filter_project_id filters = Some p -> p <> "" ->
                Assets.project_id (Assets.data asset) = Some p) /\
     (forall s, Assets.filter_status filters = Some s -> s <> "" ->
                Assets.status (Assets.data asset) = s) /\
     (truthy (Assets.filter_status filters) = false ->
      Assets.status (Assets.data asset) = "active")).
Proof.
  split; [|split].
  - unfold Assets.list. rewrite length_take. lia.
  - intros [H | H]; unfold Assets.effectiveLimit; now rewrite H.
  - intros asset Hin. destruct (list_selected filters assets asset Hin) as [Hm Hstored].
    split; [exact Hstored|]. unfold Assets.matches in Hm.
    apply andb_true_iff in Hm as [Hm Hstatus].
    apply andb_true_iff in Hm as [Hm _].
    apply andb_true_iff in Hm as [Huser Hproject].
    assert (forall v, v <> "" -> truthy (Some v) = true) as Htruthy.
    { intros v Hv. simpl. apply negb_true_iff. now apply String.eqb_neq. }
    repeat split.
    + intros u Hu Hne. rewrite Hu, (Htruthy u Hne) in Huser.
      simpl in Huser. apply String.eqb_eq in Huser. congruence.
    + intros p Hp Hne. rewrite Hp, (Htruthy p Hne) in Hproject.
      now apply bool_decide_eq_true_1 in Hproject.
    + intros s Hs Hne. rewrite Hs, (Htruthy s Hne) in Hstatus.
      simpl in Hstatus. apply String.eqb_eq in Hstatus. congruence.
    + intros Hnone. rewrite Hnone in Hstatus. now apply String.eqb_eq in Hstatus.
Qed.

(** X25. After a soft delete the asset no longer appears in a listing that
    names no status, nor in [getRecentByUser] or [getByType], although it is
    still stored. *)
Theorem soft_deleted_asset_is_not_listed (assets : gmap string Assets.AssetData)
    (id : string) (userId : option string) (data : Assets.AssetData) (now : Z)
    (filters : Assets.Filters) (limit : option nat) (assetType : option string) :
  assets !! id = Some data -> mayAccess userId data ->
  let assets' := snd (Assets.delete id userId now assets) in
  is_Some (assets' !! id) /\
  (truthy (Assets.filter_status filters) = false ->
   forall asset, In asset (Assets.list firestoreOrder filters assets') ->
                 Assets.id asset <> id) /\
  (forall asset, In asset (Assets.getRecentByUser firestoreOrder userId limit assets') ->
                 Assets.id asset <> id) /\
  (forall asset, In asset (Assets.getByType firestoreOrder userId assetType limit assets') ->
                 Assets.id asset <> id).
Proof.
  intros Hdata Hmay assets'.
  assert (assets' = <[id := Assets.markDeleted data now]> assets) as Hassets.
  { unfold assets', Assets.delete.
    now rewrite (findById_allowed assets id userId data Hdata Hmay). }
  assert (forall f asset,
            In asset (Assets.list firestoreOrder f assets') ->
            Assets.status (Assets.data asset) = "active" -> Assets.id asset <> id) as Hactive.
  { intros f asset Hin Hstatus Heq.
    destruct (list_selected f assets' asset Hin) as [_ Hstored].
    rewrite Heq, Hassets, lookup_insert_eq in Hstored. injection Hstored as Hd.
    rewrite <- Hd in Hstatus. discriminate. }
  split; [rewrite Hassets, lookup_insert_eq; eauto|]. split; [|split].
  - intros Hnone asset Hin. apply (Hactive filters asset Hin).
    destruct (list_returns_selected_status filters assets' asset Hin) as [_ H]. now apply H.
  - intros asset Hin. apply (Hactive _ asset Hin).
    destruct (list_returns_selected_status _ assets' asset Hin) as [H _].
    now apply (H "active").
  - intros asset Hin. apply (Hactive _ asset Hin).
    destruct (list_returns_selected_status _ assets' asset Hin) as [H _].
    now apply (H "active").
Qed.

End ListingFacts.

Lemma update_changes_only_what_was_asked_witness :
  exists data',
    Assets.update "a1" (Some "u1") (renameTo "hero") 2 oneAsset =
      (Normal (Some {| Assets.id := "a1"; Assets.data := data' |}),
       <["a1" := data']> oneAsset) /\
    Assets.name data' = Some "hero" /\
    Assets.user_id data' = "u1" /\
    Assets.updated_at data' = 2.
Proof.
  destruct (update_changes_only_what_was_asked oneAsset "a1" (Some "u1") knightAsset
              (renameTo "hero") 2) as [data' [Hupdate [Hkept [Hname _]]]].
  - reflexivity.
  - right. reflexivity.
  - exists data'. split; [exact Hupdate|]. split; [exact Hname|].
    destruct Hkept as [Huser [_ [_ [_ [_ [_ Hnow]]]]]]. split; [exact Huser | exact Hnow].
Defined.

Lemma delete_is_soft_witness :
  exists assets',
    Assets.delete "a1" (Some "u1") 2 oneAsset = (Normal tt, assets') /\
    assets' !! "a1" = Some (Assets.markDeleted knightAsset 2) /\
    Assets.findById "a1" (Some "u1") assets' =
      Some {| Assets.id := "a1"; Assets.data := Assets.markDeleted knightAsset 2 |}.
Proof.
  destruct (delete_is_soft oneAsset "a1" (Some "u1") knightAsset 2)
    as [assets' [Hdelete [Hstored [_ [_ [_ [Hfound _]]]]]]].
  - reflexivity.
  - right. reflexivity.
  - exists assets'. split; [exact Hdelete|]. split; [exact Hstored | exact Hfound].
Defined.

Lemma hardDelete_removes_own_asset_only_witness :
  (exists assets',
     Assets.hardDelete "a1" (Some "u1") oneAsset = (Normal tt, assets') /\
     Assets.findById "a1" None assets' = None) /\
  Assets.hardDelete "a1" (Some "u2") oneAsset = (Abrupt Assets.assetNotFound, oneAsset).
Proof.
  destruct (hardDelete_removes_own_asset_only oneAsset "a1" knightAsset) as [Hown Hother].
  - reflexivity.
  - split.
    + destruct (Hown (Some "u1")) as [assets' [Hdelete [Hgone _]]].
      * right. reflexivity.
      * exists assets'. split; [exact Hdelete | apply Hgone].
    + apply Hother; discriminate.
Defined.

Lemma created_asset_is_read_back_witness :
  exists asset assets',
    Assets.create dragonInput "a2" 5 oneAsset = (asset, assets') /\
    Assets.findById "a2" (Some "u2") assets' = Some asset /\
    Assets.name (Assets.data asset) = None /\
    assets' !! "a1" = Some knightAsset.
Proof.
  destruct (created_asset_is_read_back oneAsset dragonInput "a2" 5)
    as [asset [assets' [Hcreate [Hfound [_ [_ [_ [_ [_ [Hname Hkept]]]]]]]]]].
  - reflexivity.
  - exists asset, assets'. split; [exact Hcreate|]. split; [exact Hfound|].
    split; [apply Hname; reflexivity | apply Hkept; reflexivity].
Defined.

Lemma list_returns_matching_assets_only_witness :
  (length (Assets.list (fun _ _ selected => selected) (assetsOf "u1") oneAsset) <= 50)%nat.
Proof.
  destruct (list_returns_matching_assets_only (fun _ _ selected => selected)
              (fun _ _ _ _ H => H) (assetsOf "u1") oneAsset) as [Hlimit _].
  exact Hlimit.
Defined.

Lemma soft_deleted_asset_is_not_listed_witness :
  is_Some (snd (Assets.delete "a1" (Some "u1") 2 oneAsset) !! "a1") /\
  (forall asset,
     In asset (Assets.list (fun _ _ selected => selected) (assetsOf "u1")
                 (snd (Assets.delete "a1" (Some "u1") 2 oneAsset))) ->
     Assets.id asset <> "a1").
Proof.
  destruct (soft_deleted_asset_is_not_listed (fun _ _ selected => selected)
              (fun _ _ _ _ H => H) oneAsset "a1" (Some "u1") knightAsset 2
              (assetsOf "u1") None None) as [Hstored [Hlist _]].
  - reflexivity.
  - right. reflexivity.
  - split; [exact Hstored | apply Hlist; reflexivity].
Defined.

(** ** Deleting the assets of a project *)
Section ProjectDeletion.

Variable firestoreOrder : string -> string -> list Assets.Asset -> list Assets.Asset.

Hypothesis order_returns_selected :
  forall field direction selected asset,
    In asset (firestoreOrder field direction selected) -> In asset selected.

Lemma hardDeleteEach_effect (listed : list Assets.Asset) (userId : option string)
    (count : nat) (assets : gmap string Assets.AssetData) :
  (count <= fst (Assets.hardDeleteEach listed userId count assets) <= count + length listed)%nat /\
  (forall other,
     (forall asset, In asset listed -> Assets.id asset <> other) ->
     snd (Assets.hardDeleteEach listed userId count assets) !! other = assets !! other) /\
  (forall other,
     assets !! other = None ->
     snd (Assets.hardDeleteEach listed userId count assets) !! other = None).
Proof.
  revert count assets. induction listed as [|asset listed IH]; intros count assets.
  - simpl. repeat split; try lia; auto.
  - simpl. unfold Assets.hardDelete.
    destruct (Assets.findById (Assets.id asset) userId assets) as [found|].
    + destruct (IH (S count) (base.delete (Assets.id asset) assets)) as [Hc [Hother Hnone]].
      split; [lia|]. split.
      * intros other Hnot. rewrite Hother.
        -- apply lookup_delete_ne. apply Hnot. now left.
        -- intros a Ha. apply Hnot. now right.
      * intros other Hmissing. apply Hnone.
        rewrite lookup_delete. destruct (decide (Assets.id asset = other)); auto.
    + destruct (IH count assets) as [Hc [Hother Hnone]].
      split; [lia|]. split.
      * intros other Hnot. apply Hother. intros a Ha. apply Hnot. now right.
      * exact Hnone.
Qed.

Lemma projectAssets_selected (projectId userId : option string)
    (assets : gmap string Assets.AssetData) (asset : Assets.Asset) :
  In asset (Assets.projectAssets firestoreOrder projectId userId assets) ->
  assets !! Assets.id asset = Some (Assets.data asset) /\
  (forall p, projectId = Some p -> p <> "" ->
             Assets.project_id (Assets.data asset) = Some p) /\
  (forall u, userId = Some u -> u <> "" -> Assets.user_id (Assets.data asset) = u).
Proof.
  unfold Assets.projectAssets. intros H. apply in_app_or in H.
  assert (forall v, v <> "" -> truthy (Some v) = true) as Htruthy.
  { intros v Hv. simpl. apply negb_true_iff. now apply String.eqb_neq. }
  destruct H as [H | H];
    destruct (list_selected firestoreOrder order_returns_selected _ assets asset H)
      as [Hm Hstored];
    (split; [exact Hstored|]);
    unfold Assets.matches in Hm; cbn [Assets.filter_user_id Assets.filter_project_id] in Hm;
    apply andb_true_iff in Hm as [Hm _];
    apply andb_true_iff in Hm as [Hm _];
    apply andb_true_iff in Hm as [Huser Hproject];
    (split;
     [intros p -> Hne; rewrite (Htruthy p Hne) in Hproject;
      now apply bool_decide_eq_true_1 in Hproject
     |intros u -> Hne; rewrite (Htruthy u Hne) in Huser;
      simpl in Huser; apply String.eqb_eq in Huser; congruence]).
Qed.

(** X26. Deleting a project's assets stays inside the project: for a
    non-empty project id, every document of another project, or without
    project, is left exactly as it was, whoever owns it; no document is
    created; and the returned count is at most the number of assets listed,
    hence at most 2000. *)
Theorem project_deletion_stays_inside_the_project (projectId : string)
    (userId : option string) (assets : gmap string Assets.AssetData) :
  projectId <> "" ->
  let result := Assets.hardDeleteByProject firestoreOrder (Some projectId) userId assets in
  (fst result <= length (Assets.projectAssets firestoreOrder (Some projectId) userId assets)
   <= 2000)%nat /\
  (forall other data,
     assets !! other = Some data -> Assets.project_id data <> Some projectId ->
     snd result !! other = Some data) /\
  (forall other, assets !! other = None -> snd result !! other = None).
Proof.
  intros Hne result. unfold result, Assets.hardDeleteByProject.
  destruct (hardDeleteEach_effect
              (Assets.projectAssets firestoreOrder (Some projectId) userId assets)
              userId 0 assets) as [Hcount [Hother Hnone]].
  split; [|split].
  - split; [lia|]. unfold Assets.projectAssets, Assets.list.
    rewrite length_app, !length_take.
    unfold Assets.effectiveLimit. cbn [Assets.limit]. lia.
  - intros other data Hdata Hproject. rewrite Hother; [exact Hdata|].
    intros asset Hin Heq.
    destruct (projectAssets_selected (Some projectId) userId assets asset Hin)
      as [Hstored [Hp _]].
    rewrite Heq, Hdata in Hstored. injection Hstored as Hd.
    specialize (Hp projectId eq_refl Hne). rewrite <- Hd in Hp. contradiction.
  - exact Hnone.
Qed.

End ProjectDeletion.

Lemma project_deletion_stays_inside_the_project_witness :
  (fst (Assets.hardDeleteByProject (fun _ _ selected => selected) (Some "p9") (Some "u1")
          oneAsset) <= 2000)%nat /\
  snd (Assets.hardDeleteByProject (fun _ _ selected => selected) (Some "p9") (Some "u1")
         oneAsset) !! "a1" = Some knightAsset.
Proof.
  destruct (project_deletion_stays_inside_the_project (fun _ _ selected => selected)
              (fun _ _ _ _ H => H) "p9" (Some "u1") oneAsset) as [Hcount [Hkept _]].
  - discriminate.
  - split; [lia|]. apply Hkept; [reflexivity | discriminate].
Defined.
